(** * chess.go : a bitboard chess position engine

    Shallow embedding of the position core of the Go package [chess]
    (files [bit.go], [move.go], [piece.go], [bitboard.go]) and the
    properties of its natural-language specification.

    Conventions.
    - A Go [uint64] is a [Z] in [0, 2^64); every operation that can leave
      that range is followed by its wrap-around ([u64]).
    - A Go [int] is a [Z]; the counters of a position stay far from the
      64-bit limits, so no wrap-around is written for them.
    - A Go [string] is a [string] of bytes.
    - A run-time panic (slice bound out of range, pop of an empty stack) is
      the value [None] of an [option] result.
    - A [*Move] is an [option Move]; [nil] is the null move.
    - An array or table indexed by a square is read at squares 0 to 63; the
      moves considered have their squares in that range. *)

From Stdlib Require Import ZArith List String Ascii Lia Bool.
From stdpp Require Import base option gmap strings list.
Import ListNotations.
Local Open Scope Z_scope.

(** ** bit.go *)

Definition mask64 : Z := 18446744073709551615.

Definition u64 (x : Z) : Z := Z.land x mask64.

(** [^x] on a [uint64]. *)
Definition not64 (x : Z) : Z := Z.lxor x mask64.

Definition shl64 (x n : Z) : Z := u64 (Z.shiftl x n).

(** The loop of [popCount]: [for b > 0 { count++; b = b & (b - 1) }].
    A [uint64] has at most 64 set bits, and the loop clears one per turn. *)
Fixpoint popCount_loop (fuel : nat) (b count : Z) : Z :=
  match fuel with
  | O => count
  | S fuel' =>
      if 0 <? b then popCount_loop fuel' (Z.land b (b - 1)) (count + 1)
      else count
  end.

Definition popCount (b : Z) : Z := popCount_loop 64 b 0.

(** [fmt.Sprintf("%b", b)]: the binary digits of [b], most significant
    first, and ["0"] for zero. *)
Fixpoint pos_binary (p : positive) (acc : string) : string :=
  match p with
  | xH => String "1" acc
  | xO p' => pos_binary p' (String "0" acc)
  | xI p' => pos_binary p' (String "1" acc)
  end.

Definition Sprintf_b (b : Z) : string :=
  match b with
  | Zpos p => pos_binary p EmptyString
  | _ => "0"%string
  end.

Definition len (s : string) : Z := Z.of_nat (String.length s).

(** The slice expression [s[:k]]; Go panics unless [0 <= k <= len(s)]. *)
Definition slice_to (s : string) (k : Z) : option string :=
  if (k <? 0) || (len s <? k) then None
  else Some (substring 0 (Z.to_nat k) s).

(** [strings.LastIndex(s, c)] for a one-byte needle [c]. *)
Fixpoint last_index_from (s : string) (c : ascii) (i found : Z) : Z :=
  match s with
  | EmptyString => found
  | String x s' =>
      last_index_from s' c (i + 1) (if Ascii.eqb x c then i else found)
  end.

Definition LastIndex (s : string) (c : ascii) : Z :=
  last_index_from s c 0 (-1).

Definition bitScan (b n : Z) : option Z :=
  let str := Sprintf_b b in
  prefix ← slice_to str (len str - n);
  let r := LastIndex prefix "1" in
  if r =? -1 then Some (-1) else Some (len str - r - 1).

(** The idiom found at every use of [bitScan]:
    [sq := bitScan(m, 0); for sq != -1 { ...; sq = bitScan(m, sq+1) }].
    The squares visited, in order.  The fuel is the number of turns; a
    [uint64] needs at most 64 of them and one last scan. *)
Fixpoint scan_from (fuel : nat) (m n : Z) : option (list Z) :=
  match fuel with
  | O => None
  | S fuel' =>
      sq ← bitScan m n;
      if sq =? -1 then Some []
      else rest ← scan_from fuel' m (sq + 1); Some (sq :: rest)
  end.

Definition scan_squares (m : Z) : option (list Z) := scan_from 65 m 0.

(** ** Colours, piece kinds, moves, pieces *)

Inductive Colors := White | Black.

(** [color ^ 1]. *)
Definition other (c : Colors) : Colors :=
  match c with White => Black | Black => White end.

(** The constant the Go code calls [None] is [NoPiece] here. *)
Inductive PieceTypes := NoPiece | Pawn | Knight | Bishop | Rook | Queen | King.

Definition piece_index (p : PieceTypes) : Z :=
  match p with
  | NoPiece => 0 | Pawn => 1 | Knight => 2 | Bishop => 3
  | Rook => 4 | Queen => 5 | King => 6
  end.

Definition PieceTypes_eqb (a b : PieceTypes) : bool :=
  piece_index a =? piece_index b.

#[global] Instance Colors_eq_dec : EqDecision Colors.
Proof. solve_decision. Defined.

#[global] Instance PieceTypes_eq_dec : EqDecision PieceTypes.
Proof. solve_decision. Defined.

Record Move := NewMove {
  fromSquare : Z;
  toSquare : Z;
  promotion : PieceTypes
}.

#[global] Instance Move_eq_dec : EqDecision Move.
Proof. solve_decision. Defined.

Record Piece := NewPiece {
  pieceType : PieceTypes;
  color : Colors
}.

(** ** Constants of the package

    The file that declares the squares, the masks and the lookup tables is
    not among the sources; what the code above and below requires of them
    fixes the values given here. *)

(** Modelled from the spec: squares are the integers 0 to 63 with a
    file/rank decomposition; [A1] is 0 and [H8] is 63. *)
Definition fileIndex (square : Z) : Z := Z.land square 7.
Definition rankIndex (square : Z) : Z := Z.shiftr square 3.

Definition A1 : Z := 0.
Definition B1 : Z := 1.
Definition C1 : Z := 2.
Definition D1 : Z := 3.
Definition E1 : Z := 4.
Definition F1 : Z := 5.
Definition G1 : Z := 6.
Definition H1 : Z := 7.
Definition A8 : Z := 56.
Definition B8 : Z := 57.
Definition C8 : Z := 58.
Definition D8 : Z := 59.
Definition E8 : Z := 60.
Definition F8 : Z := 61.
Definition G8 : Z := 62.
Definition H8 : Z := 63.

(** Modelled from the spec: a bitboard has one bit per square. *)
Definition BBSquares (square : Z) : Z := shl64 1 square.

Definition BBVoid : Z := 0.
Definition BBA1 := BBSquares A1.
Definition BBB1 := BBSquares B1.
Definition BBC1 := BBSquares C1.
Definition BBD1 := BBSquares D1.
Definition BBE1 := BBSquares E1.
Definition BBF1 := BBSquares F1.
Definition BBG1 := BBSquares G1.
Definition BBH1 := BBSquares H1.
Definition BBA8 := BBSquares A8.
Definition BBB8 := BBSquares B8.
Definition BBC8 := BBSquares C8.
Definition BBD8 := BBSquares D8.
Definition BBE8 := BBSquares E8.
Definition BBF8 := BBSquares F8.
Definition BBG8 := BBSquares G8.
Definition BBH8 := BBSquares H8.

Definition BBRank (r : Z) : Z := shl64 255 (8 * r).
Definition BBRank1 := BBRank 0.
Definition BBRank2 := BBRank 1.
Definition BBRank4 := BBRank 3.
Definition BBRank5 := BBRank 4.
Definition BBRank7 := BBRank 6.
Definition BBRank8 := BBRank 7.
Definition BBFileA : Z := 72340172838076673.
Definition BBFileH : Z := 9259542123273814144.

(** Modelled from the spec: the castling rights are a bit mask, one bit per
    colour and side. *)
Definition CastlingNone : Z := 0.
Definition CastlingWhiteKingSide : Z := 1.
Definition CastlingBlackKingSide : Z := 2.
Definition CastlingWhiteQueenSide : Z := 4.
Definition CastlingBlackQueenSide : Z := 8.
Definition CastlingWhite : Z := 5.
Definition CastlingBlack : Z := 10.
Definition Castling : Z := 15.

(** Modelled from the spec: the one-step shifts of a bitboard; a step off
    the board drops the bit. *)
Definition shiftUp (b : Z) : Z := shl64 b 8.
Definition shiftDown (b : Z) : Z := Z.shiftr b 8.
Definition shiftLeft (b : Z) : Z := Z.land (Z.shiftr b 1) (not64 BBFileH).
Definition shiftRight (b : Z) : Z := Z.land (shl64 b 1) (not64 BBFileA).
Definition shiftUpLeft (b : Z) : Z := Z.land (shl64 b 7) (not64 BBFileH).
Definition shiftUpRight (b : Z) : Z := Z.land (shl64 b 9) (not64 BBFileA).
Definition shiftDownLeft (b : Z) : Z := Z.land (Z.shiftr b 9) (not64 BBFileH).
Definition shiftDownRight (b : Z) : Z := Z.land (Z.shiftr b 7) (not64 BBFileA).

(** Modelled from the spec: the fixed name table of the squares, ["a1"] to
    ["h8"], and the piece letters indexed by kind. *)
Definition file_letters : list ascii :=
  ["a"; "b"; "c"; "d"; "e"; "f"; "g"; "h"]%char.
Definition rank_digits : list ascii :=
  ["1"; "2"; "3"; "4"; "5"; "6"; "7"; "8"]%char.

Definition SquareNames : list string :=
  r ← rank_digits; f ← file_letters; [String f (String r EmptyString)].

Definition PieceSymbols : list string :=
  [EmptyString; "p"; "n"; "b"; "r"; "q"; "k"]%string.

Definition piece_of_index (i : nat) : PieceTypes :=
  match i with
  | 1%nat => Pawn | 2%nat => Knight | 3%nat => Bishop
  | 4%nat => Rook | 5%nat => Queen | 6%nat => King
  | _ => NoPiece
  end.

Definition square_name (square : Z) : string :=
  nth (Z.to_nat square) SquareNames EmptyString.

Definition piece_symbol (p : PieceTypes) : string :=
  nth (Z.to_nat (piece_index p)) PieceSymbols EmptyString.

(** Modelled from the spec: the squares in the order of a FEN board field,
    rank 8 first, files a to h within a rank. *)
Definition Squares180 : list Z :=
  r ← [7; 6; 5; 4; 3; 2; 1; 0]; f ← [0; 1; 2; 3; 4; 5; 6; 7]; [8 * r + f].

(** Modelled from the spec: the three rotated occupancy views are fixed
    permutations of the squares under which a file (90 degrees) or a
    diagonal (45 degrees either way) is a run of consecutive bits.  The
    code fixes the run of file [f] at bits [8f .. 8f+7] by the shift it
    applies in [RookAttacksFrom]; the diagonal runs start one bit below
    [BBShiftR45] and [BBShiftL45]. *)
Definition SquaresL90 (square : Z) : Z :=
  8 * fileIndex square + (7 - rankIndex square).

Definition SquaresR45 (square : Z) : Z :=
  8 * ((rankIndex square - fileIndex square) mod 8) + fileIndex square.

Definition SquaresL45 (square : Z) : Z :=
  8 * ((rankIndex square + fileIndex square + 1) mod 8) + fileIndex square.

Definition BBSquaresL90 (square : Z) : Z := BBSquares (SquaresL90 square).
Definition BBSquaresR45 (square : Z) : Z := BBSquares (SquaresR45 square).
Definition BBSquaresL45 (square : Z) : Z := BBSquares (SquaresL45 square).

Definition BBShiftR45 (square : Z) : Z :=
  let d := rankIndex square - fileIndex square in
  (if 0 <=? d then 8 * d else 8 * (d + 8) - d) + 1.

Definition BBShiftL45 (square : Z) : Z :=
  let s := rankIndex square + fileIndex square in
  (if s <=? 7 then 8 * ((s + 1) mod 8) else 8 * ((s + 1) mod 8) + (s - 7)) + 1.

(** Modelled from the spec: the attack tables.  A slider entry is indexed
    by a square and a 6-bit slice of the matching occupancy view and holds
    every square up to and including the first occupied one in both
    directions of the line.  [walk] follows one direction from [p]. *)
Fixpoint walk (fuel : nat) (p step : Z) (can_step hit : Z -> bool) : Z :=
  match fuel with
  | O => 0
  | S fuel' =>
      if can_step p then
        let q := p + step in
        Z.lor (BBSquares q)
              (if hit q then 0 else walk fuel' q step can_step hit)
      else 0
  end.

Definition nonzero (x : Z) : bool := negb (x =? 0).

Definition BBRankAttacks (square index : Z) : Z :=
  let hit q := nonzero (Z.land (Z.shiftl 1 (fileIndex q)) (Z.shiftl index 1)) in
  Z.lor (walk 7 square 1 (fun p => fileIndex p <? 7) hit)
        (walk 7 square (-1) (fun p => 0 <? fileIndex p) hit).

Definition BBFileAttacks (square index : Z) : Z :=
  let hit q :=
    nonzero (Z.land (Z.shiftl 1 (7 - rankIndex q)) (Z.shiftl index 1)) in
  Z.lor (walk 7 square 8 (fun p => rankIndex p <? 7) hit)
        (walk 7 square (-8) (fun p => 0 <? rankIndex p) hit).

Definition BBR45Attacks (square index : Z) : Z :=
  let hit q :=
    nonzero (Z.land index (Z.shiftr (BBSquaresR45 q) (BBShiftR45 square))) in
  Z.lor (walk 7 square 9
           (fun p => (fileIndex p <? 7) && (rankIndex p <? 7)) hit)
        (walk 7 square (-9)
           (fun p => (0 <? fileIndex p) && (0 <? rankIndex p)) hit).

Definition BBL45Attacks (square index : Z) : Z :=
  let hit q :=
    nonzero (Z.land index (Z.shiftr (BBSquaresL45 q) (BBShiftL45 square))) in
  Z.lor (walk 7 square 7
           (fun p => (0 <? fileIndex p) && (rankIndex p <? 7)) hit)
        (walk 7 square (-7)
           (fun p => (fileIndex p <? 7) && (0 <? rankIndex p)) hit).

Definition BBKnightAttacks (square : Z) : Z :=
  let s := BBSquares square in
  let l1 := Z.land (Z.shiftr s 1) (not64 BBFileH) in
  let l2 := Z.land (Z.shiftr s 2) (not64 (Z.lor BBFileH (Z.shiftr BBFileH 1))) in
  let r1 := Z.land (shl64 s 1) (not64 BBFileA) in
  let r2 := Z.land (shl64 s 2) (not64 (Z.lor BBFileA (shl64 BBFileA 1))) in
  let h1 := Z.lor l1 r1 in
  let h2 := Z.lor l2 r2 in
  Z.lor (Z.lor (shl64 h1 16) (Z.shiftr h1 16)) (Z.lor (shl64 h2 8) (Z.shiftr h2 8)).

Definition BBKingAttacks (square : Z) : Z :=
  let s := BBSquares square in
  let row := Z.lor s (Z.lor (shiftLeft s) (shiftRight s)) in
  Z.lor (Z.lor (shiftLeft s) (shiftRight s)) (Z.lor (shiftUp row) (shiftDown row)).

Definition BBPawnAttacks (c : Colors) (square : Z) : Z :=
  let s := BBSquares square in
  match c with
  | White => Z.lor (shiftUpLeft s) (shiftUpRight s)
  | Black => Z.lor (shiftDownLeft s) (shiftDownRight s)
  end.

Definition BBPawnF1 (c : Colors) (square : Z) : Z :=
  let s := BBSquares square in
  match c with White => shiftUp s | Black => shiftDown s end.

Definition BBPawnF2 (c : Colors) (square : Z) : Z :=
  let s := BBSquares square in
  match c with
  | White => Z.land (shiftUp (shiftUp s)) BBRank4
  | Black => Z.land (shiftDown (shiftDown s)) BBRank5
  end.

(** Modelled from the spec: the hashing table is an opaque fixed table of
    781 64-bit values (768 piece terms, 4 castling terms, 8 en-passant
    files, 1 turn term).  Its values are not among the sources; this
    stand-in derives a fixed value from each index by a bit mixer. *)
Definition mix64 (x : Z) : Z :=
  let z := u64 (x * 11400714819323198485 + 7046029254386353131) in
  let z := u64 (Z.lxor z (Z.shiftr z 30) * 13787848793156543929) in
  let z := u64 (Z.lxor z (Z.shiftr z 27) * 10723151780598845931) in
  Z.lxor z (Z.shiftr z 31).

Definition PolyglotRandomArray (i : Z) : Z := mix64 (i + 1).

(** ** bitboard.go : the position *)

(** An array indexed by a colour, [[2]T]. *)
Definition by_color {A} (a : A * A) (c : Colors) : A :=
  match c with White => fst a | Black => snd a end.

Definition set_color {A} (a : A * A) (c : Colors) (x : A) : A * A :=
  match c with White => (x, snd a) | Black => (fst a, x) end.

Record Bitboard := mkBitboard {
  pawns : Z;
  knights : Z;
  bishops : Z;
  rooks : Z;
  queens : Z;
  kings : Z;

  occupiedCo : Z * Z;
  occupied : Z;
  occupiedL90 : Z;
  occupiedL45 : Z;
  occupiedR45 : Z;

  kingSquares : Z * Z;
  pieces : list PieceTypes;

  epSquare : Z;
  castlingRights : Z;
  turn : Colors;
  fullMoveNumber : Z;
  halfMoveClock : Z;

  halfMoveClockStack : list Z;
  capturedPieceStack : list PieceTypes;
  castlingRightStack : list Z;
  epSquareStack : list Z;
  moveStack : list (option Move);
  incrementalZobristHash : Z;
  transpositions : gmap Z Z
}.

(** Assignment to one field of the position. *)
Definition set_pawns (v : Z) (b : Bitboard) : Bitboard :=
  mkBitboard v (knights b) (bishops b) (rooks b) (queens b) (kings b)
    (occupiedCo b) (occupied b) (occupiedL90 b) (occupiedL45 b)
    (occupiedR45 b) (kingSquares b) (pieces b) (epSquare b)
    (castlingRights b) (turn b) (fullMoveNumber b) (halfMoveClock b)
    (halfMoveClockStack b) (capturedPieceStack b) (castlingRightStack b)
    (epSquareStack b) (moveStack b) (incrementalZobristHash b)
    (transpositions b).

Definition set_knights (v : Z) (b : Bitboard) : Bitboard :=
  mkBitboard (pawns b) v (bishops b) (rooks b) (queens b) (kings b)
    (occupiedCo b) (occupied b) (occupiedL90 b) (occupiedL45 b)
    (occupiedR45 b) (kingSquares b) (pieces b) (epSquare b)
    (castlingRights b) (turn b) (fullMoveNumber b) (halfMoveClock b)
    (halfMoveClockStack b) (capturedPieceStack b) (castlingRightStack b)
    (epSquareStack b) (moveStack b) (incrementalZobristHash b)
    (transpositions b).

Definition set_bishops (v : Z) (b : Bitboard) : Bitboard :=
  mkBitboard (pawns b) (knights b) v (rooks b) (queens b) (kings b)
    (occupiedCo b) (occupied b) (occupiedL90 b) (occupiedL45 b)
    (occupiedR45 b) (kingSquares b) (pieces b) (epSquare b)
    (castlingRights b) (turn b) (fullMoveNumber b) (halfMoveClock b)
    (halfMoveClockStack b) (capturedPieceStack b) (castlingRightStack b)
    (epSquareStack b) (moveStack b) (incrementalZobristHash b)
    (transpositions b).

Definition set_rooks (v : Z) (b : Bitboard) : Bitboard :=
  mkBitboard (pawns b) (knights b) (bishops b) v (queens b) (kings b)
    (occupiedCo b) (occupied b) (occupiedL90 b) (occupiedL45 b)
    (occupiedR45 b) (kingSquares b) (pieces b) (epSquare b)
    (castlingRights b) (turn b) (fullMoveNumber b) (halfMoveClock b)
    (halfMoveClockStack b) (capturedPieceStack b) (castlingRightStack b)
    (epSquareStack b) (moveStack b) (incrementalZobristHash b)
    (transpositions b).

Definition set_queens (v : Z) (b : Bitboard) : Bitboard :=
  mkBitboard (pawns b) (knights b) (bishops b) (rooks b) v (kings b)
    (occupiedCo b) (occupied b) (occupiedL90 b) (occupiedL45 b)
    (occupiedR45 b) (kingSquares b) (pieces b) (epSquare b)
    (castlingRights b) (turn b) (fullMoveNumber b) (halfMoveClock b)
    (halfMoveClockStack b) (capturedPieceStack b) (castlingRightStack b)
    (epSquareStack b) (moveStack b) (incrementalZobristHash b)
    (transpositions b).

Definition set_kings (v : Z) (b : Bitboard) : Bitboard :=
  mkBitboard (pawns b) (knights b) (bishops b) (rooks b) (queens b) v
    (occupiedCo b) (occupied b) (occupiedL90 b) (occupiedL45 b)
    (occupiedR45 b) (kingSquares b) (pieces b) (epSquare b)
    (castlingRights b) (turn b) (fullMoveNumber b) (halfMoveClock b)
    (halfMoveClockStack b) (capturedPieceStack b) (castlingRightStack b)
    (epSquareStack b) (moveStack b) (incrementalZobristHash b)
    (transpositions b).

Definition set_occupiedCo (v : Z * Z) (b : Bitboard) : Bitboard :=
  mkBitboard (pawns b) (knights b) (bishops b) (rooks b) (queens b)
    (kings b) v (occupied b) (occupiedL90 b) (occupiedL45 b) (occupiedR45 b)
    (kingSquares b) (pieces b) (epSquare b) (castlingRights b) (turn b)
    (fullMoveNumber b) (halfMoveClock b) (halfMoveClockStack b)
    (capturedPieceStack b) (castlingRightStack b) (epSquareStack b)
    (moveStack b) (incrementalZobristHash b) (transpositions b).

Definition set_occupied (v : Z) (b : Bitboard) : Bitboard :=
  mkBitboard (pawns b) (knights b) (bishops b) (rooks b) (queens b)
    (kings b) (occupiedCo b) v (occupiedL90 b) (occupiedL45 b)
    (occupiedR45 b) (kingSquares b) (pieces b) (epSquare b)
    (castlingRights b) (turn b) (fullMoveNumber b) (halfMoveClock b)
    (halfMoveClockStack b) (capturedPieceStack b) (castlingRightStack b)
    (epSquareStack b) (moveStack b) (incrementalZobristHash b)
    (transpositions b).

Definition set_occupiedL90 (v : Z) (b : Bitboard) : Bitboard :=
  mkBitboard (pawns b) (knights b) (bishops b) (rooks b) (queens b)
    (kings b) (occupiedCo b) (occupied b) v (occupiedL45 b) (occupiedR45 b)
    (kingSquares b) (pieces b) (epSquare b) (castlingRights b) (turn b)
    (fullMoveNumber b) (halfMoveClock b) (halfMoveClockStack b)
    (capturedPieceStack b) (castlingRightStack b) (epSquareStack b)
    (moveStack b) (incrementalZobristHash b) (transpositions b).

Definition set_occupiedL45 (v : Z) (b : Bitboard) : Bitboard :=
  mkBitboard (pawns b) (knights b) (bishops b) (rooks b) (queens b)
    (kings b) (occupiedCo b) (occupied b) (occupiedL90 b) v (occupiedR45 b)
    (kingSquares b) (pieces b) (epSquare b) (castlingRights b) (turn b)
    (fullMoveNumber b) (halfMoveClock b) (halfMoveClockStack b)
    (capturedPieceStack b) (castlingRightStack b) (epSquareStack b)
    (moveStack b) (incrementalZobristHash b) (transpositions b).

Definition set_occupiedR45 (v : Z) (b : Bitboard) : Bitboard :=
  mkBitboard (pawns b) (knights b) (bishops b) (rooks b) (queens b)
    (kings b) (occupiedCo b) (occupied b) (occupiedL90 b) (occupiedL45 b) v
    (kingSquares b) (pieces b) (epSquare b) (castlingRights b) (turn b)
    (fullMoveNumber b) (halfMoveClock b) (halfMoveClockStack b)
    (capturedPieceStack b) (castlingRightStack b) (epSquareStack b)
    (moveStack b) (incrementalZobristHash b) (transpositions b).

Definition set_kingSquares (v : Z * Z) (b : Bitboard) : Bitboard :=
  mkBitboard (pawns b) (knights b) (bishops b) (rooks b) (queens b)
    (kings b) (occupiedCo b) (occupied b) (occupiedL90 b) (occupiedL45 b)
    (occupiedR45 b) v (pieces b) (epSquare b) (castlingRights b) (turn b)
    (fullMoveNumber b) (halfMoveClock b) (halfMoveClockStack b)
    (capturedPieceStack b) (castlingRightStack b) (epSquareStack b)
    (moveStack b) (incrementalZobristHash b) (transpositions b).

Definition set_pieces (v : list PieceTypes) (b : Bitboard) : Bitboard :=
  mkBitboard (pawns b) (knights b) (bishops b) (rooks b) (queens b)
    (kings b) (occupiedCo b) (occupied b) (occupiedL90 b) (occupiedL45 b)
    (occupiedR45 b) (kingSquares b) v (epSquare b) (castlingRights b)
    (turn b) (fullMoveNumber b) (halfMoveClock b) (halfMoveClockStack b)
    (capturedPieceStack b) (castlingRightStack b) (epSquareStack b)
    (moveStack b) (incrementalZobristHash b) (transpositions b).

Definition set_epSquare (v : Z) (b : Bitboard) : Bitboard :=
  mkBitboard (pawns b) (knights b) (bishops b) (rooks b) (queens b)
    (kings b) (occupiedCo b) (occupied b) (occupiedL90 b) (occupiedL45 b)
    (occupiedR45 b) (kingSquares b) (pieces b) v (castlingRights b) (turn b)
    (fullMoveNumber b) (halfMoveClock b) (halfMoveClockStack b)
    (capturedPieceStack b) (castlingRightStack b) (epSquareStack b)
    (moveStack b) (incrementalZobristHash b) (transpositions b).

Definition set_castlingRights (v : Z) (b : Bitboard) : Bitboard :=
  mkBitboard (pawns b) (knights b) (bishops b) (rooks b) (queens b)
    (kings b) (occupiedCo b) (occupied b) (occupiedL90 b) (occupiedL45 b)
    (occupiedR45 b) (kingSquares b) (pieces b) (epSquare b) v (turn b)
    (fullMoveNumber b) (halfMoveClock b) (halfMoveClockStack b)
    (capturedPieceStack b) (castlingRightStack b) (epSquareStack b)
    (moveStack b) (incrementalZobristHash b) (transpositions b).

Definition set_turn (v : Colors) (b : Bitboard) : Bitboard :=
  mkBitboard (pawns b) (knights b) (bishops b) (rooks b) (queens b)
    (kings b) (occupiedCo b) (occupied b) (occupiedL90 b) (occupiedL45 b)
    (occupiedR45 b) (kingSquares b) (pieces b) (epSquare b)
    (castlingRights b) v (fullMoveNumber b) (halfMoveClock b)
    (halfMoveClockStack b) (capturedPieceStack b) (castlingRightStack b)
    (epSquareStack b) (moveStack b) (incrementalZobristHash b)
    (transpositions b).

Definition set_fullMoveNumber (v : Z) (b : Bitboard) : Bitboard :=
  mkBitboard (pawns b) (knights b) (bishops b) (rooks b) (queens b)
    (kings b) (occupiedCo b) (occupied b) (occupiedL90 b) (occupiedL45 b)
    (occupiedR45 b) (kingSquares b) (pieces b) (epSquare b)
    (castlingRights b) (turn b) v (halfMoveClock b) (halfMoveClockStack b)
    (capturedPieceStack b) (castlingRightStack b) (epSquareStack b)
    (moveStack b) (incrementalZobristHash b) (transpositions b).

Definition set_halfMoveClock (v : Z) (b : Bitboard) : Bitboard :=
  mkBitboard (pawns b) (knights b) (bishops b) (rooks b) (queens b)
    (kings b) (occupiedCo b) (occupied b) (occupiedL90 b) (occupiedL45 b)
    (occupiedR45 b) (kingSquares b) (pieces b) (epSquare b)
    (castlingRights b) (turn b) (fullMoveNumber b) v (halfMoveClockStack b)
    (capturedPieceStack b) (castlingRightStack b) (epSquareStack b)
    (moveStack b) (incrementalZobristHash b) (transpositions b).

Definition set_halfMoveClockStack (v : list Z) (b : Bitboard) : Bitboard :=
  mkBitboard (pawns b) (knights b) (bishops b) (rooks b) (queens b)
    (kings b) (occupiedCo b) (occupied b) (occupiedL90 b) (occupiedL45 b)
    (occupiedR45 b) (kingSquares b) (pieces b) (epSquare b)
    (castlingRights b) (turn b) (fullMoveNumber b) (halfMoveClock b) v
    (capturedPieceStack b) (castlingRightStack b) (epSquareStack b)
    (moveStack b) (incrementalZobristHash b) (transpositions b).

Definition set_capturedPieceStack (v : list PieceTypes) (b : Bitboard) : Bitboard :=
  mkBitboard (pawns b) (knights b) (bishops b) (rooks b) (queens b)
    (kings b) (occupiedCo b) (occupied b) (occupiedL90 b) (occupiedL45 b)
    (occupiedR45 b) (kingSquares b) (pieces b) (epSquare b)
    (castlingRights b) (turn b) (fullMoveNumber b) (halfMoveClock b)
    (halfMoveClockStack b) v (castlingRightStack b) (epSquareStack b)
    (moveStack b) (incrementalZobristHash b) (transpositions b).

Definition set_castlingRightStack (v : list Z) (b : Bitboard) : Bitboard :=
  mkBitboard (pawns b) (knights b) (bishops b) (rooks b) (queens b)
    (kings b) (occupiedCo b) (occupied b) (occupiedL90 b) (occupiedL45 b)
    (occupiedR45 b) (kingSquares b) (pieces b) (epSquare b)
    (castlingRights b) (turn b) (fullMoveNumber b) (halfMoveClock b)
    (halfMoveClockStack b) (capturedPieceStack b) v (epSquareStack b)
    (moveStack b) (incrementalZobristHash b) (transpositions b).

Definition set_epSquareStack (v : list Z) (b : Bitboard) : Bitboard :=
  mkBitboard (pawns b) (knights b) (bishops b) (rooks b) (queens b)
    (kings b) (occupiedCo b) (occupied b) (occupiedL90 b) (occupiedL45 b)
    (occupiedR45 b) (kingSquares b) (pieces b) (epSquare b)
    (castlingRights b) (turn b) (fullMoveNumber b) (halfMoveClock b)
    (halfMoveClockStack b) (capturedPieceStack b) (castlingRightStack b) v
    (moveStack b) (incrementalZobristHash b) (transpositions b).

Definition set_moveStack (v : list (option Move)) (b : Bitboard) : Bitboard :=
  mkBitboard (pawns b) (knights b) (bishops b) (rooks b) (queens b)
    (kings b) (occupiedCo b) (occupied b) (occupiedL90 b) (occupiedL45 b)
    (occupiedR45 b) (kingSquares b) (pieces b) (epSquare b)
    (castlingRights b) (turn b) (fullMoveNumber b) (halfMoveClock b)
    (halfMoveClockStack b) (capturedPieceStack b) (castlingRightStack b)
    (epSquareStack b) v (incrementalZobristHash b) (transpositions b).

Definition set_incrementalZobristHash (v : Z) (b : Bitboard) : Bitboard :=
  mkBitboard (pawns b) (knights b) (bishops b) (rooks b) (queens b)
    (kings b) (occupiedCo b) (occupied b) (occupiedL90 b) (occupiedL45 b)
    (occupiedR45 b) (kingSquares b) (pieces b) (epSquare b)
    (castlingRights b) (turn b) (fullMoveNumber b) (halfMoveClock b)
    (halfMoveClockStack b) (capturedPieceStack b) (castlingRightStack b)
    (epSquareStack b) (moveStack b) v (transpositions b).

Definition set_transpositions (v : gmap Z Z) (b : Bitboard) : Bitboard :=
  mkBitboard (pawns b) (knights b) (bishops b) (rooks b) (queens b)
    (kings b) (occupiedCo b) (occupied b) (occupiedL90 b) (occupiedL45 b)
    (occupiedR45 b) (kingSquares b) (pieces b) (epSquare b)
    (castlingRights b) (turn b) (fullMoveNumber b) (halfMoveClock b)
    (halfMoveClockStack b) (capturedPieceStack b) (castlingRightStack b)
    (epSquareStack b) (moveStack b) (incrementalZobristHash b) v.

(** [b.pieces[square]]; a square is an index in 0..63 at every use. *)
Definition PieceTypeAt (b : Bitboard) (square : Z) : PieceTypes :=
  nth (Z.to_nat square) (pieces b) NoPiece.

(** The colour test shared by [PieceAt], [RemovePieceAt] and
    [CheckSquareColor]: black if the black occupancy has the bit. *)
Definition color_of_mask (b : Bitboard) (mask : Z) : Colors :=
  if 0 <? Z.land (by_color (occupiedCo b) Black) mask then Black else White.

Definition PieceAt (b : Bitboard) (square : Z) : option Piece :=
  let mask := BBSquares square in
  let color := color_of_mask b mask in
  let pieceType := PieceTypeAt b square in
  if 0 <? piece_index pieceType then Some (NewPiece pieceType color)
  else None.

(** The term of the board hash for one piece on one square. *)
Definition zobrist_term (pieceType : PieceTypes) (c : Colors) (square : Z) : Z :=
  let pieceIndex :=
    match c with
    | Black => (piece_index pieceType - 1) * 2
    | White => (piece_index pieceType - 1) * 2 + 1
    end in
  PolyglotRandomArray (64 * pieceIndex + 8 * rankIndex square + fileIndex square).

Definition RemovePieceAt (square : Z) (b : Bitboard) : Bitboard :=
  let pieceType := PieceTypeAt b square in
  match pieceType with
  | NoPiece => b
  | _ =>
      let mask := BBSquares square in
      let b1 :=
        match pieceType with
        | Pawn => set_pawns (Z.lxor (pawns b) mask) b
        | Knight => set_knights (Z.lxor (knights b) mask) b
        | Bishop => set_bishops (Z.lxor (bishops b) mask) b
        | Rook => set_rooks (Z.lxor (rooks b) mask) b
        | Queen => set_queens (Z.lxor (queens b) mask) b
        | _ => set_kings (Z.lxor (kings b) mask) b
        end in
      let color := color_of_mask b1 mask in
      let b2 := set_pieces (<[Z.to_nat square := NoPiece]> (pieces b1)) b1 in
      let b3 := set_occupied (Z.lxor (occupied b2) mask) b2 in
      let b4 :=
        set_occupiedCo
          (set_color (occupiedCo b3) color
             (Z.lxor (by_color (occupiedCo b3) color) mask)) b3 in
      let b5 :=
        set_occupiedL90
          (Z.lxor (occupiedL90 b4) (BBSquares (SquaresL90 square))) b4 in
      let b6 :=
        set_occupiedR45
          (Z.lxor (occupiedR45 b5) (BBSquares (SquaresR45 square))) b5 in
      let b7 :=
        set_occupiedL45
          (Z.lxor (occupiedL45 b6) (BBSquares (SquaresL45 square))) b6 in
      set_incrementalZobristHash
        (Z.lxor (incrementalZobristHash b7) (zobrist_term pieceType color square))
        b7
  end.

Definition SetPieceAt (square : Z) (piece : Piece) (b : Bitboard) : Bitboard :=
  let b0 := RemovePieceAt square b in
  let b1 := set_pieces (<[Z.to_nat square := pieceType piece]> (pieces b0)) b0 in
  let mask := BBSquares square in
  let b2 :=
    match pieceType piece with
    | Pawn => set_pawns (Z.lor (pawns b1) mask) b1
    | Knight => set_knights (Z.lor (knights b1) mask) b1
    | Bishop => set_bishops (Z.lor (bishops b1) mask) b1
    | Rook => set_rooks (Z.lor (rooks b1) mask) b1
    | Queen => set_queens (Z.lor (queens b1) mask) b1
    | King =>
        set_kingSquares (set_color (kingSquares b1) (color piece) square)
          (set_kings (Z.lor (kings b1) mask) b1)
    | NoPiece => b1
    end in
  let b3 := set_occupied (Z.lxor (occupied b2) mask) b2 in
  let b4 :=
    set_occupiedCo
      (set_color (occupiedCo b3) (color piece)
         (Z.lxor (by_color (occupiedCo b3) (color piece)) mask)) b3 in
  let b5 :=
    set_occupiedL90 (Z.lxor (occupiedL90 b4) (BBSquares (SquaresL90 square))) b4 in
  let b6 :=
    set_occupiedR45 (Z.lxor (occupiedR45 b5) (BBSquares (SquaresR45 square))) b5 in
  let b7 :=
    set_occupiedL45 (Z.lxor (occupiedL45 b6) (BBSquares (SquaresL45 square))) b6 in
  set_incrementalZobristHash
    (Z.lxor (incrementalZobristHash b7)
       (zobrist_term (pieceType piece) (color piece) square))
    b7.

(** *** Attacks *)

Definition KnightAttacksFrom (b : Bitboard) (square : Z) : Z :=
  BBKnightAttacks square.

Definition KingAttacksFrom (b : Bitboard) (square : Z) : Z :=
  BBKingAttacks square.

Definition RookAttacksFrom (b : Bitboard) (square : Z) : Z :=
  Z.lor
    (BBRankAttacks square
       (Z.land (Z.shiftr (occupied b) (Z.land square (Z.lnot 7) + 1)) 63))
    (BBFileAttacks square
       (Z.land (Z.shiftr (occupiedL90 b) (Z.shiftl (Z.land square 7) 3 + 1)) 63)).

Definition BishopAttacksFrom (b : Bitboard) (square : Z) : Z :=
  Z.lor
    (BBR45Attacks square
       (Z.land (Z.shiftr (occupiedR45 b) (BBShiftR45 square)) 63))
    (BBL45Attacks square
       (Z.land (Z.shiftr (occupiedL45 b) (BBShiftL45 square)) 63)).

Definition QueenAttacksFrom (b : Bitboard) (square : Z) : Z :=
  Z.lor (RookAttacksFrom b square) (BishopAttacksFrom b square).

Definition IsAttackedBy (b : Bitboard) (c : Colors) (square : Z) : bool :=
  let own := by_color (occupiedCo b) c in
  if 0 <? Z.land (Z.land (BBPawnAttacks (other c) square)
                          (Z.lor (pawns b) (bishops b))) own
  then true
  else if 0 <? Z.land (Z.land (KnightAttacksFrom b square) (knights b)) own
  then true
  else if 0 <? Z.land (Z.land (BishopAttacksFrom b square)
                               (Z.lor (bishops b) (queens b))) own
  then true
  else if 0 <? Z.land (Z.land (RookAttacksFrom b square)
                               (Z.lor (rooks b) (queens b))) own
  then true
  else if 0 <? Z.land (Z.land (KingAttacksFrom b square)
                               (Z.lor (kings b) (queens b))) own
  then true
  else false.

Definition AttackerMask (b : Bitboard) (c : Colors) (square : Z) : Z :=
  let attackers := Z.land (BBPawnAttacks (other c) square) (pawns b) in
  let attackers :=
    Z.lor attackers (Z.land (KnightAttacksFrom b square) (knights b)) in
  let attackers :=
    Z.lor attackers
      (Z.land (BishopAttacksFrom b square) (Z.lor (bishops b) (queens b))) in
  let attackers :=
    Z.lor attackers
      (Z.land (RookAttacksFrom b square) (Z.lor (rooks b) (queens b))) in
  let attackers :=
    Z.lor attackers (Z.land (KingAttacksFrom b square) (kings b)) in
  Z.land attackers (by_color (occupiedCo b) c).


Definition WasIntoCheck (b : Bitboard) : bool :=
  IsAttackedBy b (turn b) (by_color (kingSquares b) (other (turn b))).

Definition PawnMovesFrom (b : Bitboard) (square : Z) : Z :=
  let free := not64 (occupied b) in
  let targets := Z.land (BBPawnF1 (turn b) square) free in
  let targets :=
    if 0 <? targets
    then Z.lor targets (Z.land (BBPawnF2 (turn b) square) free)
    else targets in
  if epSquare b =? 0 then
    Z.lor targets
      (Z.land (BBPawnAttacks (turn b) square)
         (by_color (occupiedCo b) (other (turn b))))
  else
    Z.lor targets
      (Z.land (BBPawnAttacks (turn b) square)
         (Z.lor (by_color (occupiedCo b) (other (turn b)))
            (BBSquares (epSquare b)))).

(** *** Hashing *)

(** [ZobristHash(nil)], the only form the package calls: the incremental
    board term combined with the castling, en-passant and turn terms of
    [PolyglotRandomArray]. *)
Definition ZobristHash (b : Bitboard) : Z :=
  let array := PolyglotRandomArray in
  let h := incrementalZobristHash b in
  let h := if 0 <? Z.land (castlingRights b) CastlingWhiteKingSide
           then Z.lxor h (array 768) else h in
  let h := if 0 <? Z.land (castlingRights b) CastlingWhiteQueenSide
           then Z.lxor h (array (768 + 1)) else h in
  let h := if 0 <? Z.land (castlingRights b) CastlingBlackKingSide
           then Z.lxor h (array (768 + 2)) else h in
  let h := if 0 <? Z.land (castlingRights b) CastlingBlackQueenSide
           then Z.lxor h (array (768 + 3)) else h in
  let h :=
    if 0 <? epSquare b then
      let epMask :=
        match turn b with
        | White => shiftDown (BBSquares (epSquare b))
        | Black => shiftUp (BBSquares (epSquare b))
        end in
      let epMask := Z.lor (shiftLeft epMask) (shiftRight epMask) in
      if 0 <? Z.land (Z.land epMask (pawns b)) (by_color (occupiedCo b) (turn b))
      then Z.lxor h (array (772 + fileIndex (epSquare b)))
      else h
    else h in
  match turn b with
  | White => Z.lxor h (array 780)
  | Black => h
  end.

(** [BoardZobristHash(array)] for an explicit table: the terms of the black
    pieces, then of the white pieces, found by scanning the occupancy. *)
Definition BoardZobristHash (array : Z -> Z) (b : Bitboard) : option Z :=
  blacks ← scan_squares (by_color (occupiedCo b) Black);
  whites ← scan_squares (by_color (occupiedCo b) White);
  let h :=
    fold_left
      (fun h square =>
         let pieceIndex := (piece_index (PieceTypeAt b square) - 1) * 2 in
         Z.lxor h (array (64 * pieceIndex + 8 * rankIndex square + fileIndex square)))
      blacks 0 in
  Some
    (fold_left
       (fun h square =>
          let pieceIndex := (piece_index (PieceTypeAt b square) - 1) * 2 + 1 in
          Z.lxor h (array (64 * pieceIndex + 8 * rankIndex square + fileIndex square)))
       whites h).

(** *** Construction *)

Definition empty_stacks_and_hash (b : Bitboard) : option Bitboard :=
  let b := set_halfMoveClockStack [] b in
  let b := set_capturedPieceStack [] b in
  let b := set_castlingRightStack [] b in
  let b := set_epSquareStack [] b in
  let b := set_moveStack [] b in
  h ← BoardZobristHash PolyglotRandomArray b;
  let b := set_incrementalZobristHash h b in
  Some (set_transpositions {[ ZobristHash b := 1 ]} b).

Definition all_squares : list Z := seqZ 0 64.

(** [Reset]: every field is assigned, so the result does not depend on the
    receiver. *)
Definition Reset : option Bitboard :=
  let pawns := Z.lor BBRank2 BBRank7 in
  let knights := Z.lor (Z.lor BBB1 BBG1) (Z.lor BBB8 BBG8) in
  let bishops := Z.lor (Z.lor BBC1 BBF1) (Z.lor BBC8 BBF8) in
  let rooks := Z.lor (Z.lor BBA1 BBH1) (Z.lor BBA8 BBH8) in
  let queens := Z.lor BBD1 BBD8 in
  let kings := Z.lor BBE1 BBE8 in
  let occupiedCo := (Z.lor BBRank1 BBRank2, Z.lor BBRank7 BBRank8) in
  let occupied := Z.lor (Z.lor BBRank1 BBRank2) (Z.lor BBRank7 BBRank8) in
  let pieces :=
    map (fun i =>
           let mask := BBSquares i in
           if 0 <? Z.land mask pawns then Pawn
           else if 0 <? Z.land mask knights then Knight
           else if 0 <? Z.land mask bishops then Bishop
           else if 0 <? Z.land mask rooks then Rook
           else if 0 <? Z.land mask queens then Queen
           else if 0 <? Z.land mask kings then King
           else NoPiece) all_squares in
  let rotated (view : Z -> Z) :=
    fold_left
      (fun acc i =>
         if 0 <? Z.land (BBSquares i) occupied then Z.lor acc (view i) else acc)
      all_squares BBVoid in
  empty_stacks_and_hash
    (mkBitboard pawns knights bishops rooks queens kings
       occupiedCo occupied
       (rotated BBSquaresL90) (rotated BBSquaresL45) (rotated BBSquaresR45)
       (E1, E8) pieces
       0 Castling White 1 0
       [] [] [] [] [] 0 ∅).

(** [Clear]: every field is assigned here too. *)
Definition Clear : option Bitboard :=
  empty_stacks_and_hash
    (mkBitboard BBVoid BBVoid BBVoid BBVoid BBVoid BBVoid
       (BBVoid, BBVoid) BBVoid BBVoid BBVoid BBVoid
       (E1, E8) (map (fun _ => NoPiece) all_squares)
       0 CastlingNone White 1 0
       [] [] [] [] [] 0 ∅).

(** *** Pseudo-legal move generation *)

(** The moves appended for one pawn destination: one move, or the four
    promotions when the destination is on the rank [last]. *)
Definition pawn_moves_to (last fromSquare toSquare : Z) : list Move :=
  if negb (rankIndex toSquare =? last) then [NewMove fromSquare toSquare NoPiece]
  else [NewMove fromSquare toSquare Queen; NewMove fromSquare toSquare Knight;
        NewMove fromSquare toSquare Rook; NewMove fromSquare toSquare Bishop].

(** The loop over the destinations [moves] of pawns that all moved by
    [delta]: [fromSquare := toSquare - delta]. *)
Definition pawn_loop (last delta moves : Z) : option (list Move) :=
  tos ← scan_squares moves;
  Some (t ← tos; pawn_moves_to last (t - delta) t).

Definition double_push_loop (delta moves : Z) : option (list Move) :=
  tos ← scan_squares moves;
  Some (map (fun t => NewMove (t - delta) t NoPiece) tos).

Definition en_passant_loop (b : Bitboard) (attackers movers : Z) : option (list Move) :=
  if 0 <? epSquare b then
    froms ← scan_squares (Z.land attackers movers);
    Some (map (fun f => NewMove f (epSquare b) NoPiece) froms)
  else Some [].

(** The nested loops of the knights, bishops, rooks and queens: for each
    mover, one move per attacked square not held by the side to move. *)
Fixpoint piece_moves_from (b : Bitboard) (attacks : Bitboard -> Z -> Z)
    (froms : list Z) : option (list Move) :=
  match froms with
  | [] => Some []
  | f :: rest =>
      tos ← scan_squares
              (Z.land (attacks b f) (not64 (by_color (occupiedCo b) (turn b))));
      more ← piece_moves_from b attacks rest;
      Some (map (fun t => NewMove f t NoPiece) tos ++ more)
  end.

Definition piece_loop (b : Bitboard) (attacks : Bitboard -> Z -> Z)
    (kind : Z) : option (list Move) :=
  froms ← scan_squares (Z.land kind (by_color (occupiedCo b) (turn b)));
  piece_moves_from b attacks froms.

Definition when (flag : bool) (m : option (list Move)) : option (list Move) :=
  if flag then m else Some [].

(** The two castling tests of one colour, shared verbatim by
    [GeneratePseudoLegalMoves] and [PseudoLegalMoveCount]. *)
Definition castling_short_ok (b : Bitboard) : bool :=
  match turn b with
  | White =>
      (0 <? Z.land (castlingRights b) CastlingWhiteKingSide)
      && (Z.land (Z.lor BBF1 BBG1) (occupied b) =? 0)
      && (negb (IsAttackedBy b Black E1) && negb (IsAttackedBy b Black F1)
          && negb (IsAttackedBy b Black G1))
  | Black =>
      (0 <? Z.land (castlingRights b) CastlingBlackKingSide)
      && (Z.land (Z.lor BBF8 BBG8) (occupied b) =? 0)
      && (negb (IsAttackedBy b White E8) && negb (IsAttackedBy b White F8)
          && negb (IsAttackedBy b White G8))
  end.

Definition castling_long_ok (b : Bitboard) : bool :=
  match turn b with
  | White =>
      (0 <? Z.land (castlingRights b) CastlingWhiteQueenSide)
      && (Z.land (Z.lor (Z.lor BBB1 BBC1) BBD1) (occupied b) =? 0)
      && (negb (IsAttackedBy b Black C1) && negb (IsAttackedBy b Black D1)
          && negb (IsAttackedBy b Black E1))
  | Black =>
      (0 <? Z.land (castlingRights b) CastlingBlackQueenSide)
      && (Z.land (Z.lor (Z.lor BBB8 BBC8) BBD8) (occupied b) =? 0)
      && (negb (IsAttackedBy b White C8) && negb (IsAttackedBy b White D8)
          && negb (IsAttackedBy b White E8))
  end.

Definition castling_moves (b : Bitboard) : list Move :=
  match turn b with
  | White =>
      (if castling_short_ok b then [NewMove E1 G1 NoPiece] else [])
      ++ (if castling_long_ok b then [NewMove E1 C1 NoPiece] else [])
  | Black =>
      (if castling_short_ok b then [NewMove E8 G8 NoPiece] else [])
      ++ (if castling_long_ok b then [NewMove E8 C8 NoPiece] else [])
  end.

Definition pawn_moves (b : Bitboard) : option (list Move) :=
  match turn b with
  | White =>
      let movers := Z.land (pawns b) (by_color (occupiedCo b) White) in
      ep ← en_passant_loop b (BBPawnAttacks Black (epSquare b)) movers;
      right ← pawn_loop 7 9
                (Z.land (shiftUpRight movers) (by_color (occupiedCo b) Black));
      left ← pawn_loop 7 7
               (Z.land (shiftUpLeft movers) (by_color (occupiedCo b) Black));
      let moves := Z.land (shiftUp movers) (not64 (occupied b)) in
      let movers := moves in
      single ← pawn_loop 7 8 moves;
      double ← double_push_loop 16
                 (Z.land (Z.land (shiftUp movers) BBRank4) (not64 (occupied b)));
      Some (ep ++ right ++ left ++ single ++ double)
  | Black =>
      let movers := Z.land (pawns b) (by_color (occupiedCo b) Black) in
      ep ← en_passant_loop b (BBPawnAttacks White (epSquare b)) movers;
      left ← pawn_loop 0 (-9)
               (Z.land (shiftDownLeft movers) (by_color (occupiedCo b) White));
      right ← pawn_loop 0 (-7)
                (Z.land (shiftDownRight movers) (by_color (occupiedCo b) White));
      let moves := Z.land (shiftDown movers) (not64 (occupied b)) in
      let movers := moves in
      single ← pawn_loop 0 (-8) moves;
      double ← double_push_loop (-16)
                 (Z.land (Z.land (shiftDown movers) BBRank5) (not64 (occupied b)));
      Some (ep ++ left ++ right ++ single ++ double)
  end.

Definition king_moves (b : Bitboard) : option (list Move) :=
  let fromSquare := by_color (kingSquares b) (turn b) in
  tos ← scan_squares
          (Z.land (KingAttacksFrom b fromSquare)
             (not64 (by_color (occupiedCo b) (turn b))));
  Some (map (fun t => NewMove fromSquare t NoPiece) tos).

Definition GeneratePseudoLegalMoves (b : Bitboard)
    (castling pawns_ knights_ bishops_ rooks_ queens_ king : bool)
    : option (list Move) :=
  let c := if castling then castling_moves b else [] in
  p ← when pawns_ (pawn_moves b);
  n ← when knights_ (piece_loop b KnightAttacksFrom (knights b));
  bi ← when bishops_ (piece_loop b BishopAttacksFrom (bishops b));
  r ← when rooks_ (piece_loop b RookAttacksFrom (rooks b));
  q ← when queens_ (piece_loop b QueenAttacksFrom (queens b));
  k ← when king (king_moves b);
  Some (c ++ p ++ n ++ bi ++ r ++ q ++ k).

(** *** Counting the pseudo-legal moves *)

Definition b2z (x : bool) : Z := if x then 1 else 0.

Fixpoint piece_count_from (b : Bitboard) (attacks : Bitboard -> Z -> Z)
    (froms : list Z) (count : Z) : Z :=
  match froms with
  | [] => count
  | f :: rest =>
      piece_count_from b attacks rest
        (count + popCount (Z.land (attacks b f)
                             (not64 (by_color (occupiedCo b) (turn b)))))
  end.

Definition piece_count (b : Bitboard) (attacks : Bitboard -> Z -> Z)
    (kind count : Z) : option Z :=
  froms ← scan_squares (Z.land kind (by_color (occupiedCo b) (turn b)));
  Some (piece_count_from b attacks froms count).

Definition PseudoLegalMoveCount (b : Bitboard) : option Z :=
  let count := 0 in
  let count :=
    match turn b with
    | White =>
        let count := count + b2z (castling_short_ok b) in
        let count := count + b2z (castling_long_ok b) in
        let movers := Z.land (pawns b) (by_color (occupiedCo b) White) in
        let count :=
          if 0 <? epSquare b
          then count + popCount (Z.land (BBPawnAttacks Black (epSquare b)) movers)
          else count in
        let moves := Z.land (shiftUpRight movers) (by_color (occupiedCo b) Black) in
        let count := count + popCount (Z.land moves BBRank8) * 3 in
        let count := count + popCount moves in
        let moves := Z.land (shiftUpLeft movers) (by_color (occupiedCo b) Black) in
        let count := count + popCount (Z.land moves BBRank8) * 3 in
        let count := count + popCount moves in
        let moves := Z.land (shiftUp movers) (not64 (occupied b)) in
        let movers := moves in
        let count := count + popCount (Z.land moves BBRank8) * 3 in
        let count := count + popCount moves in
        let moves := Z.land (Z.land (shiftUp movers) BBRank4) (not64 (occupied b)) in
        count + popCount moves
    | Black =>
        let count := count + b2z (castling_short_ok b) in
        let count := count + b2z (castling_long_ok b) in
        let movers := Z.land (pawns b) (by_color (occupiedCo b) Black) in
        let count :=
          if 0 <? epSquare b
          then count + popCount (Z.land (BBPawnAttacks White (epSquare b)) movers)
          else count in
        let moves := Z.land (shiftDownLeft movers) (by_color (occupiedCo b) White) in
        let count := count + popCount (Z.land moves BBRank1) * 3 in
        let count := count + popCount moves in
        let moves := Z.land (shiftDownRight movers) (by_color (occupiedCo b) White) in
        let count := count + popCount (Z.land moves BBRank1) * 3 in
        let count := count + popCount moves in
        let moves := Z.land (shiftDown movers) (not64 (occupied b)) in
        let movers := moves in
        let count := count + popCount (Z.land moves BBRank1) * 3 in
        let moves := Z.land (Z.land (shiftDown movers) BBRank5) (not64 (occupied b)) in
        count + popCount moves
    end in
  count ← piece_count b KnightAttacksFrom (knights b) count;
  count ← piece_count b BishopAttacksFrom (bishops b) count;
  count ← piece_count b RookAttacksFrom (rooks b) count;
  count ← piece_count b QueenAttacksFrom (queens b) count;
  let fromSquare := by_color (kingSquares b) (turn b) in
  Some (count + popCount (Z.land (KingAttacksFrom b fromSquare)
                            (not64 (by_color (occupiedCo b) (turn b))))).

(** *** Making and unmaking a move *)

(** [b.transpositions[h]++] and [b.transpositions[h]--]: a key that is
    absent reads as 0 and is created by the assignment. *)
Definition count_of (t : gmap Z Z) (h : Z) : Z := default 0 (t !! h).

Definition transpositions_add (h delta : Z) (b : Bitboard) : Bitboard :=
  set_transpositions
    (<[h := count_of (transpositions b) h + delta]> (transpositions b)) b.

Definition castling_rook_out (m : Move) (b : Bitboard) : Bitboard :=
  if (fromSquare m =? E1) && (toSquare m =? G1) then
    RemovePieceAt H1 (SetPieceAt F1 (NewPiece Rook White) b)
  else if (fromSquare m =? E1) && (toSquare m =? C1) then
    RemovePieceAt A1 (SetPieceAt D1 (NewPiece Rook White) b)
  else if (fromSquare m =? E8) && (toSquare m =? G8) then
    RemovePieceAt H8 (SetPieceAt F8 (NewPiece Rook Black) b)
  else if (fromSquare m =? E8) && (toSquare m =? C8) then
    RemovePieceAt A8 (SetPieceAt D8 (NewPiece Rook Black) b)
  else b.

Definition castling_rook_back (m : Move) (b : Bitboard) : Bitboard :=
  if (fromSquare m =? E1) && (toSquare m =? G1) then
    SetPieceAt H1 (NewPiece Rook White) (RemovePieceAt F1 b)
  else if (fromSquare m =? E1) && (toSquare m =? C1) then
    SetPieceAt A1 (NewPiece Rook White) (RemovePieceAt D1 b)
  else if (fromSquare m =? E8) && (toSquare m =? G8) then
    SetPieceAt H8 (NewPiece Rook Black) (RemovePieceAt F8 b)
  else if (fromSquare m =? E8) && (toSquare m =? C8) then
    SetPieceAt A8 (NewPiece Rook Black) (RemovePieceAt D8 b)
  else b.

(** The chain of [if ... else if ...] that updates the castling rights in
    [Push]: the first test that holds is the only one that acts. *)
Definition revoke_castling (m : Move) (rights : Z) : Z :=
  if fromSquare m =? E1 then Z.land rights (Z.lnot CastlingWhite)
  else if fromSquare m =? E8 then Z.land rights (Z.lnot CastlingBlack)
  else if (fromSquare m =? A1) || (toSquare m =? A1)
  then Z.land rights (Z.lnot CastlingWhiteQueenSide)
  else if (fromSquare m =? A8) || (toSquare m =? A8)
  then Z.land rights (Z.lnot CastlingBlackQueenSide)
  else if (fromSquare m =? H1) || (toSquare m =? H1)
  then Z.land rights (Z.lnot CastlingWhiteKingSide)
  else if (fromSquare m =? H8) || (toSquare m =? H8)
  then Z.land rights (Z.lnot CastlingBlackKingSide)
  else rights.

Definition Push (move : option Move) (b : Bitboard) : Bitboard :=
  let b :=
    match turn b with
    | Black => set_fullMoveNumber (fullMoveNumber b + 1) b
    | White => b
    end in
  let capturedPiece :=
    match move with
    | Some m => PieceTypeAt b (toSquare m)
    | None => NoPiece
    end in
  let b := set_halfMoveClockStack (halfMoveClock b :: halfMoveClockStack b) b in
  let b := set_castlingRightStack (castlingRights b :: castlingRightStack b) b in
  let b := set_capturedPieceStack (capturedPiece :: capturedPieceStack b) b in
  let b := set_epSquareStack (epSquare b :: epSquareStack b) b in
  let b := set_moveStack (move :: moveStack b) b in
  match move with
  | None =>
      let b := set_turn (other (turn b)) b in
      let b := set_epSquare 0 b in
      set_halfMoveClock (halfMoveClock b + 1) b
  | Some m =>
      let pieceType := PieceTypeAt b (fromSquare m) in
      let b :=
        if PieceTypes_eqb pieceType Pawn || negb (PieceTypes_eqb capturedPiece NoPiece)
        then set_halfMoveClock 0 b
        else set_halfMoveClock (halfMoveClock b + 1) b in
      let pieceType :=
        if negb (PieceTypes_eqb (promotion m) NoPiece) then promotion m
        else pieceType in
      let b := RemovePieceAt (fromSquare m) b in
      let b := set_epSquare 0 b in
      let b :=
        if PieceTypes_eqb pieceType Pawn then
          let diff := toSquare m - fromSquare m in
          let diff := if diff <? 0 then - diff else diff in
          let b :=
            if ((diff =? 7) || (diff =? 9))
               && (Z.land (occupied b) (BBSquares (toSquare m)) =? 0)
            then
              match turn b with
              | White => RemovePieceAt (toSquare m - 8) b
              | Black => RemovePieceAt (toSquare m + 8) b
              end
            else b in
          if diff =? 16 then
            match turn b with
            | White => set_epSquare (toSquare m - 8) b
            | Black => set_epSquare (toSquare m + 8) b
            end
          else b
        else b in
      let b := set_castlingRights (revoke_castling m (castlingRights b)) b in
      let b :=
        if PieceTypes_eqb pieceType King then castling_rook_out m b else b in
      let b := SetPieceAt (toSquare m) (NewPiece pieceType (turn b)) b in
      let b := set_turn (other (turn b)) b in
      transpositions_add (ZobristHash b) 1 b
  end.

(** [Pop]; popping an empty stack is the run-time failure [None]. *)
Definition Pop (b : Bitboard) : option (Bitboard * option Move) :=
  match moveStack b, halfMoveClockStack b, castlingRightStack b,
        epSquareStack b, capturedPieceStack b with
  | move :: moves, hmc :: hmcs, cr :: crs, ep :: eps, capturedPiece :: cps =>
      let b := set_moveStack moves b in
      let b := transpositions_add (ZobristHash b) (-1) b in
      let b :=
        match turn b with
        | White => set_fullMoveNumber (fullMoveNumber b - 1) b
        | Black => b
        end in
      let b := set_halfMoveClockStack hmcs (set_halfMoveClock hmc b) in
      let b := set_castlingRightStack crs (set_castlingRights cr b) in
      let b := set_epSquareStack eps (set_epSquare ep b) in
      let b := set_capturedPieceStack cps b in
      let capturedPieceColor := turn b in
      match move with
      | None => Some (set_turn (other (turn b)) b, move)
      | Some m =>
          let piece := PieceTypeAt b (toSquare m) in
          let piece :=
            if negb (PieceTypes_eqb (promotion m) NoPiece) then Pawn else piece in
          let b := SetPieceAt (fromSquare m) (NewPiece piece (other (turn b))) b in
          let b :=
            if 0 <? piece_index capturedPiece then
              SetPieceAt (toSquare m) (NewPiece capturedPiece capturedPieceColor) b
            else
              let b := RemovePieceAt (toSquare m) b in
              let diff := fromSquare m - toSquare m in
              let diff := if diff <? 0 then - diff else diff in
              if PieceTypes_eqb piece Pawn && ((diff =? 7) || (diff =? 9)) then
                match turn b with
                | White => SetPieceAt (toSquare m + 8) (NewPiece Pawn White) b
                | Black => SetPieceAt (toSquare m - 8) (NewPiece Pawn Black) b
                end
              else b in
          let b :=
            if PieceTypes_eqb piece King then castling_rook_back m b else b in
          Some (set_turn (other (turn b)) b, move)
      end
  | _, _, _, _, _ => None
  end.

(** [IsIntoCheck] pushes the move, looks, and pops; the position it leaves
    behind is returned with the answer. *)
Definition IsIntoCheck (move : option Move) (b : Bitboard)
    : option (bool * Bitboard) :=
  let b := Push move b in
  let isCheck := WasIntoCheck b in
  '(b, _) ← Pop b;
  Some (isCheck, b).

Fixpoint filter_legal (pseudo : list Move) (b : Bitboard)
    : option (list Move * Bitboard) :=
  match pseudo with
  | [] => Some ([], b)
  | move :: rest =>
      '(isCheck, b) ← IsIntoCheck (Some move) b;
      '(result, b) ← filter_legal rest b;
      Some ((if isCheck : bool then result else move :: result), b)
  end.

Definition GenerateLegalMoves (b : Bitboard)
    (castling pawns_ knights_ bishops_ rooks_ queens_ kings_ : bool)
    : option (list Move * Bitboard) :=
  pseudo ← GeneratePseudoLegalMoves b castling pawns_ knights_ bishops_
             rooks_ queens_ kings_;
  filter_legal pseudo b.

Definition IsPseudoLegal (move : option Move) (b : Bitboard) : bool :=
  match move with
  | None => false
  | Some m =>
      let piece := PieceTypeAt b (fromSquare m) in
      if PieceTypes_eqb piece NoPiece then false else
      let fromMask := BBSquares (fromSquare m) in
      let toMask := BBSquares (toSquare m) in
      let own := by_color (occupiedCo b) (turn b) in
      if Z.land own fromMask =? 0 then false else
      if 0 <? Z.land own toMask then false else
      if (0 <? piece_index (promotion m))
         && (negb (PieceTypes_eqb piece Pawn)
             || match turn b with
                | White => negb (rankIndex (toSquare m) =? 7)
                | Black => negb (rankIndex (toSquare m) =? 0)
                end)
      then false else
      match piece with
      | King =>
          if match turn b with
             | White =>
                 (fromSquare m =? E1)
                 && (((toSquare m =? G1)
                      && (0 <? Z.land (castlingRights b) CastlingWhiteKingSide)
                      && (Z.land (Z.lor BBF1 BBG1) (occupied b) =? 0))
                     || ((toSquare m =? C1)
                         && (0 <? Z.land (castlingRights b) CastlingWhiteQueenSide)
                         && (Z.land (Z.lor (Z.lor BBB1 BBC1) BBD1) (occupied b) =? 0)))
             | Black =>
                 (fromSquare m =? E8)
                 && (((toSquare m =? G8)
                      && (0 <? Z.land (castlingRights b) CastlingBlackKingSide)
                      && (Z.land (Z.lor BBF8 BBG8) (occupied b) =? 0))
                     || ((toSquare m =? C8)
                         && (0 <? Z.land (castlingRights b) CastlingBlackQueenSide)
                         && (Z.land (Z.lor (Z.lor BBB8 BBC8) BBD8) (occupied b) =? 0)))
             end
          then true
          else 0 <? Z.land (KingAttacksFrom b (fromSquare m)) toMask
      | Pawn =>
          if PieceTypes_eqb (promotion m) NoPiece
             && match turn b with
                | White => rankIndex (toSquare m) =? 7
                | Black => rankIndex (toSquare m) =? 0
                end
          then false
          else 0 <? Z.land (PawnMovesFrom b (fromSquare m)) toMask
      | Queen => 0 <? Z.land (QueenAttacksFrom b (fromSquare m)) toMask
      | Rook => 0 <? Z.land (RookAttacksFrom b (fromSquare m)) toMask
      | Bishop => 0 <? Z.land (BishopAttacksFrom b (fromSquare m)) toMask
      | Knight => 0 <? Z.land (KnightAttacksFrom b (fromSquare m)) toMask
      | NoPiece => false
      end
  end.

Definition IsLegal (move : option Move) (b : Bitboard)
    : option (bool * Bitboard) :=
  if IsPseudoLegal move b then
    '(isCheck, b) ← IsIntoCheck move b;
    Some (negb isCheck, b)
  else Some (false, b).

(** *** Repetition *)

Fixpoint claim_by_next_move (pseudo : list Move) (b : Bitboard)
    : option (bool * Bitboard) :=
  match pseudo with
  | [] => Some (false, b)
  | move :: rest =>
      let b := Push (Some move) b in
      if negb (WasIntoCheck b)
         && (3 <=? count_of (transpositions b) (ZobristHash b))
      then '(b, _) ← Pop b; Some (true, b)
      else '(b, _) ← Pop b; claim_by_next_move rest b
  end.

Definition CanClaimThreefoldRepitition (b : Bitboard)
    : option (bool * Bitboard) :=
  if 3 <=? count_of (transpositions b) (ZobristHash b) then Some (true, b)
  else
    pseudo ← GeneratePseudoLegalMoves b true true true true true true true;
    claim_by_next_move pseudo b.

(** ** piece.go *)

Definition lower_ascii (c : ascii) : ascii :=
  let n := nat_of_ascii c in
  if (65 <=? n)%nat && (n <=? 90)%nat then ascii_of_nat (n + 32) else c.

Definition upper_ascii (c : ascii) : ascii :=
  let n := nat_of_ascii c in
  if (97 <=? n)%nat && (n <=? 122)%nat then ascii_of_nat (n - 32) else c.

Fixpoint map_string (f : ascii -> ascii) (s : string) : string :=
  match s with
  | EmptyString => EmptyString
  | String c s' => String (f c) (map_string f s')
  end.

Definition ToLower : string -> string := map_string lower_ascii.
Definition ToUpper : string -> string := map_string upper_ascii.

(** [for i, x := range table { if x == s { ...; break } }]: the first index
    whose entry equals [s]. *)
Fixpoint index_of (s : string) (table : list string) (i : nat) : option nat :=
  match table with
  | [] => None
  | x :: rest => if String.eqb x s then Some i else index_of s rest (S i)
  end.

Definition Piece_String (p : Piece) : string :=
  match color p with
  | White => ToUpper (piece_symbol (pieceType p))
  | Black => piece_symbol (pieceType p)
  end.

Definition PieceFromSymbol (symbol : string) : option Piece :=
  match
    (if String.eqb (ToLower symbol) symbol
     then index_of symbol PieceSymbols 0 else None)
  with
  | Some i => Some (NewPiece (piece_of_index i) Black)
  | None =>
      match index_of (ToLower symbol) PieceSymbols 0 with
      | Some i => Some (NewPiece (piece_of_index i) White)
      | None => None
      end
  end.

(** ** move.go *)

(** [for i := range SquareNames { if SquareNames[i] == s { square = i } }]
    with [square] starting at 0: the last index whose name is [s], and 0
    when there is none. *)
Definition square_named (s : string) : Z :=
  fold_left
    (fun square i => if String.eqb (square_name i) s then i else square)
    all_squares 0.

(** The promotion loop of [MoveFromUci]: the first kind whose symbol is the
    one-byte string [string(uci[4])], and the zero value when there is
    none. *)
Definition promotion_named (c : ascii) : PieceTypes :=
  match index_of (String c EmptyString) PieceSymbols 0 with
  | Some i => piece_of_index i
  | None => NoPiece
  end.

(** [MoveFromUci]; the result [nil] is [None]. *)
Definition MoveFromUci (uci : string) : option Move :=
  if String.eqb uci "0000" then None
  else if len uci =? 4 then
    Some (NewMove (square_named (substring 0 2 uci))
                  (square_named (substring 2 2 uci)) NoPiece)
  else if len uci =? 5 then
    Some (NewMove (square_named (substring 0 2 uci))
                  (square_named (substring 2 2 uci))
                  (match get 4 uci with
                   | Some c => promotion_named c
                   | None => NoPiece
                   end))
  else None.

Definition Uci (move : option Move) : string :=
  match move with
  | Some m =>
      square_name (fromSquare m) +:+ square_name (toSquare m)
      +:+ piece_symbol (promotion m)
  | None => "0000"%string
  end.

(** ** bitboard.go : FEN *)

(** [strconv.Itoa]. *)
Definition digit_char (d : Z) : ascii := ascii_of_nat (48 + Z.to_nat d).

Fixpoint utoa (fuel : nat) (n : Z) (acc : string) : string :=
  match fuel with
  | O => acc
  | S fuel' =>
      let acc' := String (digit_char (n mod 10)) acc in
      if n <? 10 then acc' else utoa fuel' (n / 10) acc'
  end.

Definition Itoa (n : Z) : string :=
  if n <? 0 then String "-" (utoa 20 (- n) EmptyString)
  else utoa 20 n EmptyString.

(** The position part of [Epd]: the loop over [Squares180] carries the
    text so far and the run of empty squares. *)
Definition epd_square (b : Bitboard) (st : string * Z) (square : Z) : string * Z :=
  let '(epd, empty) := st in
  let '(epd, empty) :=
    match PieceAt b square with
    | None => (epd, empty + 1)
    | Some piece =>
        if 0 <? empty then (epd +:+ Itoa empty +:+ Piece_String piece, 0)
        else (epd +:+ Piece_String piece, empty)
    end in
  if 0 <? Z.land (BBSquares square) BBFileH then
    let '(epd, empty) :=
      if 0 <? empty then (epd +:+ Itoa empty, 0) else (epd, empty) in
    if negb (square =? H1) then (epd +:+ "/"%string, empty) else (epd, empty)
  else (epd, empty).

(** [Epd(nil)]: board, turn, castling rights and en-passant square. *)
Definition Epd (b : Bitboard) : string :=
  let board := fst (fold_left (epd_square b) Squares180 (EmptyString, 0)) in
  let side : string := match turn b with White => "w" | Black => "b" end in
  let rights : string :=
    if castlingRights b =? 0 then "-"
    else
      (if 0 <? Z.land (castlingRights b) CastlingWhiteKingSide then "K" else EmptyString)
      +:+ (if 0 <? Z.land (castlingRights b) CastlingWhiteQueenSide then "Q" else EmptyString)
      +:+ (if 0 <? Z.land (castlingRights b) CastlingBlackKingSide then "k" else EmptyString)
      +:+ (if 0 <? Z.land (castlingRights b) CastlingBlackQueenSide then "q" else EmptyString) in
  let ep : string := if 0 <? epSquare b then square_name (epSquare b) else "-" in
  (board +:+ " " +:+ side +:+ " " +:+ rights +:+ " " +:+ ep)%string.

Definition Fen (b : Bitboard) : string :=
  (Epd b +:+ " " +:+ Itoa (halfMoveClock b) +:+ " " +:+ Itoa (fullMoveNumber b))%string.

(** *** Parsing a FEN *)

(** [strings.Split(s, sep)] for a one-byte separator, and
    [strings.Fields(s)] on the white space of ASCII. *)
Fixpoint split_on (sep : ascii -> bool) (s : list ascii) (cur : list ascii)
    : list string :=
  match s with
  | [] => [string_of_list_ascii (rev cur)]
  | c :: s' =>
      if sep c then string_of_list_ascii (rev cur) :: split_on sep s' []
      else split_on sep s' (c :: cur)
  end.

Definition Split (s : string) (sep : ascii) : list string :=
  split_on (Ascii.eqb sep) (list_ascii_of_string s) [].

Definition is_space (c : ascii) : bool :=
  let n := nat_of_ascii c in
  (n =? 32)%nat || ((9 <=? n)%nat && (n <=? 13)%nat).

Definition Fields (s : string) : list string :=
  filter (fun f => f <> EmptyString) (split_on is_space (list_ascii_of_string s) []).

Definition Contains (s : string) (c : ascii) : bool :=
  existsb (Ascii.eqb c) (list_ascii_of_string s).

(** [strconv.Atoi]: an optional sign, then decimal digits only, within the
    range of a 64-bit [int]; anything else is an error ([None]). *)
Definition digit_value (c : ascii) : option Z :=
  let n := nat_of_ascii c in
  if (48 <=? n)%nat && (n <=? 57)%nat then Some (Z.of_nat n - 48) else None.

Fixpoint parse_digits (s : list ascii) (acc : Z) : option Z :=
  match s with
  | [] => Some acc
  | c :: s' => d ← digit_value c; parse_digits s' (10 * acc + d)
  end.

Definition Atoi (s : string) : option Z :=
  let '(negative, digits) :=
    match list_ascii_of_string s with
    | "-"%char :: r => (true, r)
    | "+"%char :: r => (false, r)
    | r => (false, r)
    end in
  match digits with
  | [] => None
  | _ =>
      v ← parse_digits digits 0;
      let v := if negative then - v else v in
      if (- 9223372036854775808 <=? v) && (v <=? 9223372036854775807)
      then Some v else None
  end.

Inductive row_check := RowOk | RowTwoDigits | RowBadChar | RowBadSum.

Definition is_piece_letter (c : ascii) : bool :=
  existsb (Ascii.eqb c)
    ["p"; "n"; "b"; "r"; "q"; "k"; "P"; "N"; "B"; "R"; "Q"; "K"]%char.

Definition is_run_digit (c : ascii) : bool :=
  let n := nat_of_ascii c in (49 <=? n)%nat && (n <=? 56)%nat.

(** The validation of one row of the board field. *)
Fixpoint check_row (row : list ascii) (fieldSum : Z) (previousWasDigit : bool)
    : row_check :=
  match row with
  | [] => if negb (fieldSum =? 8) then RowBadSum else RowOk
  | c :: rest =>
      if is_run_digit c then
        if previousWasDigit then RowTwoDigits
        else check_row rest (fieldSum + (Z.of_nat (nat_of_ascii c) - 48)) true
      else if is_piece_letter c then check_row rest (fieldSum + 1) false
      else RowBadChar
  end.

Fixpoint check_rows (rows : list string) : row_check :=
  match rows with
  | [] => RowOk
  | row :: rest =>
      match check_row (list_ascii_of_string row) 0 false with
      | RowOk => check_rows rest
      | e => e
      end
  end.

(** The first index of [SquareNames] whose name is [s], and the zero value
    when there is none (the loops with [break] of [SetFen]). *)
Definition square_of_name (s : string) : Z :=
  match index_of s SquareNames 0 with
  | Some i => Z.of_nat i
  | None => 0
  end.

(** The loop of [SetFen] that puts the pieces on the (cleared) board; a
    letter that names no piece would dereference [nil]. *)
Fixpoint place_pieces (board : list ascii) (squareIndex : nat) (b : Bitboard)
    : option Bitboard :=
  match board with
  | [] => Some b
  | c :: rest =>
      if is_run_digit c then
        place_pieces rest (squareIndex + Z.to_nat (Z.of_nat (nat_of_ascii c) - 48)) b
      else if is_piece_letter c then
        piece ← PieceFromSymbol (String c EmptyString);
        square ← Squares180 !! squareIndex;
        place_pieces rest (S squareIndex) (SetPieceAt square piece b)
      else place_pieces rest squareIndex b
  end.

Definition Errorf (message fen : string) : string :=
  message +:+ ": '" +:+ fen +:+ "'.".

Section SetFen.

(** The compiled pattern [FenCastlingRegex] is declared in a file that is
    not among the sources; [SetFen] only asks whether it matches. *)
Variable FenCastlingRegex_MatchString : string -> bool.

(** [SetFen] returns the position it leaves behind and the error ([None]
    for [nil]). *)
Definition SetFen (fen : string) (b : Bitboard)
    : option (Bitboard * option string) :=
  match Fields fen with
  | [p0; p1; p2; p3; p4; p5] =>
      let rows := Split p0 "/" in
      if negb (length rows =? 8)%nat then
        Some (b, Some (Errorf "expected 8 rows in position part of fen" fen))
      else
      match check_rows rows with
      | RowTwoDigits =>
          Some (b, Some (Errorf "two subsequent digits in position part of fen" fen))
      | RowBadChar =>
          Some (b, Some (Errorf "invalid character in position part of fen" fen))
      | RowBadSum =>
          Some (b, Some (Errorf "expected 8 columns per row in position part of fen" fen))
      | RowOk =>
      if negb (String.eqb p1 "w") && negb (String.eqb p1 "b") then
        Some (b, Some (Errorf "expected 'w' or 'b' for turn part of fen" fen))
      else if negb (FenCastlingRegex_MatchString p2) then
        Some (b, Some (Errorf "invalid castling part in fen" fen))
      else if negb (String.eqb p3 "-") && String.eqb p1 "w"
              && negb (rankIndex (square_of_name p3) =? 5) then
        Some (b, Some (Errorf "expected en-passant square to be on sixth rank" fen))
      else if negb (String.eqb p3 "-") && negb (String.eqb p1 "w")
              && negb (rankIndex (square_of_name p3) =? 2) then
        Some (b, Some (Errorf "expected en-passant square to be on third rank" fen))
      else
      match Atoi p4 with
      | None => Some (b, Some (Errorf "halfmove clock can not be negative" fen))
      | Some hm =>
      if hm <? 0 then
        Some (b, Some (Errorf "halfmove clock can not be negative" fen))
      else
      match Atoi p5 with
      | None => Some (b, Some (Errorf "fullmove number must be positive" fen))
      | Some fm =>
      if fm <? 0 then
        Some (b, Some (Errorf "fullmove number must be positive" fen))
      else
        b ← Clear;
        b ← place_pieces (list_ascii_of_string p0) 0 b;
        let b := set_turn (if String.eqb p1 "w" then White else Black) b in
        let b := set_castlingRights CastlingNone b in
        let b :=
          if Contains p2 "K"
          then set_castlingRights (Z.lor (castlingRights b) CastlingWhiteKingSide) b
          else b in
        let b :=
          if Contains p2 "Q"
          then set_castlingRights (Z.lor (castlingRights b) CastlingWhiteQueenSide) b
          else b in
        let b :=
          if Contains p2 "k"
          then set_castlingRights (Z.lor (castlingRights b) CastlingBlackKingSide) b
          else b in
        let b :=
          if Contains p2 "q"
          then set_castlingRights (Z.lor (castlingRights b) CastlingBlackQueenSide) b
          else b in
        let b :=
          if String.eqb p3 "-" then set_epSquare 0 b
          else set_epSquare (square_of_name p3) b in
        let b := set_halfMoveClock hm b in
        let b := set_fullMoveNumber (if 0 <? fm then fm else 1) b in
        Some (set_transpositions {[ ZobristHash b := 1 ]} b, None)
      end
      end
      end
  | _ => Some (b, Some (Errorf "fen string should consist of 6 parts" fen))
  end.

End SetFen.

(** ** Games

    A line of play is given in UCI notation, from the position of [Reset];
    every move of a line must be one of the legal moves that the position
    generates. *)

Definition all_pseudo_legal (b : Bitboard) : option (list Move) :=
  GeneratePseudoLegalMoves b true true true true true true true.

Definition legal_in (m : Move) (b : Bitboard) : bool :=
  match GenerateLegalMoves b true true true true true true true with
  | Some (ms, _) => bool_decide (m ∈ ms)
  | None => false
  end.

Fixpoint play_legal (ucis : list string) (b : Bitboard) : option Bitboard :=
  match ucis with
  | [] => Some b
  | uci :: rest =>
      m ← MoveFromUci uci;
      if legal_in m b then play_legal rest (Push (Some m) b) else None
  end.

Definition game (ucis : list string) : option Bitboard :=
  b ← Reset; play_legal ucis b.

(** What [Push] followed by the matching [Pop] leaves behind. *)
Definition push_pop (move : option Move) (b : Bitboard) : option Bitboard :=
  fst <$> Pop (Push move b).

(** The answers of [CanClaimThreefoldRepitition] after each prefix of a
    line, the empty prefix first. *)
Definition claims_along (ucis : list string) : list (option bool) :=
  map (fun k => b ← game (take k ucis);
                fst <$> CanClaimThreefoldRepitition b)
      (seq 0 (S (length ucis))).

(** How often the position on the board has occurred, as the
    transposition table counts it, after each prefix of a line. *)
Definition occurrences_along (ucis : list string) : list (option Z) :=
  map (fun k => b ← game (take k ucis);
                Some (count_of (transpositions b) (ZobristHash b)))
      (seq 0 (S (length ucis))).

(** The set bits of a [uint64], lowest first. *)
Definition set_bits (b : Z) : list Z := filter (fun i => Z.testbit b i = true) all_squares.

(** A position with no piece, no history and an empty table, as
    [&Bitboard{}] followed by the allocation of the stacks. *)
Definition blank_position : Bitboard :=
  mkBitboard 0 0 0 0 0 0 (0, 0) 0 0 0 0 (0, 0) (map (fun _ => NoPiece) all_squares)
    0 0 White 0 0 [] [] [] [] [] 0 ∅.

(** The lines of play used below. *)

(** White opens the h-file and takes the rook on h8 with the rook on h1. *)
Definition open_h_file : list string :=
  ["h2h4"; "g7g5"; "h4g5"; "h7h6"; "g1f3"; "h6g5"]%string.

(** The same line continued: the rook takes on h8 and goes back to h1, and
    Black clears f8 and g8. *)
Definition rook_there_and_back : list string :=
  open_h_file ++ ["h1h8"; "f8g7"; "h8h1"; "g8f6"; "a2a3"]%string.

(** White clears f1 and g1 while a black bishop on a6 looks at f1. *)
Definition bishop_eyes_f1 : list string :=
  ["e2e4"; "e7e6"; "f1e2"; "b7b6"; "e2f3"; "c8a6"; "g1h3"; "h7h6"]%string.

(** Both sides move a knight out and back, twice. *)
Definition knight_dance : list string :=
  ["g1f3"; "g8f6"; "f3g1"; "f6g8"; "g1f3"; "g8f6"; "f3g1"; "f6g8"]%string.

(** ** Sets of squares as bit masks *)

Definition bits_le (a b : Z) : Prop :=
  forall i, 0 <= i -> Z.testbit a i = true -> Z.testbit b i = true.

Definition subset_b (a b : Z) : bool := Z.land a b =? a.

(** A check of the tables at every square, or at every 6-bit slice. *)
Definition for_squares (P : Z -> bool) : bool := forallb P all_squares.

(** ** Binary digits

    The digits of a positive number, least significant first, and their
    rendering most significant first, as [Sprintf_b] prints them. *)
Fixpoint pos_bits (p : positive) : list bool :=
  match p with
  | xH => [true]
  | xO p' => false :: pos_bits p'
  | xI p' => true :: pos_bits p'
  end.

Definition bit_char (x : bool) : ascii := if x then "1"%char else "0"%char.

Fixpoint bits_string (bs : list bool) : string :=
  match bs with
  | [] => EmptyString
  | x :: rest => bits_string rest +:+ String (bit_char x) EmptyString
  end.

Fixpoint first_true (l : list bool) : option nat :=
  match l with
  | [] => None
  | x :: rest => if x then Some O else S <$> first_true rest
  end.

(** The number of ones among the [n] lowest bits. *)
Fixpoint ones (n : nat) (b : Z) : nat :=
  match n with
  | O => O
  | S n' => ((if Z.odd b then 1 else 0) + ones n' (Z.div2 b))%nat
  end.

(** [r] is the answer expected of a scan of [b] from bit [n]: the lowest
    set bit at or above [n], or -1 when there is none. *)
Definition lowest_set_bit_from (b n r : Z) : Prop :=
  (r = -1 /\ forall i, n <= i -> Z.testbit b i = false)
  \/ (n <= r /\ Z.testbit b r = true
      /\ forall i, n <= i < r -> Z.testbit b i = false).

(** ** Values of type [uint64] *)

Definition in_range (x : Z) : Prop := 0 <= x < 2 ^ 64.

(** The destinations of the single pawn pushes of Black, as both
    [GeneratePseudoLegalMoves] and [PseudoLegalMoveCount] compute them. *)
Definition black_single_pushes (b : Bitboard) : Z :=
  Z.land (shiftDown (Z.land (pawns b) (by_color (occupiedCo b) Black)))
         (not64 (occupied b)).

(** [x] is a [uint64] whose bit [i] is [P i] at every square. *)
Definition bit_spec (x : Z) (P : Z -> bool) : Prop :=
  in_range x /\ forall i, 0 <= i < 64 -> Z.testbit x i = P i.

Definition kind_at (b : Bitboard) (k : PieceTypes) (i : Z) : bool :=
  PieceTypes_eqb (PieceTypeAt b i) k.

Definition occupied_at (b : Bitboard) (i : Z) : bool :=
  negb (kind_at b NoPiece i).

Definition black_at (b : Bitboard) (i : Z) : bool :=
  Z.testbit (by_color (occupiedCo b) Black) i.

(** The term a square contributes to the board hash. *)
Definition square_term (b : Bitboard) (i : Z) : Z :=
  match PieceAt b i with
  | Some p => zobrist_term (pieceType p) (color p) i
  | None => 0
  end.

Definition xor_terms (f : Z -> Z) (l : list Z) : Z :=
  fold_left (fun h i => Z.lxor h (f i)) l 0.

(** The board hash computed from scratch, square by square. *)
Definition board_hash (b : Bitboard) : Z := xor_terms (square_term b) all_squares.

Definition rotated_spec (view : Z) (rot : Z -> Z) (b : Bitboard) : Prop :=
  in_range view
  /\ forall i, 0 <= i < 64 -> Z.testbit view (rot i) = occupied_at b i.

Record consistent (b : Bitboard) : Prop := {
  c_length : length (pieces b) = 64%nat;
  c_pawns : bit_spec (pawns b) (kind_at b Pawn);
  c_knights : bit_spec (knights b) (kind_at b Knight);
  c_bishops : bit_spec (bishops b) (kind_at b Bishop);
  c_rooks : bit_spec (rooks b) (kind_at b Rook);
  c_queens : bit_spec (queens b) (kind_at b Queen);
  c_kings : bit_spec (kings b) (kind_at b King);
  c_occupied : bit_spec (occupied b) (occupied_at b);
  c_white : bit_spec (by_color (occupiedCo b) White)
              (fun i => occupied_at b i && negb (black_at b i));
  c_black : bit_spec (by_color (occupiedCo b) Black)
              (fun i => occupied_at b i && black_at b i);
  c_L90 : rotated_spec (occupiedL90 b) SquaresL90 b;
  c_R45 : rotated_spec (occupiedR45 b) SquaresR45 b;
  c_L45 : rotated_spec (occupiedL45 b) SquaresL45 b;
  c_hash : incrementalZobristHash b = board_hash b
}.

(** The fields that make up the board, and the others. *)
Definition board_part (b : Bitboard) :=
  (pawns b, knights b, bishops b, rooks b, queens b, kings b,
   occupiedCo b, occupied b, occupiedL90 b, occupiedL45 b, occupiedR45 b,
   pieces b, incrementalZobristHash b).

Definition state_part (b : Bitboard) :=
  (epSquare b, castlingRights b, turn b, fullMoveNumber b, halfMoveClock b,
   halfMoveClockStack b, capturedPieceStack b, castlingRightStack b,
   epSquareStack b, moveStack b, transpositions b).

(** A function changed at one square. *)
Definition upd {A} (g : Z -> A) (sq : Z) (v : A) : Z -> A :=
  fun i => if i =? sq then v else g i.

Definition xor_if (c : bool) (x mask : Z) : Z := if c then Z.lxor x mask else x.
Definition or_if (c : bool) (x mask : Z) : Z := if c then Z.lor x mask else x.

(** *** The rotations are permutations of the squares *)

Definition rotation_ok (rot : Z -> Z) : bool :=
  forallb (fun i => (0 <=? rot i) && (rot i <? 64)
                    && forallb (fun j => Bool.eqb (rot i =? rot j) (i =? j)) all_squares)
          all_squares.

(** *** Toggling one piece on one square

    [RemovePieceAt] on an occupied square and [SetPieceAt] on an empty
    one change the same fields in the same way: they flip the bit of the
    square in the masks of the piece and add its term to the hash. *)

Definition is_black (c : Colors) : bool :=
  match c with Black => true | White => false end.

Definition toggled (b : Bitboard) (sq : Z) (k : PieceTypes) (c : Colors)
    (newk : PieceTypes) :=
  (xor_if (PieceTypes_eqb k Pawn) (pawns b) (BBSquares sq),
   xor_if (PieceTypes_eqb k Knight) (knights b) (BBSquares sq),
   xor_if (PieceTypes_eqb k Bishop) (bishops b) (BBSquares sq),
   xor_if (PieceTypes_eqb k Rook) (rooks b) (BBSquares sq),
   xor_if (PieceTypes_eqb k Queen) (queens b) (BBSquares sq),
   xor_if (PieceTypes_eqb k King) (kings b) (BBSquares sq),
   set_color (occupiedCo b) c (Z.lxor (by_color (occupiedCo b) c) (BBSquares sq)),
   Z.lxor (occupied b) (BBSquares sq),
   Z.lxor (occupiedL90 b) (BBSquares (SquaresL90 sq)),
   Z.lxor (occupiedL45 b) (BBSquares (SquaresL45 sq)),
   Z.lxor (occupiedR45 b) (BBSquares (SquaresR45 sq)),
   <[Z.to_nat sq := newk]> (pieces b),
   Z.lxor (incrementalZobristHash b) (zobrist_term k c sq)).

Definition piece_if (k : PieceTypes) (c : Colors) : option Piece :=
  match k with NoPiece => None | _ => Some (NewPiece k c) end.

(** A decision procedure for [consistent]. *)
Definition bit_spec_b (x : Z) (P : Z -> bool) : bool :=
  (0 <=? x) && (x <? 2 ^ 64)
  && forallb (fun i => Bool.eqb (Z.testbit x i) (P i)) all_squares.

Definition rotated_spec_b (view : Z) (rot : Z -> Z) (b : Bitboard) : bool :=
  (0 <=? view) && (view <? 2 ^ 64)
  && forallb (fun i => Bool.eqb (Z.testbit view (rot i)) (occupied_at b i)) all_squares.

Definition consistent_b (b : Bitboard) : bool :=
  (length (pieces b) =? 64)%nat
  && bit_spec_b (pawns b) (kind_at b Pawn)
  && bit_spec_b (knights b) (kind_at b Knight)
  && bit_spec_b (bishops b) (kind_at b Bishop)
  && bit_spec_b (rooks b) (kind_at b Rook)
  && bit_spec_b (queens b) (kind_at b Queen)
  && bit_spec_b (kings b) (kind_at b King)
  && bit_spec_b (occupied b) (occupied_at b)
  && bit_spec_b (by_color (occupiedCo b) White)
       (fun i => occupied_at b i && negb (black_at b i))
  && bit_spec_b (by_color (occupiedCo b) Black)
       (fun i => occupied_at b i && black_at b i)
  && rotated_spec_b (occupiedL90 b) SquaresL90 b
  && rotated_spec_b (occupiedR45 b) SquaresR45 b
  && rotated_spec_b (occupiedL45 b) SquaresL45 b
  && (incrementalZobristHash b =? board_hash b).

(* defs *)
Definition all_kinds : list PieceTypes :=
  [NoPiece; Pawn; Knight; Bishop; Rook; Queen; King].

(** The state of a position apart from the board. *)
Definition has_state (st : Z * Z * Colors * Z * Z * list Z * list PieceTypes
                            * list Z * list Z * list (option Move) * gmap Z Z)
    (b : Bitboard) : Prop :=
  state_part b = st.

(** The state [Push] leaves: the stacks hold what [Pop] needs. *)
Definition pushed (b : Bitboard) (move : option Move) (x : Bitboard) : Prop :=
  exists ep hm,
    has_state (ep, match move with
                   | Some m => revoke_castling m (castlingRights b)
                   | None => castlingRights b
                   end,
               other (turn b),
               match turn b with Black => fullMoveNumber b + 1 | White => fullMoveNumber b end,
               hm, halfMoveClock b :: halfMoveClockStack b,
               match move with
               | Some m => PieceTypeAt b (toSquare m)
               | None => NoPiece
               end :: capturedPieceStack b,
               castlingRights b :: castlingRightStack b,
               epSquare b :: epSquareStack b, move :: moveStack b,
               match move with
               | Some _ =>
                   <[ZobristHash x := count_of (transpositions b) (ZobristHash x) + 1]>
                     (transpositions b)
               | None => transpositions b
               end) x.


(** The counts after the pair: restored for a move, one less for the
    null move. *)
Definition counts_after (b : Bitboard) (move : option Move) : gmap Z Z :=
  let h := ZobristHash (Push move b) in
  <[h := count_of (transpositions b) h
         + match move with Some _ => 0 | None => -1 end]> (transpositions b).

(** The board seen as a function from squares to pieces. *)
Definition view (g : Z -> option Piece) (ks : Z * Z) (b : Bitboard) : Prop :=
  consistent b
  /\ (forall i, 0 <= i < 64 -> PieceAt b i = g i)
  /\ kingSquares b = ks.

Definition kind_of (o : option Piece) : PieceTypes :=
  match o with Some p => pieceType p | None => NoPiece end.

Definition is_none (o : option Piece) : bool :=
  match o with Some _ => false | None => true end.

Definition rotation_onto (rot : Z -> Z) : bool :=
  forallb (fun j => existsb (fun i => rot i =? j) all_squares) all_squares.

(** ** What [Push] and [Pop] do to the pieces *)

Definition abs_diff (a b : Z) : Z :=
  let diff := a - b in if diff <? 0 then - diff else diff.

(** The square of the pawn taken en passant by a pawn of [t] arriving on
    [toSquare]. *)
Definition ep_victim (t : Colors) (toSquare : Z) : Z :=
  match t with White => toSquare - 8 | Black => toSquare + 8 end.

(** The kind that arrives: the promotion piece if the move names one. *)
Definition moved_kind (m : Move) (k : PieceTypes) : PieceTypes :=
  if negb (PieceTypes_eqb (promotion m) NoPiece) then promotion m else k.

Definition rook_out (m : Move) (g : Z -> option Piece) : Z -> option Piece :=
  if (fromSquare m =? E1) && (toSquare m =? G1) then
    upd (upd g F1 (Some (NewPiece Rook White))) H1 None
  else if (fromSquare m =? E1) && (toSquare m =? C1) then
    upd (upd g D1 (Some (NewPiece Rook White))) A1 None
  else if (fromSquare m =? E8) && (toSquare m =? G8) then
    upd (upd g F8 (Some (NewPiece Rook Black))) H8 None
  else if (fromSquare m =? E8) && (toSquare m =? C8) then
    upd (upd g D8 (Some (NewPiece Rook Black))) A8 None
  else g.

Definition rook_back (m : Move) (g : Z -> option Piece) : Z -> option Piece :=
  if (fromSquare m =? E1) && (toSquare m =? G1) then
    upd (upd g F1 None) H1 (Some (NewPiece Rook White))
  else if (fromSquare m =? E1) && (toSquare m =? C1) then
    upd (upd g D1 None) A1 (Some (NewPiece Rook White))
  else if (fromSquare m =? E8) && (toSquare m =? G8) then
    upd (upd g F8 None) H8 (Some (NewPiece Rook Black))
  else if (fromSquare m =? E8) && (toSquare m =? C8) then
    upd (upd g D8 None) A8 (Some (NewPiece Rook Black))
  else g.

(** The pieces after [Push(m)] by the side [t], from the pieces [g]
    before it. *)
Definition Push_board (t : Colors) (m : Move) (g : Z -> option Piece)
    : Z -> option Piece :=
  let k' := moved_kind m (kind_of (g (fromSquare m))) in
  let g1 := upd g (fromSquare m) None in
  let g2 :=
    if PieceTypes_eqb k' Pawn then
      if ((abs_diff (toSquare m) (fromSquare m) =? 7)
          || (abs_diff (toSquare m) (fromSquare m) =? 9))
         && is_none (g1 (toSquare m))
      then upd g1 (ep_victim t (toSquare m)) None
      else g1
    else g1 in
  let g3 := if PieceTypes_eqb k' King then rook_out m g2 else g2 in
  upd g3 (toSquare m) (Some (NewPiece k' t)).

(** The pieces after [Pop] undoes [m], from the pieces [g] of the position
    in which [t] is to move and [cap] is on top of the captured pieces. *)
Definition Pop_board (t : Colors) (m : Move) (cap : PieceTypes)
    (g : Z -> option Piece) : Z -> option Piece :=
  let piece :=
    if negb (PieceTypes_eqb (promotion m) NoPiece) then Pawn
    else kind_of (g (toSquare m)) in
  let g1 := upd g (fromSquare m) (Some (NewPiece piece (other t))) in
  let g2 :=
    if 0 <? piece_index cap then upd g1 (toSquare m) (Some (NewPiece cap t))
    else
      let g' := upd g1 (toSquare m) None in
      if PieceTypes_eqb piece Pawn
         && ((abs_diff (fromSquare m) (toSquare m) =? 7)
             || (abs_diff (fromSquare m) (toSquare m) =? 9))
      then
        match t with
        | White => upd g' (toSquare m + 8) (Some (NewPiece Pawn White))
        | Black => upd g' (toSquare m - 8) (Some (NewPiece Pawn Black))
        end
      else g' in
  if PieceTypes_eqb piece King then rook_back m g2 else g2.

Definition Pop_kings (t : Colors) (m : Move) (cap : PieceTypes)
    (g : Z -> option Piece) (ks : Z * Z) : Z * Z :=
  let piece :=
    if negb (PieceTypes_eqb (promotion m) NoPiece) then Pawn
    else kind_of (g (toSquare m)) in
  let ks1 :=
    if PieceTypes_eqb piece King then set_color ks (other t) (fromSquare m) else ks in
  if (0 <? piece_index cap) && PieceTypes_eqb cap King
  then set_color ks1 t (toSquare m) else ks1.

(** The answer of [Pop]: the move, and a position with the given view and
    state. *)
Definition Pop_gives (m : Move) (g : Z -> option Piece) (ks : Z * Z)
    (st : Z * Z * Colors * Z * Z * list Z * list PieceTypes
          * list Z * list Z * list (option Move) * gmap Z Z)
    (r : option (Bitboard * option Move)) : Prop :=
  exists x, r = Some (x, Some m) /\ view g ks x /\ has_state st x.

Definition castling_shape (f t : Z) (g : Z -> option Piece) : Prop :=
  (f = E1 -> t = G1 -> g F1 = None /\ g H1 = Some (NewPiece Rook White))
  /\ (f = E1 -> t = C1 -> g D1 = None /\ g A1 = Some (NewPiece Rook White))
  /\ (f = E8 -> t = G8 -> g F8 = None /\ g H8 = Some (NewPiece Rook Black))
  /\ (f = E8 -> t = C8 -> g D8 = None /\ g A8 = Some (NewPiece Rook Black)).

Definition in_board (sq : Z) : bool := (0 <=? sq) && (sq <? 64).

(** The square [sq] holds a piece of kind [k] and colour [c]. *)
Definition holds (b : Bitboard) (sq : Z) (k : PieceTypes) (c : Colors) : bool :=
  match PieceAt b sq with
  | Some p => PieceTypes_eqb (pieceType p) k && bool_decide (color p = c)
  | None => false
  end.

Definition vacant (b : Bitboard) (sq : Z) : bool := is_none (PieceAt b sq).

(** For a king move between the squares of a castling move: the rook is on
    its corner and the square it jumps to is empty. *)
Definition castling_rook_ready (b : Bitboard) (m : Move) : bool :=
  if (fromSquare m =? E1) && (toSquare m =? G1) then vacant b F1 && holds b H1 Rook White
  else if (fromSquare m =? E1) && (toSquare m =? C1) then vacant b D1 && holds b A1 Rook White
  else if (fromSquare m =? E8) && (toSquare m =? G8) then vacant b F8 && holds b H8 Rook Black
  else if (fromSquare m =? E8) && (toSquare m =? C8) then vacant b D8 && holds b A8 Rook Black
  else true.

(** The moves that [Pop] can take back: what [Push] and [Pop] assume of a
    move without testing it. *)
Definition undoable (b : Bitboard) (m : Move) : bool :=
  let f := fromSquare m in
  let t := toSquare m in
  let k := PieceTypeAt b f in
  let cap := PieceTypeAt b t in
  let diagonal := (abs_diff t f =? 7) || (abs_diff t f =? 9) in
  let victim := ep_victim (turn b) t in
  in_board f && in_board t && negb (f =? t)
  && holds b f k (turn b)
  && (vacant b t || holds b t cap (other (turn b)))
  && (PieceTypes_eqb (promotion m) NoPiece
      || (PieceTypes_eqb k Pawn && negb (PieceTypes_eqb (promotion m) King)))
  && (negb (PieceTypes_eqb k King) || (by_color (kingSquares b) (turn b) =? f))
  && (negb (PieceTypes_eqb cap King) || (by_color (kingSquares b) (other (turn b)) =? t))
  && (negb (PieceTypes_eqb k Pawn && (diagonal || (abs_diff t f =? 16)))
      || in_board victim)
  && (negb (PieceTypes_eqb k Pawn && diagonal && vacant b t)
      || holds b victim Pawn (other (turn b)))
  && (negb (PieceTypes_eqb k King) || castling_rook_ready b m).

Definition start_position : Bitboard := default blank_position Reset.

(** ** Legal moves *)


(** ** Positions read from a FEN *)

Definition all_ascii : list ascii := map ascii_of_nat (seq 0 256).

(** No stack holds anything and the table counts the position once. *)
Definition fresh (b : Bitboard) : Prop :=
  halfMoveClockStack b = [] /\ capturedPieceStack b = []
  /\ castlingRightStack b = [] /\ epSquareStack b = [] /\ moveStack b = []
  /\ transpositions b = {[ ZobristHash b := 1 ]}.

Definition stacks_empty (b : Bitboard) : Prop :=
  halfMoveClockStack b = [] /\ capturedPieceStack b = []
  /\ castlingRightStack b = [] /\ epSquareStack b = [] /\ moveStack b = [].

(** The result of a successful [SetFen]. *)
Definition SetFen_ok (r : option (Bitboard * option string)) : Prop :=
  forall b', r = Some (b', None) -> consistent b' /\ fresh b'.


Definition start_fen : string :=
  "rnbqkbnr/pppppppp/8/8/8/8/PPPPPPPP/RNBQKBNR w KQkq - 0 1".

Definition start_fen_position : Bitboard :=
  default blank_position (fst <$> SetFen (fun _ => true) start_fen blank_position).

(** The squares one character of the board field stands for. *)
Definition squares_of_char (c : ascii) : nat :=
  if is_run_digit c then Z.to_nat (Z.of_nat (nat_of_ascii c) - 48)
  else if is_piece_letter c then 1%nat else 0%nat.

Definition squares_in (s : list ascii) : nat :=
  fold_right (fun c n => (squares_of_char c + n)%nat) 0%nat s.

Definition squares_in_rows (rows : list string) : nat :=
  fold_right (fun row n => (squares_in (list_ascii_of_string row) + n)%nat) 0%nat rows.

(** *** The end of the game *)

(** [len(b.GenerateLegalMoves(true, ...)) > 0], with the position the
    generation leaves. *)
Definition has_legal_move (b : Bitboard) : option (bool * Bitboard) :=
  '(ms, b) ← GenerateLegalMoves b true true true true true true true;
  Some ((0 <? length ms)%nat, b).



Definition IsSeventyfiveMoves (b : Bitboard) : option (bool * Bitboard) :=
  if 150 <=? halfMoveClock b then
    '(some, b) ← has_legal_move b;
    if some : bool then Some (true, b) else Some (false, b)
  else Some (false, b).

Definition CanClaimFiftyMoves (b : Bitboard) : option (bool * Bitboard) :=
  if 100 <=? halfMoveClock b then
    '(some, b) ← has_legal_move b;
    if some : bool then Some (true, b) else Some (false, b)
  else Some (false, b).

(** [b.CanClaimFiftyMoves() || b.CanClaimThreefoldRepitition()]: the
    second call is made only when the first answers false. *)
Definition CanClaimDraw (b : Bitboard) : option (bool * Bitboard) :=
  '(fifty, b) ← CanClaimFiftyMoves b;
  if fifty : bool then Some (true, b) else CanClaimThreefoldRepitition b.

(** [switchyard.Push(b.Pop())], [n] times: the moves taken back, the last
    one first. *)
Fixpoint pop_onto (n : nat) (switchyard : list (option Move)) (b : Bitboard)
    : option (list (option Move) * Bitboard) :=
  match n with
  | O => Some (switchyard, b)
  | S n' => '(b, move) ← Pop b; pop_onto n' (move :: switchyard) b
  end.

(** The loop that pushes the moves of the switchyard back, the one taken
    back last first. *)
Definition push_back (switchyard : list (option Move)) (b : Bitboard) : Bitboard :=
  fold_left (fun b move => Push move b) switchyard b.

Fixpoint fivefold_steps (i : nat) (zobristHash : Z)
    (switchyard : list (option Move)) (b : Bitboard) : option (bool * Bitboard) :=
  match i with
  | O => Some (true, push_back switchyard b)
  | S i' =>
      '(switchyard, b) ← pop_onto 4 switchyard b;
      if negb (ZobristHash b =? zobristHash)
      then Some (false, push_back switchyard b)
      else fivefold_steps i' zobristHash switchyard b
  end.

Definition IsFivefoldRepitition (b : Bitboard) : option (bool * Bitboard) :=
  let zobristHash := ZobristHash b in
  if (Z.of_nat (length (moveStack b)) <? 16)
     || (count_of (transpositions b) zobristHash <? 5)
  then Some (false, b)
  else fivefold_steps 4 zobristHash [] b.

(** The position after a line of play, or the empty board if the line is
    not playable. *)
Definition position_after (ucis : list string) : Bitboard :=
  default blank_position (game ucis).


Definition two_knight_dances : list string := (knight_dance ++ knight_dance)%list.

Definition long_shuffle : Bitboard := set_halfMoveClock 150 start_position.

Definition after_legal_moves (b : Bitboard) : Bitboard :=
  default b (snd <$> has_legal_move b).

Definition after_fivefold_test (b : Bitboard) : Bitboard :=
  default b (snd <$> IsFivefoldRepitition b).

(** *** The counters after [Push] *)




(** * Properties *)

(** ** bit.go *)

Lemma land_odd_pred (k : Z) : Z.land (2 * k + 1) (2 * k) = 2 * k.
Proof.
  apply Z.bits_inj'. intros i Hi. rewrite Z.land_spec.
  destruct (Z.eq_dec i 0) as [->|Hne].
  - rewrite Z.testbit_even_0. apply andb_false_r.
  - replace i with (Z.succ (i - 1)) by lia.
    rewrite Z.testbit_odd_succ, Z.testbit_even_succ by lia. apply andb_diag.
Qed.

Lemma land_even_pred (k : Z) :
  Z.land (2 * k) (2 * k - 1) = 2 * Z.land k (k - 1).
Proof.
  replace (2 * k - 1) with (2 * (k - 1) + 1) by lia.
  apply Z.bits_inj'. intros i Hi. rewrite Z.land_spec.
  destruct (Z.eq_dec i 0) as [->|Hne].
  - rewrite !Z.testbit_even_0. reflexivity.
  - replace i with (Z.succ (i - 1)) by lia.
    rewrite Z.testbit_odd_succ, !Z.testbit_even_succ, Z.land_spec by lia.
    reflexivity.
Qed.

Lemma odd_div2 (b : Z) : b = 2 * Z.div2 b + (if Z.odd b then 1 else 0).
Proof. rewrite (Z.div2_odd b) at 1. destruct (Z.odd b); reflexivity. Qed.

Lemma ones_double (n : nat) (k : Z) : ones (S n) (2 * k) = ones n k.
Proof.
  cbn [ones]. rewrite Z.odd_even, Z.div2_div.
  replace (2 * k / 2) with k by (apply (Z.div_unique (2 * k) 2 k 0); lia). reflexivity.
Qed.

Lemma ones_double_one (n : nat) (k : Z) : ones (S n) (2 * k + 1) = S (ones n k).
Proof.
  cbn [ones]. rewrite Z.odd_odd, Z.div2_div.
  replace ((2 * k + 1) / 2) with k by (apply (Z.div_unique (2 * k + 1) 2 k 1); lia). reflexivity.
Qed.

Lemma ones_clear_lowest (n : nat) (b : Z) :
  0 < b < 2 ^ Z.of_nat n ->
  0 <= Z.land b (b - 1) < 2 ^ Z.of_nat n
  /\ S (ones n (Z.land b (b - 1))) = ones n b.
Proof.
  revert b. induction n as [|n IH]; intros b Hb.
  - simpl in Hb. lia.
  - rewrite Nat2Z.inj_succ, Z.pow_succ_r in * by lia.
    pose proof (odd_div2 b) as E. set (k := Z.div2 b) in *.
    destruct (Z.odd b).
    + rewrite E. replace (2 * k + 1 - 1) with (2 * k) by lia.
      rewrite land_odd_pred, ones_double, ones_double_one. split; [lia|reflexivity].
    + rewrite Z.add_0_r in E. rewrite E, land_even_pred, !ones_double.
      destruct (IH k ltac:(lia)) as [Hr Ho]. split; [lia|exact Ho].
Qed.

Lemma ones_le (n : nat) (b : Z) : (ones n b <= n)%nat.
Proof.
  revert b. induction n as [|n IH]; intros b; cbn [ones]; [lia|].
  specialize (IH (Z.div2 b)). destruct (Z.odd b); lia.
Qed.

Lemma ones_zero (n : nat) : ones n 0 = O.
Proof. induction n as [|n IH]; [reflexivity|]. cbn [ones]. simpl. exact IH. Qed.

Lemma popCount_loop_ones (n fuel : nat) (b count : Z) :
  0 <= b < 2 ^ Z.of_nat n -> (ones n b <= fuel)%nat ->
  popCount_loop fuel b count = count + Z.of_nat (ones n b).
Proof.
  revert b count. induction fuel as [|fuel IH]; intros b count Hb Hf.
  - simpl. lia.
  - cbn [popCount_loop]. destruct (Z.ltb_spec 0 b) as [Hpos|Hz].
    + destruct (ones_clear_lowest n b ltac:(lia)) as [Hr Ho].
      rewrite IH by (try exact Hr; lia). lia.
    + assert (b = 0) as -> by lia. rewrite ones_zero. lia.
Qed.

Lemma testbit_odd_shiftr (b m : Z) : 0 <= m -> Z.testbit b m = Z.odd (Z.shiftr b m).
Proof.
  intros Hm. rewrite <- Z.bit0_odd, Z.shiftr_spec by lia. reflexivity.
Qed.

Lemma ones_filter (n : nat) (b m : Z) :
  0 <= m ->
  length (filter (fun i => Z.testbit b i = true) (seqZ m (Z.of_nat n)))
  = ones n (Z.shiftr b m).
Proof.
  revert m. induction n as [|n IH]; intros m Hm; [reflexivity|].
  rewrite seqZ_cons by lia. cbn [ones].
  replace (Z.pred (Z.of_nat (S n))) with (Z.of_nat n) by lia.
  rewrite filter_cons, <- testbit_odd_shiftr by lia.
  rewrite Z.div2_spec, Z.shiftr_shiftr by lia.
  specialize (IH (Z.succ m) ltac:(lia)).
  replace (m + 1) with (Z.succ m) by lia.
  destruct (decide (Z.testbit b m = true)) as [E|E].
  - rewrite E. cbn [length]. rewrite IH. reflexivity.
  - apply not_true_is_false in E. rewrite E, IH. reflexivity.
Qed.

(** [popCount] counts the set bits of every [uint64]: the 64 turns of
    the loop are enough, each turn clears the lowest set bit. *)
Theorem popCount_counts_set_bits (b : Z) :
  0 <= b < 2 ^ 64 -> popCount b = Z.of_nat (length (set_bits b)).
Proof.
  intros Hb. unfold popCount, set_bits, all_squares.
  rewrite (popCount_loop_ones 64 64 b 0 Hb (ones_le 64 b)).
  pose proof (ones_filter 64 b 0 ltac:(lia)) as E.
  change (Z.of_nat 64) with 64 in E. rewrite E, Z.shiftr_0_r. lia.
Qed.

Lemma append_cons (x : ascii) (s t : string) :
  String x s +:+ t = String x (s +:+ t).
Proof. reflexivity. Qed.

Lemma append_String_assoc (s : string) (c : ascii) (t : string) :
  (s +:+ String c EmptyString) +:+ t = s +:+ String c t.
Proof.
  induction s as [|x s IH]; [reflexivity|].
  rewrite !append_cons, IH. reflexivity.
Qed.

Lemma append_empty_r (s : string) : s +:+ EmptyString = s.
Proof.
  induction s as [|x s IH]; [reflexivity|]. rewrite append_cons, IH. reflexivity.
Qed.

Lemma append_assoc (s t u : string) : (s +:+ t) +:+ u = s +:+ (t +:+ u).
Proof.
  induction s as [|x s IH]; [reflexivity|]. rewrite !append_cons, IH. reflexivity.
Qed.

Lemma pos_binary_bits (p : positive) (acc : string) :
  pos_binary p acc = bits_string (pos_bits p) +:+ acc.
Proof.
  revert acc. induction p as [p IH|p IH|]; intros acc; cbn [pos_binary pos_bits bits_string].
  - rewrite IH, append_String_assoc. reflexivity.
  - rewrite IH, append_String_assoc. reflexivity.
  - reflexivity.
Qed.

Lemma Sprintf_b_pos (p : positive) : Sprintf_b (Zpos p) = bits_string (pos_bits p).
Proof. unfold Sprintf_b. rewrite pos_binary_bits. apply append_empty_r. Qed.

Lemma length_append (s t : string) :
  String.length (s +:+ t) = (String.length s + String.length t)%nat.
Proof.
  induction s as [|x s IH]; [reflexivity|].
  rewrite append_cons. cbn [String.length]. rewrite IH. reflexivity.
Qed.

Lemma length_bits_string (bs : list bool) : String.length (bits_string bs) = length bs.
Proof.
  induction bs as [|x bs IH]; [reflexivity|].
  cbn [bits_string]. rewrite length_append, IH. simpl. lia.
Qed.

Lemma bits_string_app (l1 l2 : list bool) :
  bits_string (l1 ++ l2) = bits_string l2 +:+ bits_string l1.
Proof.
  induction l1 as [|x l1 IH]; cbn [bits_string app].
  - symmetry. apply append_empty_r.
  - rewrite IH. apply append_assoc.
Qed.

Lemma substring_prefix (s t : string) : substring 0 (String.length s) (s +:+ t) = s.
Proof.
  induction s as [|x s IH].
  - destruct t; reflexivity.
  - rewrite append_cons. cbn [String.length substring]. rewrite IH. reflexivity.
Qed.

Lemma prefix_of_bits (bs : list bool) (n : nat) :
  (n <= length bs)%nat ->
  substring 0 (length bs - n) (bits_string bs) = bits_string (drop n bs).
Proof.
  intros Hn. rewrite <- (take_drop n bs) at 2. rewrite bits_string_app.
  replace (length bs - n)%nat with (String.length (bits_string (drop n bs))).
  - apply substring_prefix.
  - rewrite length_bits_string, length_drop. reflexivity.
Qed.

Lemma last_index_from_snoc (s : string) (c' c : ascii) (i found : Z) :
  last_index_from (s +:+ String c' EmptyString) c i found
  = if Ascii.eqb c' c then i + len s else last_index_from s c i found.
Proof.
  revert i found. induction s as [|x s IH]; intros i found.
  - change (EmptyString +:+ String c' EmptyString) with (String c' EmptyString).
    cbn [last_index_from]. destruct (Ascii.eqb c' c); [unfold len; simpl; lia|reflexivity].
  - rewrite append_cons. cbn [last_index_from]. rewrite IH.
    destruct (Ascii.eqb c' c); [|reflexivity].
    unfold len. cbn [String.length]. lia.
Qed.

Lemma LastIndex_bits (tb : list bool) :
  LastIndex (bits_string tb) "1"
  = match first_true tb with
    | None => -1
    | Some k => Z.of_nat (length tb) - 1 - Z.of_nat k
    end.
Proof.
  unfold LastIndex. induction tb as [|x tb IH]; [reflexivity|].
  cbn [bits_string first_true]. rewrite last_index_from_snoc.
  destruct x; cbn [bit_char].
  - cbn [Ascii.eqb Bool.eqb]. unfold len. rewrite length_bits_string.
    cbn [length]. lia.
  - cbn [Ascii.eqb Bool.eqb]. rewrite IH.
    destruct (first_true tb) as [k|]; cbn [fmap option_fmap option_map]; [|reflexivity].
    cbn [length]. lia.
Qed.

Lemma first_true_Some (l : list bool) (k : nat) :
  first_true l = Some k ->
  nth k l false = true /\ forall j, (j < k)%nat -> nth j l false = false.
Proof.
  revert k. induction l as [|x l IH]; intros k; [discriminate|].
  cbn [first_true]. destruct x.
  - intros [= <-]. split; [reflexivity|]. intros j Hj. lia.
  - destruct (first_true l) as [k'|]; [|discriminate].
    intros [= <-]. destruct (IH k' eq_refl) as [H1 H2].
    split; [exact H1|]. intros [|j] Hj; [reflexivity|]. apply H2. lia.
Qed.

Lemma first_true_None (l : list bool) :
  first_true l = None -> forall j, nth j l false = false.
Proof.
  induction l as [|x l IH]; intros H j.
  - destruct j; reflexivity.
  - cbn [first_true] in H. destruct x; [discriminate|].
    destruct (first_true l); [discriminate|].
    destruct j; [reflexivity|]. apply IH. reflexivity.
Qed.

Lemma testbit_pos_bits (p : positive) (i : nat) :
  Z.testbit (Zpos p) (Z.of_nat i) = nth i (pos_bits p) false.
Proof.
  revert i. induction p as [p IH|p IH|]; intros [|i]; try reflexivity.
  - rewrite Nat2Z.inj_succ. change (Zpos p~1) with (2 * Zpos p + 1).
    rewrite Z.testbit_odd_succ by lia. apply IH.
  - rewrite Nat2Z.inj_succ. change (Zpos p~0) with (2 * Zpos p).
    rewrite Z.testbit_even_succ by lia. apply IH.
  - rewrite Nat2Z.inj_succ. cbn [pos_bits nth].
    destruct i; reflexivity.
Qed.

Lemma testbit_past_bits (p : positive) (i : nat) :
  (length (pos_bits p) <= i)%nat -> Z.testbit (Zpos p) (Z.of_nat i) = false.
Proof. intros H. rewrite testbit_pos_bits. apply nth_overflow. exact H. Qed.

(** Within the digits of [b], [bitScan] does not fault and finds the
    lowest set bit at or above [n], or answers -1. *)
Theorem bitScan_in_range (b n : Z) :
  0 <= b -> 0 <= n <= len (Sprintf_b b) ->
  exists r, bitScan b n = Some r /\ lowest_set_bit_from b n r.
Proof.
  intros Hb Hn. destruct b as [|p|p]; [| |lia].
  - exists (-1). change (len (Sprintf_b 0)) with 1 in Hn.
    split.
    + assert (n = 0 \/ n = 1) as [-> | ->] by lia; reflexivity.
    + left. split; [reflexivity|]. intros i _. apply Z.testbit_0_l.
  - unfold bitScan. rewrite Sprintf_b_pos in *.
    set (bs := pos_bits p) in *. unfold len in *.
    rewrite length_bits_string in *.
    unfold slice_to, len. rewrite length_bits_string.
    destruct (Z.ltb_spec (Z.of_nat (length bs) - n) 0) as [?|_]; [lia|].
    destruct (Z.ltb_spec (Z.of_nat (length bs)) (Z.of_nat (length bs) - n)) as [?|_]; [lia|].
    cbn [orb mbind option_bind].
    replace (Z.to_nat (Z.of_nat (length bs) - n)) with (length bs - Z.to_nat n)%nat by lia.
    rewrite prefix_of_bits by lia. rewrite LastIndex_bits, length_drop.
    destruct (first_true (drop (Z.to_nat n) bs)) as [k|] eqn:E.
    + apply first_true_Some in E as [E1 E2].
      rewrite List.nth_skipn in E1.
      assert (Hk : (Z.to_nat n + k < length bs)%nat).
      { destruct (Nat.lt_ge_cases (Z.to_nat n + k) (length bs)) as [|Hge]; [assumption|].
        rewrite nth_overflow in E1 by exact Hge. discriminate. }
      destruct (Z.eqb_spec (Z.of_nat (length bs - Z.to_nat n) - 1 - Z.of_nat k) (-1)) as [?|_]; [lia|].
      eexists. split; [reflexivity|]. right.
      replace (Z.of_nat (length bs) - (Z.of_nat (length bs - Z.to_nat n) - 1 - Z.of_nat k) - 1)
        with (Z.of_nat (Z.to_nat n + k)) by lia.
      split; [lia|]. split.
      * unfold bs in E1. rewrite testbit_pos_bits. exact E1.
      * intros i Hi. replace i with (Z.of_nat (Z.to_nat n + (Z.to_nat i - Z.to_nat n))) by lia.
        rewrite testbit_pos_bits. fold bs. rewrite <- List.nth_skipn. apply E2. lia.
    + exists (-1). split; [reflexivity|]. left. split; [reflexivity|].
      intros i Hi. replace i with (Z.of_nat (Z.to_nat n + (Z.to_nat i - Z.to_nat n))) by lia.
      rewrite testbit_pos_bits. fold bs. rewrite <- List.nth_skipn.
      apply first_true_None. exact E.
Qed.

(** Outside them it faults: the slice bound is negative when [n] exceeds
    the number of digits, and beyond the length when [n] is negative. *)
Theorem bitScan_out_of_range (b n : Z) :
  n < 0 \/ len (Sprintf_b b) < n -> bitScan b n = None.
Proof.
  intros H. unfold bitScan, slice_to.
  destruct (Z.ltb_spec (len (Sprintf_b b) - n) 0) as [?|?]; [reflexivity|].
  destruct (Z.ltb_spec (len (Sprintf_b b)) (len (Sprintf_b b) - n)) as [?|?]; [reflexivity|].
  lia.
Qed.

Lemma filter_none {A} (P : A -> Prop) `{!forall x, Decision (P x)} (l : list A) :
  (forall x, x ∈ l -> ~ P x) -> filter P l = [].
Proof.
  induction l as [|a l IH]; intros Hall; [reflexivity|].
  rewrite filter_cons_False by (apply Hall; left).
  apply IH. intros x Hx. apply Hall. right. exact Hx.
Qed.

Lemma filter_ext_in {A} (P Q : A -> Prop)
    `{!forall x, Decision (P x), !forall x, Decision (Q x)} (l : list A) :
  (forall x, x ∈ l -> P x <-> Q x) -> filter P l = filter Q l.
Proof.
  induction l as [|a l IH]; intros Hall; [reflexivity|].
  rewrite !filter_cons.
  rewrite IH by (intros x Hx; apply Hall; right; exact Hx).
  destruct (decide (P a)) as [p|p], (decide (Q a)) as [q|q]; try reflexivity.
  - exfalso. apply q, (Hall a); [left|exact p].
  - exfalso. apply p, (Hall a); [left|exact q].
Qed.

Lemma filter_all {A} (P : A -> Prop) `{!forall x, Decision (P x)} (l : list A) :
  (forall x, x ∈ l -> P x) -> filter P l = l.
Proof.
  induction l as [|a l IH]; intros Hall; [reflexivity|].
  rewrite filter_cons_True by (apply Hall; left).
  f_equal. apply IH. intros x Hx. apply Hall. right. exact Hx.
Qed.

Lemma set_bits_from_step (m n r : Z) :
  0 <= n <= r -> r < 64 -> Z.testbit m r = true ->
  (forall i, n <= i < r -> Z.testbit m i = false) ->
  filter (fun i => n <= i) (set_bits m)
  = r :: filter (fun i => r + 1 <= i) (set_bits m).
Proof.
  intros Hn Hr Hbit Hlow. unfold set_bits, all_squares.
  rewrite !list_filter_filter.
  replace 64 with (r + (64 - r)) by lia.
  rewrite seqZ_app by lia. rewrite (seqZ_cons (0 + r)) by lia.
  rewrite !filter_app. cbn [Z.add].
  rewrite (filter_none (fun x => n <= x /\ Z.testbit m x = true)).
  2:{ intros x Hx [Hx1 Hx2]. apply elem_of_seqZ in Hx.
      rewrite Hlow in Hx2 by lia. discriminate. }
  rewrite (filter_none (fun x => r + 1 <= x /\ Z.testbit m x = true)).
  2:{ intros x Hx [Hx1 Hx2]. apply elem_of_seqZ in Hx. lia. }
  rewrite (filter_cons_True (fun x => n <= x /\ Z.testbit m x = true))
    by (split; [lia|exact Hbit]).
  rewrite (filter_cons_False (fun x => r + 1 <= x /\ Z.testbit m x = true))
    by (intros [F _]; lia).
  cbn [app]. f_equal. apply filter_ext_in.
  intros x Hx. apply elem_of_seqZ in Hx. split; intros [H1 H2]; (split; [lia|exact H2]).
Qed.

Lemma set_bit_below_digits (b r : Z) :
  0 <= b -> 0 <= r -> Z.testbit b r = true -> r < len (Sprintf_b b).
Proof.
  intros Hb Hr Hbit. destruct b as [|p|p]; [| |lia].
  - rewrite Z.testbit_0_l in Hbit. discriminate.
  - rewrite Sprintf_b_pos. unfold len. rewrite length_bits_string.
    destruct (Z.lt_ge_cases r (Z.of_nat (length (pos_bits p)))) as [|Hge]; [assumption|].
    rewrite <- (Z2Nat.id r) in Hbit by lia.
    rewrite testbit_past_bits in Hbit by lia. discriminate.
Qed.

Lemma set_bit_below_64 (b r : Z) :
  0 <= b < 2 ^ 64 -> 0 <= r -> Z.testbit b r = true -> r < 64.
Proof.
  intros Hb Hr Hbit. destruct (Z.lt_ge_cases r 64) as [|Hge]; [assumption|].
  destruct (Z.eq_dec b 0) as [->|Hne]; [rewrite Z.testbit_0_l in Hbit; discriminate|].
  rewrite Z.bits_above_log2 in Hbit; [discriminate|lia|].
  assert (Z.log2 b < 64) by (apply Z.log2_lt_pow2; lia). lia.
Qed.

Lemma scan_from_set_bits (fuel : nat) (m n : Z) :
  0 <= m < 2 ^ 64 -> 0 <= n <= len (Sprintf_b m) -> n <= 64 ->
  65 - n <= Z.of_nat fuel ->
  scan_from fuel m n = Some (filter (fun i => n <= i) (set_bits m)).
Proof.
  revert n. induction fuel as [|fuel IH]; intros n Hm Hn Hn64 Hf; [lia|].
  cbn [scan_from].
  destruct (bitScan_in_range m n ltac:(lia) Hn) as (r & -> & [[-> Hnone] | (Hr & Hbit & Hlow)]).
  - cbn. f_equal. symmetry. apply filter_none.
    intros x Hx Hnx. unfold set_bits in Hx.
    apply list_elem_of_filter in Hx as [Hx _]. rewrite Hnone in Hx by lia. discriminate.
  - cbn [mbind option_bind].
    destruct (Z.eqb_spec r (-1)) as [?|_]; [lia|].
    pose proof (set_bit_below_64 m r Hm ltac:(lia) Hbit) as H64.
    pose proof (set_bit_below_digits m r ltac:(lia) ltac:(lia) Hbit) as Hlen.
    rewrite IH by lia. cbn [mbind option_bind]. f_equal.
    symmetry. apply set_bits_from_step; (lia || assumption).
Qed.

(** The scanning loop of the package visits the set bits of a [uint64]
    in increasing order and never faults: each start index [sq + 1] is at
    most the number of digits, because bit [sq] is set. *)
Theorem scan_squares_set_bits (m : Z) :
  0 <= m < 2 ^ 64 -> scan_squares m = Some (set_bits m).
Proof.
  intros Hm. unfold scan_squares.
  rewrite scan_from_set_bits; try lia.
  - f_equal. apply filter_all. intros x Hx. unfold set_bits in Hx.
    apply list_elem_of_filter in Hx as [_ Hx]. apply elem_of_seqZ in Hx. lia.
  - split; [lia|]. unfold len. lia.
Qed.


(** ** move.go *)

Lemma square_name_in (i : Z) : 0 <= i < 64 -> In (square_name i) SquareNames.
Proof.
  intros Hi. unfold square_name. apply nth_In.
  change (List.length SquareNames) with 64%nat. lia.
Qed.

Lemma fold_square_named_absent (s : string) (l : list Z) (acc : Z) :
  (forall i, In i l -> square_name i <> s) ->
  fold_left (fun square i => if String.eqb (square_name i) s then i else square) l acc = acc.
Proof.
  revert acc. induction l as [|i l IH]; intros acc H; simpl; [reflexivity|].
  destruct (String.eqb_spec (square_name i) s) as [E|E].
  - exfalso. apply (H i); [left; reflexivity | exact E].
  - apply IH. intros j Hj. apply H. right. exact Hj.
Qed.

Lemma In_all_squares (i : Z) : In i all_squares <-> 0 <= i < 64.
Proof.
  unfold all_squares. rewrite <- list_elem_of_In, elem_of_seqZ. lia.
Qed.

Lemma square_named_absent (s : string) : ~ In s SquareNames -> square_named s = 0.
Proof.
  intros H. unfold square_named. apply fold_square_named_absent.
  intros i Hi E. apply H. rewrite <- E. apply square_name_in.
  apply In_all_squares. exact Hi.
Qed.

Lemma square_named_name (i : Z) : 0 <= i < 64 -> square_named (square_name i) = i.
Proof.
  intros Hi. apply In_all_squares in Hi. revert i Hi.
  apply List.Forall_forall.
  let l := eval vm_compute in all_squares in change all_squares with l.
  repeat (apply List.Forall_cons; [vm_compute; reflexivity|]).
  apply List.Forall_nil.
Qed.

Lemma index_of_absent (s : string) (t : list string) (i : nat) :
  ~ In s t -> index_of s t i = None.
Proof.
  revert i. induction t as [|x t IH]; intros i H; simpl; [reflexivity|].
  destruct (String.eqb_spec x s) as [E|E].
  - exfalso. apply H. left. exact E.
  - apply IH. intros Hin. apply H. right. exact Hin.
Qed.

Lemma promotion_named_absent (c : ascii) :
  ~ In (String c EmptyString) PieceSymbols -> promotion_named c = NoPiece.
Proof.
  intros H. unfold promotion_named. rewrite index_of_absent by exact H. reflexivity.
Qed.

(** C10.  [MoveFromUci] answers [nil] exactly for ["0000"] and for
    strings whose length is neither 4 nor 5.  Every other string of 4 or 5
    bytes yields a move: its squares are looked up in the name table, a
    name that is not in the table gives square 0 ([A1]), and a fifth byte
    that is no piece letter gives no promotion.  No input is reported as
    an error. *)
Theorem MoveFromUci_nil_and_defaults (uci : string) :
  (MoveFromUci uci = None <-> uci = "0000"%string \/ (len uci <> 4 /\ len uci <> 5))
  /\ (forall m, MoveFromUci uci = Some m ->
        fromSquare m = square_named (substring 0 2 uci)
        /\ toSquare m = square_named (substring 2 2 uci)
        /\ (len uci = 4 -> promotion m = NoPiece)
        /\ (forall c, len uci = 5 -> get 4 uci = Some c -> promotion m = promotion_named c))
  /\ (forall s, ~ In s SquareNames -> square_named s = A1)
  /\ (forall i, 0 <= i < 64 -> square_named (square_name i) = i)
  /\ (forall c, ~ In (String c EmptyString) PieceSymbols -> promotion_named c = NoPiece).
Proof.
  split; [|split; [|split; [|split]]].
  - unfold MoveFromUci.
    destruct (String.eqb_spec uci "0000") as [E|E].
    + split; [intros _; left; exact E | reflexivity].
    + destruct (Z.eqb_spec (len uci) 4) as [E4|E4].
      * split; [discriminate | intros [H|[H _]]; contradiction].
      * destruct (Z.eqb_spec (len uci) 5) as [E5|E5].
        -- split; [discriminate | intros [H|[_ H]]; contradiction].
        -- split; [intros _; right; split; assumption | reflexivity].
  - intros m. unfold MoveFromUci.
    destruct (String.eqb_spec uci "0000") as [E|E]; [discriminate|].
    destruct (Z.eqb_spec (len uci) 4) as [E4|E4].
    + intros [= <-]. simpl. repeat split; try reflexivity. intros c H5. lia.
    + destruct (Z.eqb_spec (len uci) 5) as [E5|E5]; [|discriminate].
      intros [= <-]. simpl. repeat split; try reflexivity; [lia|].
      intros c _ ->. reflexivity.
  - exact square_named_absent.
  - exact square_named_name.
  - exact promotion_named_absent.
Qed.

Lemma MoveFromUci_nil_and_defaults_witness :
  MoveFromUci "e2e" = None /\ square_named "z9" = A1.
Proof.
  split.
  - apply (proj1 (MoveFromUci_nil_and_defaults "e2e")). right.
    vm_compute. split; discriminate.
  - apply (MoveFromUci_nil_and_defaults "e2e4"). intros H. vm_compute in H.
    repeat (destruct H as [H|H]; [discriminate|]). exact H.
Defined.

(** ** bitboard.go : parsing a FEN *)

Lemma error_result_same (b b' : Bitboard) (message e : string) :
  Some (b, Some message) = Some (b', Some e) -> b' = b.
Proof. intros H. injection H as H _. symmetry. exact H. Qed.

(** C5.  When [SetFen] returns an error, the position it leaves behind is
    the position it was given, whatever the input and whatever the
    castling pattern accepts: every [return] with an error comes before
    the first assignment ([b.Clear()]). *)
Theorem SetFen_error_leaves_position (matches : string -> bool) (fen : string)
    (b b' : Bitboard) (e : string) :
  SetFen matches fen b = Some (b', Some e) -> b' = b.
Proof.
  unfold SetFen.
  destruct (Fields fen) as [|p0 [|p1 [|p2 [|p3 [|p4 [|p5 [|x l]]]]]]].
  1-6, 8: apply error_result_same.
  destruct (negb _); [apply error_result_same|].
  destruct (check_rows _).
  2-4: apply error_result_same.
  do 4 (match goal with
        | |- (if ?c then _ else _) = _ -> _ => destruct c
        end; [apply error_result_same|]).
  destruct (Atoi p4) as [hm|]; [|apply error_result_same].
  destruct (hm <? 0); [apply error_result_same|].
  destruct (Atoi p5) as [fm|]; [|apply error_result_same].
  destruct (fm <? 0); [apply error_result_same|].
  destruct Clear as [b0|]; [|discriminate].
  cbn [mbind option_bind].
  destruct (place_pieces _ _ _) as [b1|]; [|discriminate].
  cbn [mbind option_bind]. discriminate.
Qed.

Lemma SetFen_error_leaves_position_witness :
  SetFen (fun _ => true) "8/8/8/8/8/8/8/7 w - - 0 1" blank_position
  = Some (blank_position,
          Some "expected 8 columns per row in position part of fen: '8/8/8/8/8/8/8/7 w - - 0 1'."%string)
  /\ blank_position = blank_position.
Proof.
  split; [vm_compute; reflexivity|].
  apply (SetFen_error_leaves_position (fun _ => true)
           "8/8/8/8/8/8/8/7 w - - 0 1" blank_position blank_position
           "expected 8 columns per row in position part of fen: '8/8/8/8/8/8/8/7 w - - 0 1'.").
  vm_compute. reflexivity.
Defined.

(** ** bitboard.go : making and unmaking moves *)


(** Reduction of the field assignments and field reads of a position. *)
Ltac fields :=
  cbv beta iota zeta delta
    [set_pawns set_knights set_bishops set_rooks set_queens set_kings
     set_occupiedCo set_occupied set_occupiedL90 set_occupiedL45
     set_occupiedR45 set_kingSquares set_pieces set_epSquare
     set_castlingRights set_turn set_fullMoveNumber set_halfMoveClock
     set_halfMoveClockStack set_capturedPieceStack set_castlingRightStack
     set_epSquareStack set_moveStack set_incrementalZobristHash
     set_transpositions
     pawns knights bishops rooks queens kings occupiedCo occupied
     occupiedL90 occupiedL45 occupiedR45 kingSquares pieces epSquare
     castlingRights turn fullMoveNumber halfMoveClock halfMoveClockStack
     capturedPieceStack castlingRightStack epSquareStack moveStack
     incrementalZobristHash transpositions
     Push Pop transpositions_add ZobristHash other].

Lemma count_of_insert (t : gmap Z Z) (h v : Z) : count_of (<[h := v]> t) h = v.
Proof. unfold count_of. rewrite lookup_insert_eq. reflexivity. Qed.

(** C6.  [Push] of the null move returns before the line that counts the
    new position, so it leaves the transposition table as it was, while
    [Pop] counts down before it looks at the move.  After a null [Push]
    and its [Pop] the count of the position with the turn passed is one
    less than before. *)
Theorem Push_null_does_not_count (b : Bitboard) :
  transpositions (Push None b) = transpositions b
  /\ exists b',
       Pop (Push None b) = Some (b', None)
       /\ count_of (transpositions b') (ZobristHash (Push None b))
          = count_of (transpositions b) (ZobristHash (Push None b)) - 1.
Proof.
  destruct b as [p n bi r q k oc o o90 o45l o45r ks ps ep cr t fm hm
                 s1 s2 s3 s4 s5 h tr].
  destruct t; fields.
  all: split; [reflexivity | eexists; split; [reflexivity|]].
  all: fields; apply count_of_insert.
Qed.

(** At the initial position the count of the position with Black to move
    goes from 0 to -1 over a null [Push] and its [Pop]. *)
Lemma Push_null_Pop_initial :
  exists b b',
    Reset = Some b /\ push_pop None b = Some b'
    /\ count_of (transpositions b) (ZobristHash (Push None b)) = 0
    /\ count_of (transpositions b') (ZobristHash (Push None b)) = -1.
Proof.
  do 2 eexists. split; [vm_compute; reflexivity|].
  split; [vm_compute; reflexivity|]. split; vm_compute; reflexivity.
Qed.

(** C3.  The tests on the squares are one chain of [else if]: a move from
    h1 stops at the test of h1, and the test of h8 is never made.  After
    the rook on h1 takes the rook on h8, Black still has the right to
    castle on the king side (rights [Qkq]). *)
Theorem Push_h1_h8_keeps_black_king_side :
  (forall p rights,
      revoke_castling (NewMove H1 H8 p) rights
      = Z.land rights (Z.lnot CastlingWhiteKingSide))
  /\ exists b,
       game open_h_file = Some b
       /\ Fen b = "rnbqkbnr/pppppp2/8/6p1/8/5N2/PPPPPPP1/RNBQKB1R w KQkq - 0 4"%string
       /\ legal_in (NewMove H1 H8 NoPiece) b = true
       /\ Z.land (castlingRights (Push (Some (NewMove H1 H8 NoPiece)) b))
                 CastlingBlackKingSide = CastlingBlackKingSide
       /\ Fen (Push (Some (NewMove H1 H8 NoPiece)) b)
          = "rnbqkbnR/pppppp2/8/6p1/8/5N2/PPPPPPP1/RNBQKB2 b Qkq - 0 4"%string.
Proof.
  split; [reflexivity|].
  eexists. split; [vm_compute; reflexivity|].
  repeat split; vm_compute; reflexivity.
Qed.

(** C1.  A position reached by legal moves in which [Push] and [Pop] do
    not cancel.  The right to castle that survived the capture on h8 (C3)
    lets Black castle with no rook on h8: [Push] puts a rook on f8, and
    [Pop] puts it "back" on h8, where there was none. *)
Theorem Push_Pop_castling_without_rook :
  exists b b',
    game rook_there_and_back = Some b
    /\ legal_in (NewMove E8 G8 NoPiece) b = true
    /\ push_pop (Some (NewMove E8 G8 NoPiece)) b = Some b'
    /\ Fen b = "rnbqk3/ppppppb1/5n2/6p1/8/P4N2/1PPPPPP1/RNBQKB1R b Qkq - 0 6"%string
    /\ Fen b' = "rnbqk2r/ppppppb1/5n2/6p1/8/P4N2/1PPPPPP1/RNBQKB1R b Qkq - 0 6"%string
    /\ Fen b' <> Fen b.
Proof.
  do 2 eexists. split; [vm_compute; reflexivity|].
  split; [vm_compute; reflexivity|].
  split; [vm_compute; reflexivity|].
  split; [vm_compute; reflexivity|].
  split; [vm_compute; reflexivity|].
  vm_compute. discriminate.
Qed.

(** ** bitboard.go : generating and counting moves *)

Lemma in_range_land_ones (x : Z) : in_range x -> Z.land x (Z.ones 64) = x.
Proof.
  intros H. rewrite Z.land_ones by lia. apply Z.mod_small. exact H.
Qed.

Lemma land_ones_in_range (x : Z) : in_range (Z.land x (Z.ones 64)).
Proof.
  unfold in_range. rewrite Z.land_ones by lia. apply Z.mod_pos_bound. reflexivity.
Qed.

Lemma land_in_range_l (x y : Z) : in_range x -> in_range (Z.land x y).
Proof.
  intros H. rewrite <- (in_range_land_ones x H).
  rewrite <- Z.land_assoc, (Z.land_comm (Z.ones 64)), Z.land_assoc.
  apply land_ones_in_range.
Qed.

Lemma land_in_range_r (x y : Z) : in_range y -> in_range (Z.land x y).
Proof. rewrite Z.land_comm. apply land_in_range_l. Qed.

Lemma u64_in_range (x : Z) : in_range (u64 x).
Proof. apply land_ones_in_range. Qed.

Lemma not64_in_range (x : Z) : in_range x -> in_range (not64 x).
Proof.
  intros H. unfold not64. change mask64 with (Z.ones 64).
  assert (E : Z.lxor x (Z.ones 64) = Z.land (Z.lxor x (Z.ones 64)) (Z.ones 64)).
  { apply Z.bits_inj'. intros i Hi. rewrite Z.land_spec, Z.lxor_spec.
    destruct (Z.testbit (Z.ones 64) i) eqn:Eo; [rewrite andb_true_r; reflexivity|].
    assert (Ex : Z.testbit x i = false).
    { rewrite <- (in_range_land_ones x H), Z.land_spec, Eo. apply andb_false_r. }
    rewrite Ex. reflexivity. }
  rewrite E. apply land_ones_in_range.
Qed.

Lemma shiftr_in_range (x n : Z) : 0 <= n -> in_range x -> in_range (Z.shiftr x n).
Proof.
  intros Hn [H0 H1]. rewrite Z.shiftr_div_pow2 by lia.
  assert (Hp : 0 < 2 ^ n) by (apply Z.pow_pos_nonneg; lia).
  split.
  - apply Z.div_pos; lia.
  - apply Z.le_lt_trans with x; [|exact H1].
    apply Z.div_le_upper_bound; [exact Hp|]. nia.
Qed.

Lemma popCount_length (m : Z) :
  in_range m -> popCount m = Z.of_nat (length (set_bits m)).
Proof. apply popCount_counts_set_bits. Qed.

(** The set bits of an intersection. *)
Lemma set_bits_land (a c : Z) :
  set_bits (Z.land a c) = filter (fun i => Z.testbit c i = true) (set_bits a).
Proof.
  unfold set_bits. rewrite list_filter_filter. apply list_filter_iff.
  intros i. rewrite Z.land_spec, andb_true_iff. tauto.
Qed.

Lemma rank_mask_test (last : Z) :
  last = 0 \/ last = 7 ->
  forall t, 0 <= t < 64 ->
    Z.testbit (BBRank last) t = (rankIndex t =? last).
Proof.
  intros Hl t Ht.
  assert (H : forallb (fun t => Bool.eqb (Z.testbit (BBRank last) t) (rankIndex t =? last))
                all_squares = true).
  { destruct Hl as [-> | ->]; vm_compute; reflexivity. }
  rewrite forallb_forall in H. apply eqb_prop, H.
  unfold all_squares. rewrite <- list_elem_of_In, elem_of_seqZ. lia.
Qed.

Lemma set_bits_bounds (m t : Z) : t ∈ set_bits m -> 0 <= t < 64.
Proof.
  unfold set_bits, all_squares. intros H.
  apply list_elem_of_filter in H as [_ H]. apply elem_of_seqZ in H. lia.
Qed.

Lemma length_bind_pawn_moves (last delta : Z) (tos : list Z) :
  length (t ← tos; pawn_moves_to last (t - delta) t)
  = (length tos + 3 * length (filter (fun t => (rankIndex t =? last)%Z = true) tos))%nat.
Proof.
  induction tos as [|t tos IH]; [reflexivity|].
  cbn [mbind list_bind]. rewrite length_app, IH, filter_cons.
  unfold pawn_moves_to. destruct (rankIndex t =? last) eqn:E; cbn [negb length].
  - rewrite decide_True by reflexivity. cbn [length]. lia.
  - rewrite decide_False by discriminate. lia.
Qed.

Lemma pawn_loop_length (last delta moves : Z) :
  last = 0 \/ last = 7 -> in_range moves ->
  exists l,
    pawn_loop last delta moves = Some l
    /\ Z.of_nat (length l)
       = popCount (Z.land moves (BBRank last)) * 3 + popCount moves.
Proof.
  intros Hl Hm. unfold pawn_loop. rewrite scan_squares_set_bits by exact Hm.
  cbn [mbind option_bind]. eexists. split; [reflexivity|].
  rewrite length_bind_pawn_moves.
  rewrite !popCount_length by (try apply land_in_range_l; exact Hm).
  rewrite set_bits_land.
  rewrite (filter_ext_in (fun i => Z.testbit (BBRank last) i = true)
             (fun t => (rankIndex t =? last) = true)).
  - lia.
  - intros t Ht. rewrite (rank_mask_test last Hl t (set_bits_bounds _ _ Ht)). tauto.
Qed.

Lemma double_push_loop_length (delta moves : Z) :
  in_range moves ->
  exists l,
    double_push_loop delta moves = Some l
    /\ Z.of_nat (length l) = popCount moves.
Proof.
  intros Hm. unfold double_push_loop. rewrite scan_squares_set_bits by exact Hm.
  cbn [mbind option_bind]. eexists. split; [reflexivity|].
  rewrite length_map, popCount_length by exact Hm. reflexivity.
Qed.

Lemma en_passant_loop_length (b : Bitboard) (attackers movers : Z) :
  in_range movers ->
  exists l,
    en_passant_loop b attackers movers = Some l
    /\ Z.of_nat (length l)
       = if 0 <? epSquare b then popCount (Z.land attackers movers) else 0.
Proof.
  intros Hm. unfold en_passant_loop. destruct (0 <? epSquare b).
  - rewrite scan_squares_set_bits by (apply land_in_range_r; exact Hm).
    cbn [mbind option_bind]. eexists. split; [reflexivity|].
    rewrite length_map, popCount_length by (apply land_in_range_r; exact Hm).
    reflexivity.
  - eexists. split; reflexivity.
Qed.

Lemma piece_moves_from_length (b : Bitboard) (attacks : Bitboard -> Z -> Z)
    (froms : list Z) (count : Z) :
  in_range (by_color (occupiedCo b) (turn b)) ->
  exists l,
    piece_moves_from b attacks froms = Some l
    /\ piece_count_from b attacks froms count = count + Z.of_nat (length l).
Proof.
  intros Hown. revert count. induction froms as [|f froms IH]; intros count.
  - exists []. split; [reflexivity|]. cbn. lia.
  - cbn [piece_moves_from piece_count_from].
    assert (Hr : in_range (Z.land (attacks b f) (not64 (by_color (occupiedCo b) (turn b))))).
    { apply land_in_range_r, not64_in_range, Hown. }
    rewrite scan_squares_set_bits by exact Hr. cbn [mbind option_bind].
    destruct (IH (count + popCount (Z.land (attacks b f)
                                      (not64 (by_color (occupiedCo b) (turn b))))))
      as (l & -> & E).
    cbn [mbind option_bind]. eexists. split; [reflexivity|].
    rewrite E, length_app, length_map, popCount_length by exact Hr. lia.
Qed.

Lemma piece_loop_length (b : Bitboard) (attacks : Bitboard -> Z -> Z)
    (kind count : Z) :
  in_range (by_color (occupiedCo b) (turn b)) ->
  exists l,
    piece_loop b attacks kind = Some l
    /\ piece_count b attacks kind count = Some (count + Z.of_nat (length l)).
Proof.
  intros Hown. unfold piece_loop, piece_count.
  rewrite scan_squares_set_bits by (apply land_in_range_r; exact Hown).
  cbn [mbind option_bind].
  destruct (piece_moves_from_length b attacks
              (set_bits (Z.land kind (by_color (occupiedCo b) (turn b)))) count Hown)
    as (l & -> & E).
  exists l. split; [reflexivity|]. rewrite E. reflexivity.
Qed.

Lemma king_moves_length (b : Bitboard) :
  in_range (by_color (occupiedCo b) (turn b)) ->
  exists l,
    king_moves b = Some l
    /\ Z.of_nat (length l)
       = popCount (Z.land (KingAttacksFrom b (by_color (kingSquares b) (turn b)))
                          (not64 (by_color (occupiedCo b) (turn b)))).
Proof.
  intros Hown. unfold king_moves.
  assert (Hr : in_range (Z.land (KingAttacksFrom b (by_color (kingSquares b) (turn b)))
                                (not64 (by_color (occupiedCo b) (turn b))))).
  { apply land_in_range_r, not64_in_range, Hown. }
  rewrite scan_squares_set_bits by exact Hr. cbn [mbind option_bind].
  eexists. split; [reflexivity|].
  rewrite length_map, popCount_length by exact Hr. reflexivity.
Qed.

Lemma castling_moves_length (b : Bitboard) :
  Z.of_nat (length (castling_moves b))
  = b2z (castling_short_ok b) + b2z (castling_long_ok b).
Proof.
  unfold castling_moves.
  destruct (turn b), (castling_short_ok b), (castling_long_ok b); reflexivity.
Qed.

(** The two routines on every position whose occupancy masks are
    [uint64] values: the generation does not fault, and the count is the
    number of generated moves with White to move, and that number less the
    single pawn pushes with Black to move. *)
Theorem PseudoLegalMoveCount_and_generated (b : Bitboard) :
  in_range (by_color (occupiedCo b) White) ->
  in_range (by_color (occupiedCo b) Black) ->
  exists ms,
    all_pseudo_legal b = Some ms
    /\ PseudoLegalMoveCount b
       = Some (Z.of_nat (length ms)
               - match turn b with
                 | White => 0
                 | Black => popCount (black_single_pushes b)
                 end).
Proof.
  intros HW HB.
  assert (Hown : in_range (by_color (occupiedCo b) (turn b))).
  { destruct (turn b); assumption. }
  unfold all_pseudo_legal, GeneratePseudoLegalMoves, PseudoLegalMoveCount, when.
  pose proof (castling_moves_length b) as Hc.
  assert (Hp : exists p,
             pawn_moves b = Some p
             /\ Z.of_nat (length p)
                - match turn b with
                  | White => 0
                  | Black => popCount (black_single_pushes b)
                  end
                = match turn b with
                  | White =>
                      let movers := Z.land (pawns b) (by_color (occupiedCo b) White) in
                      let count :=
                        if 0 <? epSquare b
                        then popCount (Z.land (BBPawnAttacks Black (epSquare b)) movers)
                        else 0 in
                      let moves := Z.land (shiftUpRight movers) (by_color (occupiedCo b) Black) in
                      let count := count + popCount (Z.land moves BBRank8) * 3 in
                      let count := count + popCount moves in
                      let moves := Z.land (shiftUpLeft movers) (by_color (occupiedCo b) Black) in
                      let count := count + popCount (Z.land moves BBRank8) * 3 in
                      let count := count + popCount moves in
                      let moves := Z.land (shiftUp movers) (not64 (occupied b)) in
                      let movers := moves in
                      let count := count + popCount (Z.land moves BBRank8) * 3 in
                      let count := count + popCount moves in
                      let moves := Z.land (Z.land (shiftUp movers) BBRank4) (not64 (occupied b)) in
                      count + popCount moves
                  | Black =>
                      let movers := Z.land (pawns b) (by_color (occupiedCo b) Black) in
                      let count :=
                        if 0 <? epSquare b
                        then popCount (Z.land (BBPawnAttacks White (epSquare b)) movers)
                        else 0 in
                      let moves := Z.land (shiftDownLeft movers) (by_color (occupiedCo b) White) in
                      let count := count + popCount (Z.land moves BBRank1) * 3 in
                      let count := count + popCount moves in
                      let moves := Z.land (shiftDownRight movers) (by_color (occupiedCo b) White) in
                      let count := count + popCount (Z.land moves BBRank1) * 3 in
                      let count := count + popCount moves in
                      let moves := Z.land (shiftDown movers) (not64 (occupied b)) in
                      let movers := moves in
                      let count := count + popCount (Z.land moves BBRank1) * 3 in
                      let moves := Z.land (Z.land (shiftDown movers) BBRank5) (not64 (occupied b)) in
                      count + popCount moves
                  end).
  { unfold pawn_moves, black_single_pushes. destruct (turn b); cbv zeta.
    - destruct (en_passant_loop_length b (BBPawnAttacks Black (epSquare b))
                  (Z.land (pawns b) (by_color (occupiedCo b) White))
                  (land_in_range_r _ _ HW)) as (l1 & -> & E1).
      destruct (pawn_loop_length 7 9
                  (Z.land (shiftUpRight (Z.land (pawns b) (by_color (occupiedCo b) White)))
                     (by_color (occupiedCo b) Black))
                  (or_intror eq_refl) (land_in_range_r _ _ HB)) as (l2 & -> & E2).
      destruct (pawn_loop_length 7 7
                  (Z.land (shiftUpLeft (Z.land (pawns b) (by_color (occupiedCo b) White)))
                     (by_color (occupiedCo b) Black))
                  (or_intror eq_refl) (land_in_range_r _ _ HB)) as (l3 & -> & E3).
      destruct (pawn_loop_length 7 8
                  (Z.land (shiftUp (Z.land (pawns b) (by_color (occupiedCo b) White)))
                     (not64 (occupied b)))
                  (or_intror eq_refl) (land_in_range_l _ _ (u64_in_range _)))
        as (l4 & -> & E4).
      destruct (double_push_loop_length 16
                  (Z.land (Z.land (shiftUp (Z.land (shiftUp (Z.land (pawns b)
                                     (by_color (occupiedCo b) White)))
                                     (not64 (occupied b)))) BBRank4)
                     (not64 (occupied b)))
                  (land_in_range_l _ _ (land_in_range_l _ _ (u64_in_range _))))
        as (l5 & -> & E5).
      cbn [mbind option_bind]. eexists. split; [reflexivity|].
      rewrite !length_app, !Nat2Z.inj_add, E1, E2, E3, E4, E5.
      change (BBRank 7) with BBRank8. lia.
    - assert (Hm : in_range (Z.land (pawns b) (by_color (occupiedCo b) Black)))
        by (apply land_in_range_r, HB).
      assert (Hs : in_range (Z.land (shiftDown (Z.land (pawns b)
                                        (by_color (occupiedCo b) Black)))
                               (not64 (occupied b)))).
      { apply land_in_range_l, shiftr_in_range; [lia|exact Hm]. }
      destruct (en_passant_loop_length b (BBPawnAttacks White (epSquare b))
                  (Z.land (pawns b) (by_color (occupiedCo b) Black)) Hm)
        as (l1 & -> & E1).
      destruct (pawn_loop_length 0 (-9)
                  (Z.land (shiftDownLeft (Z.land (pawns b) (by_color (occupiedCo b) Black)))
                     (by_color (occupiedCo b) White))
                  (or_introl eq_refl) (land_in_range_r _ _ HW)) as (l2 & -> & E2).
      destruct (pawn_loop_length 0 (-7)
                  (Z.land (shiftDownRight (Z.land (pawns b) (by_color (occupiedCo b) Black)))
                     (by_color (occupiedCo b) White))
                  (or_introl eq_refl) (land_in_range_r _ _ HW)) as (l3 & -> & E3).
      destruct (pawn_loop_length 0 (-8) _ (or_introl eq_refl) Hs) as (l4 & -> & E4).
      destruct (double_push_loop_length (-16)
                  (Z.land (Z.land (shiftDown (Z.land (shiftDown (Z.land (pawns b)
                                     (by_color (occupiedCo b) Black)))
                                     (not64 (occupied b)))) BBRank5)
                     (not64 (occupied b)))
                  (land_in_range_l _ _ (land_in_range_l _ _
                     (shiftr_in_range _ 8 ltac:(lia) Hs))))
        as (l5 & -> & E5).
      cbn [mbind option_bind]. eexists. split; [reflexivity|].
      rewrite !length_app, !Nat2Z.inj_add, E1, E2, E3, E4, E5.
      change (BBRank 0) with BBRank1. lia. }
  destruct Hp as (p & -> & Ep). cbn [mbind option_bind].
  set (count0 :=
         match turn b with
         | White => _
         | Black => _
         end).
  assert (E0 : count0 = b2z (castling_short_ok b) + b2z (castling_long_ok b)
                        + (Z.of_nat (length p)
                           - match turn b with
                             | White => 0
                             | Black => popCount (black_single_pushes b)
                             end)).
  { rewrite Ep. subst count0.
    destruct (turn b); cbv zeta; destruct (0 <? epSquare b); lia. }
  clearbody count0.
  destruct (piece_loop_length b KnightAttacksFrom (knights b) count0 Hown) as (n & -> & ->).
  cbn [mbind option_bind].
  destruct (piece_loop_length b BishopAttacksFrom (bishops b)
              (count0 + Z.of_nat (length n)) Hown) as (bi & -> & ->).
  cbn [mbind option_bind].
  destruct (piece_loop_length b RookAttacksFrom (rooks b)
              (count0 + Z.of_nat (length n) + Z.of_nat (length bi)) Hown) as (r & -> & ->).
  cbn [mbind option_bind].
  destruct (piece_loop_length b QueenAttacksFrom (queens b)
              (count0 + Z.of_nat (length n) + Z.of_nat (length bi) + Z.of_nat (length r))
              Hown) as (q & -> & ->).
  cbn [mbind option_bind].
  destruct (king_moves_length b Hown) as (k & -> & Ek).
  cbn [mbind option_bind]. eexists. split; [reflexivity|]. f_equal.
  rewrite <- Ek, !length_app, !Nat2Z.inj_add. lia.
Qed.

(** C2.  After 1. e4 Black has 20 pseudo-legal moves and
    [PseudoLegalMoveCount] answers 12: in the branch of Black the single
    pawn pushes are only counted for promotion (times 3), the line that
    adds [popCount(moves)] is missing, so the eight pushes are not
    counted.  With White to move the two agree
    ([PseudoLegalMoveCount_and_generated]). *)
Theorem PseudoLegalMoveCount_misses_black_pushes :
  exists b0 b,
    Reset = Some b0 /\ game ["e2e4"%string] = Some b
    /\ (length <$> all_pseudo_legal b0) = Some 20%nat
    /\ PseudoLegalMoveCount b0 = Some 20
    /\ (length <$> all_pseudo_legal b) = Some 20%nat
    /\ PseudoLegalMoveCount b = Some 12.
Proof.
  do 2 eexists. split; [vm_compute; reflexivity|].
  split; [vm_compute; reflexivity|].
  repeat split; vm_compute; reflexivity.
Qed.

(** C4.  [IsPseudoLegal] tests the right and the empty squares of a
    castling move and not the attacks.  With a black bishop on a6 that
    attacks f1, [GeneratePseudoLegalMoves] does not offer e1-g1, while
    [IsPseudoLegal] accepts it, and so does [IsLegal]. *)
Theorem IsPseudoLegal_castles_through_attack :
  exists b ms,
    game bishop_eyes_f1 = Some b
    /\ Fen b = "rn1qkbnr/p1pp1pp1/bp2p2p/8/4P3/5B1N/PPPP1PPP/RNBQK2R w KQkq - 0 5"%string
    /\ IsAttackedBy b Black F1 = true
    /\ all_pseudo_legal b = Some ms
    /\ (NewMove E1 G1 NoPiece ∉ ms)
    /\ IsPseudoLegal (Some (NewMove E1 G1 NoPiece)) b = true
    /\ (fst <$> IsLegal (Some (NewMove E1 G1 NoPiece)) b) = Some true.
Proof.
  do 2 eexists. split; [vm_compute; reflexivity|].
  split; [vm_compute; reflexivity|].
  split; [vm_compute; reflexivity|].
  split; [vm_compute; reflexivity|].
  split; [apply (proj1 (bool_decide_eq_false _)); vm_compute; reflexivity|].
  split; vm_compute; reflexivity.
Qed.

(** ** bitboard.go : repetition *)

(** C7, as the claim states it: along the knight moves the position of
    the start stands on the board for the third time after ply 8, and
    the claim has [CanClaimThreefoldRepitition] answer [false] at every
    earlier ply.  It answers [true] after ply 7. *)
Lemma threefold_claimed_before_third_occurrence :
  ~ (forall k, (k < 8)%nat -> claims_along knight_dance !! k = Some (Some false)).
Proof.
  intros H. specialize (H 7%nat ltac:(lia)). vm_compute in H. discriminate.
Qed.

(** C7, amended.  Along the knight moves the position on the board has
    occurred 1, 1, 1, 1, 2, 2, 2, 2, 3 times; the claim is refused after
    plies 0 to 6, granted after ply 7, when the side to move has a move
    that brings a position about for the third time, and granted after
    ply 8, when a position stands on the board for the third time.  A
    count of three is enough whatever the history: nothing is replayed. *)
Theorem threefold_claim_one_ply_ahead :
  occurrences_along knight_dance
  = [Some 1; Some 1; Some 1; Some 1; Some 2; Some 2; Some 2; Some 2; Some 3]
  /\ claims_along knight_dance
     = [Some false; Some false; Some false; Some false; Some false;
        Some false; Some false; Some true; Some true]
  /\ forall b,
       3 <= count_of (transpositions b) (ZobristHash b) ->
       CanClaimThreefoldRepitition b = Some (true, b).
Proof.
  split; [vm_compute; reflexivity|]. split; [vm_compute; reflexivity|].
  intros b H. unfold CanClaimThreefoldRepitition.
  apply Z.leb_le in H. rewrite H. reflexivity.
Qed.

Lemma threefold_claim_one_ply_ahead_witness :
  exists b,
    game knight_dance = Some b
    /\ 3 <= count_of (transpositions b) (ZobristHash b)
    /\ CanClaimThreefoldRepitition b = Some (true, b).
Proof.
  eexists. split; [vm_compute; reflexivity|].
  split; [vm_compute; discriminate|].
  apply (proj2 (proj2 threefold_claim_one_ply_ahead)).
  vm_compute. discriminate.
Defined.

(** ** bitboard.go : attacks *)

Lemma bits_le_of_land (a b : Z) : Z.land a b = a -> bits_le a b.
Proof.
  intros H i _ Ha. rewrite <- H in Ha. rewrite Z.land_spec in Ha.
  apply andb_true_iff in Ha. apply Ha.
Qed.

Lemma land_of_bits_le (a b : Z) : bits_le a b -> Z.land a b = a.
Proof.
  intros H. apply Z.bits_inj'. intros i Hi. rewrite Z.land_spec.
  destruct (Z.testbit a i) eqn:Ha; [|reflexivity].
  rewrite (H i Hi Ha). reflexivity.
Qed.

Lemma bits_le_trans (a b c : Z) : bits_le a b -> bits_le b c -> bits_le a c.
Proof. intros H1 H2 i Hi Ha. apply H2, H1; assumption. Qed.

Lemma bits_le_lor (a a' b b' : Z) :
  bits_le a a' -> bits_le b b' -> bits_le (Z.lor a b) (Z.lor a' b').
Proof.
  intros H1 H2 i Hi. rewrite !Z.lor_spec, !orb_true_iff.
  intros [H|H]; [left; apply H1 | right; apply H2]; assumption.
Qed.

Lemma land63_range (x : Z) : 0 <= Z.land x 63 < 64.
Proof.
  change 63 with (Z.ones 6). rewrite Z.land_ones by lia.
  apply Z.mod_pos_bound. reflexivity.
Qed.

Lemma for_squares_spec (P : Z -> bool) :
  for_squares P = true -> forall i, 0 <= i < 64 -> P i = true.
Proof.
  unfold for_squares. rewrite forallb_forall. intros H i Hi. apply H.
  unfold all_squares. rewrite <- list_elem_of_In, elem_of_seqZ. lia.
Qed.

Lemma subset_b_spec (a b : Z) : subset_b a b = true -> bits_le a b.
Proof. unfold subset_b. intros H. apply bits_le_of_land, Z.eqb_eq, H. Qed.

Lemma R45_adjacent : for_squares (fun s => for_squares (fun i =>
  subset_b (BBR45Attacks s 63) (BBR45Attacks s i) && (0 <=? BBR45Attacks s i))) = true.
Proof. vm_compute. reflexivity. Qed.
Lemma L45_adjacent : for_squares (fun s => for_squares (fun i =>
  subset_b (BBL45Attacks s 63) (BBL45Attacks s i) && (0 <=? BBL45Attacks s i))) = true.
Proof. vm_compute. reflexivity. Qed.
Lemma Rank_adjacent : for_squares (fun s => for_squares (fun i =>
  subset_b (BBRankAttacks s 63) (BBRankAttacks s i) && (0 <=? BBRankAttacks s i))) = true.
Proof. vm_compute. reflexivity. Qed.
Lemma File_adjacent : for_squares (fun s => for_squares (fun i =>
  subset_b (BBFileAttacks s 63) (BBFileAttacks s i) && (0 <=? BBFileAttacks s i))) = true.
Proof. vm_compute. reflexivity. Qed.

Lemma pawn_in_diagonals : for_squares (fun s =>
  subset_b (BBPawnAttacks White s) (Z.lor (BBR45Attacks s 63) (BBL45Attacks s 63))
  && subset_b (BBPawnAttacks Black s) (Z.lor (BBR45Attacks s 63) (BBL45Attacks s 63))
  && (0 <=? BBPawnAttacks White s) && (0 <=? BBPawnAttacks Black s)
  && (0 <=? BBKnightAttacks s) && (0 <=? BBKingAttacks s)
  && subset_b (BBKingAttacks s)
       (Z.lor (Z.lor (BBRankAttacks s 63) (BBFileAttacks s 63))
              (Z.lor (BBR45Attacks s 63) (BBL45Attacks s 63)))) = true.
Proof. vm_compute. reflexivity. Qed.

Lemma pos_iff_nonzero (x : Z) : 0 <= x -> ((0 <? x) = true <-> x <> 0).
Proof. intros H. rewrite Z.ltb_lt. lia. Qed.

Lemma land2_nonneg (t a own : Z) : 0 <= t -> 0 <= Z.land (Z.land t a) own.
Proof. intros H. apply Z.land_nonneg. left. apply Z.land_nonneg. left. exact H. Qed.

(** The two attack tests on arbitrary masks: [P], [N], [B], [R], [K] are
    the attack sets of the square as a pawn, knight, bishop, rook and king
    would see them. *)
Lemma attack_tests_agree (P N B R K p n bi r q k own : Z) :
  0 <= P -> 0 <= N -> 0 <= B -> 0 <= R -> 0 <= K ->
  bits_le P B -> bits_le K (Z.lor R B) ->
  (if 0 <? Z.land (Z.land P (Z.lor p bi)) own then true
   else if 0 <? Z.land (Z.land N n) own then true
   else if 0 <? Z.land (Z.land B (Z.lor bi q)) own then true
   else if 0 <? Z.land (Z.land R (Z.lor r q)) own then true
   else if 0 <? Z.land (Z.land K (Z.lor k q)) own then true
   else false) = true
  <->
  Z.land
    (Z.lor (Z.lor (Z.lor (Z.lor (Z.land P p) (Z.land N n))
                         (Z.land B (Z.lor bi q)))
                  (Z.land R (Z.lor r q)))
           (Z.land K k)) own <> 0.
Proof.
  intros HP HN HB HR HK HPB HKR.
  apply land_of_bits_le in HPB, HKR.
  set (X1 := Z.land (Z.land P (Z.lor p bi)) own).
  set (X2 := Z.land (Z.land N n) own).
  set (X3 := Z.land (Z.land B (Z.lor bi q)) own).
  set (X4 := Z.land (Z.land R (Z.lor r q)) own).
  set (X5 := Z.land (Z.land K (Z.lor k q)) own).
  assert (E : Z.lor X1 (Z.lor X2 (Z.lor X3 (Z.lor X4 X5)))
              = Z.land
                  (Z.lor (Z.lor (Z.lor (Z.lor (Z.land P p) (Z.land N n))
                                       (Z.land B (Z.lor bi q)))
                                (Z.land R (Z.lor r q)))
                         (Z.land K k)) own).
  { subst X1 X2 X3 X4 X5. rewrite <- HPB, <- HKR.
    apply Z.bits_inj'. intros i _.
    repeat (rewrite Z.lor_spec || rewrite Z.land_spec).
    repeat match goal with
           | |- context [Z.testbit ?a i] =>
               destruct (Z.testbit a i); cbn [andb orb]; try reflexivity
           end. }
  rewrite <- E.
  assert (H1 := pos_iff_nonzero X1 (land2_nonneg _ _ _ HP)).
  assert (H2 := pos_iff_nonzero X2 (land2_nonneg _ _ _ HN)).
  assert (H3 := pos_iff_nonzero X3 (land2_nonneg _ _ _ HB)).
  assert (H4 := pos_iff_nonzero X4 (land2_nonneg _ _ _ HR)).
  assert (H5 := pos_iff_nonzero X5 (land2_nonneg _ _ _ HK)).
  rewrite !Z.lor_eq_0_iff.
  destruct (0 <? X1); [split; [intros _; intros [F _]; apply H1; auto | reflexivity]|].
  destruct (0 <? X2); [split; [intros _; intros (_ & F & _); apply H2; auto | reflexivity]|].
  destruct (0 <? X3); [split; [intros _; intros (_ & _ & F & _); apply H3; auto | reflexivity]|].
  destruct (0 <? X4); [split; [intros _; intros (_ & _ & _ & F & _); apply H4; auto | reflexivity]|].
  destruct (0 <? X5); [split; [intros _; intros (_ & _ & _ & _ & F); apply H5; auto | reflexivity]|].
  split; [discriminate|]. intros F. exfalso. apply F.
  repeat split.
  - destruct (Z.eq_dec X1 0); [assumption|]. apply H1 in n0. discriminate.
  - destruct (Z.eq_dec X2 0); [assumption|]. apply H2 in n0. discriminate.
  - destruct (Z.eq_dec X3 0); [assumption|]. apply H3 in n0. discriminate.
  - destruct (Z.eq_dec X4 0); [assumption|]. apply H4 in n0. discriminate.
  - destruct (Z.eq_dec X5 0); [assumption|]. apply H5 in n0. discriminate.
Qed.

Lemma slider_facts (table : Z -> Z -> Z) :
  for_squares (fun s => for_squares (fun i =>
    subset_b (table s 63) (table s i) && (0 <=? table s i))) = true ->
  forall s x, 0 <= s < 64 ->
    bits_le (table s 63) (table s (Z.land x 63)) /\ 0 <= table s (Z.land x 63).
Proof.
  intros H s x Hs.
  pose proof (for_squares_spec _ (for_squares_spec _ H s Hs) _ (land63_range x)) as F.
  apply andb_true_iff in F as [F1 F2].
  split; [apply subset_b_spec, F1 | apply Z.leb_le, F2].
Qed.

(** C8.  For every position, colour and square, [IsAttackedBy] answers
    [true] exactly when [AttackerMask] is not zero.  The bishops that
    [IsAttackedBy] tests against the pawn mask and the queens it tests
    against the king mask stand next to the square, where the bishop and
    rook lookups find them whatever the occupancy. *)
Theorem IsAttackedBy_iff_AttackerMask (b : Bitboard) (c : Colors) (square : Z) :
  0 <= square < 64 ->
  (IsAttackedBy b c square = true <-> AttackerMask b c square <> 0).
Proof.
  intros Hs.
  pose proof (for_squares_spec _ pawn_in_diagonals square Hs) as F.
  cbv beta in F.
  apply andb_true_iff in F as [F FK]. apply andb_true_iff in F as [F NK].
  apply andb_true_iff in F as [F NN]. apply andb_true_iff in F as [F NPB].
  apply andb_true_iff in F as [F NPW]. apply andb_true_iff in F as [FPW FPB].
  apply Z.leb_le in NK, NN, NPB, NPW.
  apply subset_b_spec in FK, FPW, FPB.
  destruct (slider_facts _ R45_adjacent square
              (Z.shiftr (occupiedR45 b) (BBShiftR45 square)) Hs) as [S1 N1].
  destruct (slider_facts _ L45_adjacent square
              (Z.shiftr (occupiedL45 b) (BBShiftL45 square)) Hs) as [S2 N2].
  destruct (slider_facts _ Rank_adjacent square
              (Z.shiftr (occupied b) (Z.land square (Z.lnot 7) + 1)) Hs) as [S3 N3].
  destruct (slider_facts _ File_adjacent square
              (Z.shiftr (occupiedL90 b) (Z.shiftl (Z.land square 7) 3 + 1)) Hs) as [S4 N4].
  assert (HB : 0 <= BishopAttacksFrom b square).
  { apply Z.lor_nonneg. split; [exact N1 | exact N2]. }
  assert (HR : 0 <= RookAttacksFrom b square).
  { apply Z.lor_nonneg. split; [exact N3 | exact N4]. }
  assert (AB : bits_le (Z.lor (BBR45Attacks square 63) (BBL45Attacks square 63))
                       (BishopAttacksFrom b square)).
  { apply bits_le_lor; [exact S1 | exact S2]. }
  assert (AR : bits_le (Z.lor (BBRankAttacks square 63) (BBFileAttacks square 63))
                       (RookAttacksFrom b square)).
  { apply bits_le_lor; [exact S3 | exact S4]. }
  unfold IsAttackedBy, AttackerMask.
  apply attack_tests_agree.
  - destruct c; [exact NPB | exact NPW].
  - exact NN.
  - exact HB.
  - exact HR.
  - exact NK.
  - destruct c; (eapply bits_le_trans; [|exact AB]); [exact FPB | exact FPW].
  - eapply bits_le_trans; [exact FK|]. apply bits_le_lor; [exact AR | exact AB].
Qed.

Lemma IsAttackedBy_iff_AttackerMask_witness :
  0 <= E1 < 64
  /\ (IsAttackedBy blank_position Black E1 = true
      <-> AttackerMask blank_position Black E1 <> 0).
Proof.
  split; [unfold E1; lia|].
  apply (IsAttackedBy_iff_AttackerMask blank_position Black E1).
  unfold E1. lia.
Defined.

(** *** Bits of the square masks *)

Lemma BBSquares_pow2 (sq : Z) : 0 <= sq < 64 -> BBSquares sq = 2 ^ sq.
Proof.
  intros H. unfold BBSquares, shl64, u64. change mask64 with (Z.ones 64).
  rewrite Z.shiftl_1_l, Z.land_ones by lia. apply Z.mod_small.
  split; [apply Z.pow_nonneg; lia | apply Z.pow_lt_mono_r; lia].
Qed.

Lemma testbit_BBSquares (sq i : Z) :
  0 <= sq < 64 -> 0 <= i -> Z.testbit (BBSquares sq) i = (i =? sq).
Proof.
  intros Hs Hi. rewrite BBSquares_pow2 by exact Hs.
  rewrite Z.pow2_bits_eqb by lia. apply Z.eqb_sym.
Qed.

Lemma BBSquares_in_range (sq : Z) : in_range (BBSquares sq).
Proof. apply u64_in_range. Qed.

Lemma in_range_testbit_high (x i : Z) : in_range x -> 64 <= i -> Z.testbit x i = false.
Proof.
  intros Hx Hi. destruct (Z.testbit x i) eqn:E; [|reflexivity].
  pose proof (set_bit_below_64 x i Hx ltac:(lia) E). lia.
Qed.

Lemma in_range_bits_eq (x y : Z) :
  in_range x -> in_range y ->
  (forall i, 0 <= i < 64 -> Z.testbit x i = Z.testbit y i) -> x = y.
Proof.
  intros Hx Hy H. apply Z.bits_inj'. intros i Hi.
  destruct (Z.lt_ge_cases i 64) as [Hlt|Hge]; [apply H; lia|].
  rewrite !in_range_testbit_high by assumption. reflexivity.
Qed.

Lemma land_mask_test (x sq : Z) :
  0 <= sq < 64 -> (0 <? Z.land x (BBSquares sq)) = Z.testbit x sq.
Proof.
  intros Hs.
  assert (E : Z.land x (BBSquares sq) = if Z.testbit x sq then BBSquares sq else 0).
  { apply Z.bits_inj'. intros i Hi. rewrite Z.land_spec, testbit_BBSquares by lia.
    destruct (Z.eqb_spec i sq) as [->|Hne].
    - destruct (Z.testbit x sq); [rewrite testbit_BBSquares, Z.eqb_refl by lia; reflexivity|].
      rewrite Z.testbit_0_l. reflexivity.
    - rewrite andb_false_r. destruct (Z.testbit x sq).
      + rewrite testbit_BBSquares by lia. symmetry. apply Z.eqb_neq. exact Hne.
      + rewrite Z.testbit_0_l. reflexivity. }
  rewrite E. destruct (Z.testbit x sq); [|reflexivity].
  rewrite BBSquares_pow2 by exact Hs. apply Z.ltb_lt. apply Z.pow_pos_nonneg; lia.
Qed.

Lemma lxor_in_range (x y : Z) : in_range x -> in_range y -> in_range (Z.lxor x y).
Proof.
  intros Hx Hy. 
  assert (E : Z.lxor x y = Z.land (Z.lxor x y) (Z.ones 64)).
  { apply Z.bits_inj'. intros i Hi. rewrite Z.land_spec, Z.lxor_spec.
    destruct (Z.lt_ge_cases i 64) as [Hlt|Hge].
    - rewrite Z.ones_spec_low by lia. rewrite andb_true_r. reflexivity.
    - rewrite !in_range_testbit_high by assumption. reflexivity. }
  rewrite E. apply land_ones_in_range.
Qed.

Lemma lor_in_range (x y : Z) : in_range x -> in_range y -> in_range (Z.lor x y).
Proof.
  intros Hx Hy.
  assert (E : Z.lor x y = Z.land (Z.lor x y) (Z.ones 64)).
  { apply Z.bits_inj'. intros i Hi. rewrite Z.land_spec, Z.lor_spec.
    destruct (Z.lt_ge_cases i 64) as [Hlt|Hge].
    - rewrite Z.ones_spec_low by lia. rewrite andb_true_r. reflexivity.
    - rewrite !in_range_testbit_high by assumption. reflexivity. }
  rewrite E. apply land_ones_in_range.
Qed.

Lemma bit_spec_ext (x : Z) (P Q : Z -> bool) :
  bit_spec x P -> (forall i, 0 <= i < 64 -> P i = Q i) -> bit_spec x Q.
Proof.
  intros [Hr Hb] H. split; [exact Hr|]. intros i Hi. rewrite Hb, H by exact Hi.
  reflexivity.
Qed.

Lemma bit_spec_eq (x y : Z) (P Q : Z -> bool) :
  bit_spec x P -> bit_spec y Q -> (forall i, 0 <= i < 64 -> P i = Q i) -> x = y.
Proof.
  intros [Hx Hbx] [Hy Hby] H. apply in_range_bits_eq; try assumption.
  intros i Hi. rewrite Hbx, Hby, H by exact Hi. reflexivity.
Qed.

Lemma bit_spec_lxor (x : Z) (P : Z -> bool) (sq : Z) :
  bit_spec x P -> 0 <= sq < 64 ->
  bit_spec (Z.lxor x (BBSquares sq)) (fun i => xorb (P i) (i =? sq)).
Proof.
  intros [Hr Hb] Hs. split; [apply lxor_in_range; [exact Hr|apply BBSquares_in_range]|].
  intros i Hi. rewrite Z.lxor_spec, Hb, testbit_BBSquares by lia. reflexivity.
Qed.

Lemma bit_spec_lor (x : Z) (P : Z -> bool) (sq : Z) :
  bit_spec x P -> 0 <= sq < 64 ->
  bit_spec (Z.lor x (BBSquares sq)) (fun i => P i || (i =? sq)).
Proof.
  intros [Hr Hb] Hs. split; [apply lor_in_range; [exact Hr|apply BBSquares_in_range]|].
  intros i Hi. rewrite Z.lor_spec, Hb, testbit_BBSquares by lia. reflexivity.
Qed.

Lemma RemovePieceAt_empty (sq : Z) (b : Bitboard) :
  PieceTypeAt b sq = NoPiece -> RemovePieceAt sq b = b.
Proof. intros H. unfold RemovePieceAt. rewrite H. reflexivity. Qed.

Lemma RemovePieceAt_fields (sq : Z) (b : Bitboard) :
  PieceTypeAt b sq <> NoPiece ->
  let k := PieceTypeAt b sq in
  let mask := BBSquares sq in
  let c := color_of_mask b mask in
  RemovePieceAt sq b
  = mkBitboard
      (xor_if (PieceTypes_eqb k Pawn) (pawns b) mask)
      (xor_if (PieceTypes_eqb k Knight) (knights b) mask)
      (xor_if (PieceTypes_eqb k Bishop) (bishops b) mask)
      (xor_if (PieceTypes_eqb k Rook) (rooks b) mask)
      (xor_if (PieceTypes_eqb k Queen) (queens b) mask)
      (xor_if (PieceTypes_eqb k King) (kings b) mask)
      (set_color (occupiedCo b) c (Z.lxor (by_color (occupiedCo b) c) mask))
      (Z.lxor (occupied b) mask)
      (Z.lxor (occupiedL90 b) (BBSquares (SquaresL90 sq)))
      (Z.lxor (occupiedL45 b) (BBSquares (SquaresL45 sq)))
      (Z.lxor (occupiedR45 b) (BBSquares (SquaresR45 sq)))
      (kingSquares b)
      (<[Z.to_nat sq := NoPiece]> (pieces b))
      (epSquare b) (castlingRights b) (turn b) (fullMoveNumber b)
      (halfMoveClock b) (halfMoveClockStack b) (capturedPieceStack b)
      (castlingRightStack b) (epSquareStack b) (moveStack b)
      (Z.lxor (incrementalZobristHash b) (zobrist_term k c sq))
      (transpositions b).
Proof.
  intros H. cbv zeta. unfold RemovePieceAt.
  destruct (PieceTypeAt b sq); [contradiction| | | | | |]; destruct b; reflexivity.
Qed.

Lemma SetPieceAt_fields (sq : Z) (p : Piece) (b : Bitboard) :
  pieceType p <> NoPiece ->
  let b0 := RemovePieceAt sq b in
  let k := pieceType p in
  let mask := BBSquares sq in
  SetPieceAt sq p b
  = mkBitboard
      (or_if (PieceTypes_eqb k Pawn) (pawns b0) mask)
      (or_if (PieceTypes_eqb k Knight) (knights b0) mask)
      (or_if (PieceTypes_eqb k Bishop) (bishops b0) mask)
      (or_if (PieceTypes_eqb k Rook) (rooks b0) mask)
      (or_if (PieceTypes_eqb k Queen) (queens b0) mask)
      (or_if (PieceTypes_eqb k King) (kings b0) mask)
      (set_color (occupiedCo b0) (color p)
         (Z.lxor (by_color (occupiedCo b0) (color p)) mask))
      (Z.lxor (occupied b0) mask)
      (Z.lxor (occupiedL90 b0) (BBSquares (SquaresL90 sq)))
      (Z.lxor (occupiedL45 b0) (BBSquares (SquaresL45 sq)))
      (Z.lxor (occupiedR45 b0) (BBSquares (SquaresR45 sq)))
      (if PieceTypes_eqb k King then set_color (kingSquares b0) (color p) sq
       else kingSquares b0)
      (<[Z.to_nat sq := k]> (pieces b0))
      (epSquare b0) (castlingRights b0) (turn b0) (fullMoveNumber b0)
      (halfMoveClock b0) (halfMoveClockStack b0) (capturedPieceStack b0)
      (castlingRightStack b0) (epSquareStack b0) (moveStack b0)
      (Z.lxor (incrementalZobristHash b0) (zobrist_term k (color p) sq))
      (transpositions b0).
Proof.
  intros H. cbv zeta. unfold SetPieceAt.
  generalize (RemovePieceAt sq b) as b0. intros b0.
  destruct (pieceType p); [contradiction| | | | | |]; destruct b0; reflexivity.
Qed.

(** *** The piece cache after an assignment *)

Lemma PieceTypeAt_insert (b : Bitboard) (ps : list PieceTypes) (sq i : Z) (k : PieceTypes) :
  0 <= sq < 64 -> 0 <= i < 64 -> length ps = 64%nat ->
  nth (Z.to_nat i) (<[Z.to_nat sq := k]> ps) NoPiece
  = if i =? sq then k else nth (Z.to_nat i) ps NoPiece.
Proof.
  intros Hs Hi Hl. destruct (Z.eqb_spec i sq) as [->|Hne].
  - apply nth_lookup_Some. apply list_lookup_insert_eq. lia.
  - rewrite !nth_lookup. rewrite list_lookup_insert_ne by lia. reflexivity.
Qed.

Lemma PieceTypes_eqb_eq (a c : PieceTypes) : PieceTypes_eqb a c = true <-> a = c.
Proof. destruct a, c; cbn; split; intros H; (reflexivity || discriminate). Qed.

Lemma PieceTypes_eqb_refl (a : PieceTypes) : PieceTypes_eqb a a = true.
Proof. destruct a; reflexivity. Qed.

Lemma rotation_ok_spec (rot : Z -> Z) :
  rotation_ok rot = true ->
  forall i, 0 <= i < 64 ->
    0 <= rot i < 64 /\ forall j, 0 <= j < 64 -> (rot i =? rot j) = (i =? j).
Proof.
  unfold rotation_ok. rewrite forallb_forall. intros H i Hi.
  specialize (H i (proj2 (In_all_squares i) Hi)).
  apply andb_true_iff in H as [H1 H2]. apply andb_true_iff in H1 as [H0 H1].
  split; [lia|]. intros j Hj. rewrite forallb_forall in H2.
  apply eqb_prop, H2, In_all_squares, Hj.
Qed.

Lemma rotation_L90 : rotation_ok SquaresL90 = true.
Proof. vm_compute. reflexivity. Qed.
Lemma rotation_R45 : rotation_ok SquaresR45 = true.
Proof. vm_compute. reflexivity. Qed.
Lemma rotation_L45 : rotation_ok SquaresL45 = true.
Proof. vm_compute. reflexivity. Qed.

Lemma rotated_spec_lxor (view : Z) (rot : Z -> Z) (b b' : Bitboard) (sq : Z) :
  rotation_ok rot = true -> 0 <= sq < 64 ->
  rotated_spec view rot b ->
  (forall i, 0 <= i < 64 -> occupied_at b' i = xorb (occupied_at b i) (i =? sq)) ->
  rotated_spec (Z.lxor view (BBSquares (rot sq))) rot b'.
Proof.
  intros Hrot Hs [Hr Hb] H'. split.
  - apply lxor_in_range; [exact Hr|apply BBSquares_in_range].
  - intros i Hi. destruct (rotation_ok_spec rot Hrot i Hi) as [Hri Hinj].
    destruct (rotation_ok_spec rot Hrot sq Hs) as [Hrs _].
    rewrite Z.lxor_spec, Hb, testbit_BBSquares, Hinj, H' by lia. reflexivity.
Qed.

(** *** The hash terms after a change at one square *)

Lemma xor_terms_from (f : Z -> Z) (l : list Z) (h : Z) :
  fold_left (fun h i => Z.lxor h (f i)) l h = Z.lxor h (xor_terms f l).
Proof.
  unfold xor_terms. revert h. induction l as [|x l IH]; intros h; cbn [fold_left].
  - rewrite Z.lxor_0_r. reflexivity.
  - rewrite IH, (IH (Z.lxor 0 (f x))), Z.lxor_0_l, Z.lxor_assoc. reflexivity.
Qed.

Lemma xor_terms_cons (f : Z -> Z) (x : Z) (l : list Z) :
  xor_terms f (x :: l) = Z.lxor (f x) (xor_terms f l).
Proof.
  unfold xor_terms at 1. cbn [fold_left]. rewrite xor_terms_from, Z.lxor_0_l.
  reflexivity.
Qed.

Lemma xor_terms_ext (f g : Z -> Z) (l : list Z) :
  (forall i, In i l -> f i = g i) -> xor_terms f l = xor_terms g l.
Proof.
  induction l as [|x l IH]; intros H; [reflexivity|].
  rewrite !xor_terms_cons, H, IH; [reflexivity| |left; reflexivity].
  intros i Hi. apply H. right. exact Hi.
Qed.

Ltac xor_bits :=
  apply Z.bits_inj'; intros ? _; rewrite ?Z.lxor_spec, ?Z.bits_0;
  repeat match goal with
         | |- context [Z.testbit ?a ?i] => destruct (Z.testbit a i)
         end; reflexivity.

Lemma xor_terms_update (f g : Z -> Z) (l : list Z) (sq : Z) :
  List.NoDup l -> In sq l ->
  (forall i, In i l -> i <> sq -> g i = f i) ->
  xor_terms g l = Z.lxor (Z.lxor (xor_terms f l) (f sq)) (g sq).
Proof.
  induction l as [|x l IH]; intros Hnd Hin H; [destruct Hin|].
  rewrite !xor_terms_cons. inversion Hnd as [|? ? Hx Hnd']; subst.
  destruct Hin as [->|Hin].
  - rewrite (xor_terms_ext g f l).
    + xor_bits.
    + intros i Hi. apply H; [right; exact Hi|]. intros ->. contradiction.
  - rewrite IH; try assumption.
    + rewrite H; [|left; reflexivity|intros ->; contradiction]. xor_bits.
    + intros i Hi. apply H. right. exact Hi.
Qed.

Lemma NoDup_all_squares : List.NoDup all_squares.
Proof. apply NoDup_ListNoDup. apply NoDup_seqZ. Qed.

Lemma PieceAt_kind (b : Bitboard) (i : Z) :
  0 <= i < 64 ->
  PieceAt b i = piece_if (PieceTypeAt b i) (if black_at b i then Black else White).
Proof.
  intros Hi. unfold PieceAt, color_of_mask, black_at.
  rewrite land_mask_test by exact Hi.
  destruct (PieceTypeAt b i); reflexivity.
Qed.

Lemma consistent_black_occupied (b : Bitboard) (i : Z) :
  consistent b -> 0 <= i < 64 -> PieceTypeAt b i = NoPiece -> black_at b i = false.
Proof.
  intros Hc Hi Hk. destruct (c_black b Hc) as [_ Hb].
  specialize (Hb i Hi). unfold black_at in *. rewrite Hb.
  unfold occupied_at, kind_at. rewrite Hk. reflexivity.
Qed.

Lemma toggle_consistent (b b' : Bitboard) (sq : Z) (k : PieceTypes) (c : Colors)
    (newk : PieceTypes) :
  consistent b -> 0 <= sq < 64 -> k <> NoPiece ->
  (PieceTypeAt b sq = k /\ black_at b sq = is_black c /\ newk = NoPiece)
  \/ (PieceTypeAt b sq = NoPiece /\ newk = k) ->
  board_part b' = toggled b sq k c newk ->
  consistent b'
  /\ forall i, 0 <= i < 64 ->
       PieceAt b' i = if i =? sq then piece_if newk c else PieceAt b i.
Proof.
  intros Hc Hs Hk Hcase Hb'.
  unfold board_part, toggled in Hb'.
  injection Hb' as Ep En Eb Er Eq Ek Eco Eo E90 E45l E45r Eps Eh.
  assert (Hlen : length (pieces b) = 64%nat) by apply Hc.
  assert (HK : forall i, 0 <= i < 64 ->
             PieceTypeAt b' i = if i =? sq then newk else PieceTypeAt b i).
  { intros i Hi. unfold PieceTypeAt. rewrite Eps.
    apply (PieceTypeAt_insert b); assumption. }
  assert (Hold : black_at b sq = is_black c \/ PieceTypeAt b sq = NoPiece).
  { destruct Hcase as [(_ & H & _)|[H _]]; [left|right]; exact H. }
  assert (Hb0 : PieceTypeAt b sq = NoPiece -> black_at b sq = false).
  { apply consistent_black_occupied; assumption. }
  assert (HB : forall i, 0 <= i < 64 ->
             black_at b' i
             = if i =? sq then negb (PieceTypes_eqb newk NoPiece) && is_black c
               else black_at b i).
  { intros i Hi. unfold black_at. rewrite Eco.
    destruct (c_black b Hc) as [_ Hbb].
    destruct c; cbn [set_color by_color fst snd is_black].
    - destruct (Z.eqb_spec i sq) as [->|Hne]; [|reflexivity].
      rewrite andb_false_r.
      destruct Hcase as [(_ & H & _)|[H _]]; [exact H|apply Hb0, H].
    - rewrite Z.lxor_spec, testbit_BBSquares by lia.
      destruct (Z.eqb_spec i sq) as [->|Hne]; [|apply xorb_false_r].
      rewrite andb_true_r.
      destruct Hcase as [(_ & H & ->)|[H ->]].
      + unfold black_at in H. cbn [by_color] in H. rewrite H. reflexivity.
      + specialize (Hb0 H). unfold black_at in Hb0. cbn [by_color] in Hb0.
        rewrite Hb0. destruct k; [contradiction|..]; reflexivity. }
  assert (HO : forall i, 0 <= i < 64 ->
             occupied_at b' i = xorb (occupied_at b i) (i =? sq)).
  { intros i Hi. unfold occupied_at, kind_at. rewrite HK by exact Hi.
    destruct (Z.eqb_spec i sq) as [->|Hne]; [|rewrite xorb_false_r; reflexivity].
    destruct Hcase as [(H & _ & ->)|[H ->]]; rewrite H;
      destruct k; (contradiction || reflexivity). }
  assert (Hkind : forall k0 x x',
             k0 <> NoPiece -> bit_spec x (kind_at b k0) ->
             x' = xor_if (PieceTypes_eqb k k0) x (BBSquares sq) ->
             bit_spec x' (kind_at b' k0)).
  { intros k0 x x' Hk0 Hx ->. unfold xor_if.
    destruct (PieceTypes_eqb k k0) eqn:Ekk.
    - apply PieceTypes_eqb_eq in Ekk. subst k0.
      eapply bit_spec_ext; [apply bit_spec_lxor; eassumption|].
      intros i Hi. cbv beta. unfold kind_at. rewrite HK by exact Hi.
      destruct (Z.eqb_spec i sq) as [->|Hne]; [|apply xorb_false_r].
      destruct Hcase as [(H & _ & ->)|[H ->]]; rewrite H;
        destruct k; (contradiction || reflexivity).
    - eapply bit_spec_ext; [exact Hx|].
      intros i Hi. unfold kind_at. rewrite HK by exact Hi.
      destruct (Z.eqb_spec i sq) as [->|Hne]; [|reflexivity].
      destruct Hcase as [(H & _ & ->)|[H ->]]; rewrite H.
      + rewrite Ekk. destruct k0; (contradiction || reflexivity).
      + rewrite Ekk. destruct k0; (contradiction || reflexivity). }
  assert (HP : forall i, 0 <= i < 64 ->
             PieceAt b' i = if i =? sq then piece_if newk c else PieceAt b i).
  { intros i Hi. rewrite !PieceAt_kind, HK, HB by exact Hi.
    destruct (Z.eqb_spec i sq) as [->|Hne]; [|reflexivity].
    destruct newk, c; reflexivity. }
  split; [|exact HP].
  constructor.
  - rewrite Eps, length_insert. exact Hlen.
  - eapply Hkind; [discriminate|apply Hc|exact Ep].
  - eapply Hkind; [discriminate|apply Hc|exact En].
  - eapply Hkind; [discriminate|apply Hc|exact Eb].
  - eapply Hkind; [discriminate|apply Hc|exact Er].
  - eapply Hkind; [discriminate|apply Hc|exact Eq].
  - eapply Hkind; [discriminate|apply Hc|exact Ek].
  - rewrite Eo. eapply bit_spec_ext; [apply bit_spec_lxor; [apply Hc|exact Hs]|].
    intros i Hi. cbv beta. symmetry. apply HO, Hi.
  - rewrite Eco. destruct c; cbn [set_color by_color fst snd].
    + eapply bit_spec_ext; [apply bit_spec_lxor; [apply (c_white b Hc)|exact Hs]|].
      intros i Hi. cbv beta. rewrite HO, HB by exact Hi. cbn [is_black].
      destruct (Z.eqb_spec i sq) as [->|Hne];
        [|rewrite !xorb_false_r; reflexivity].
      rewrite andb_false_r. cbn [negb].
      destruct Hold as [H|H].
      * rewrite H. cbn. destruct (occupied_at b sq); reflexivity.
      * rewrite (Hb0 H). unfold occupied_at, kind_at. rewrite H. reflexivity.
    + eapply bit_spec_ext; [apply (c_white b Hc)|].
      intros i Hi. cbv beta. rewrite HO, HB by exact Hi. cbn [is_black].
      destruct (Z.eqb_spec i sq) as [->|Hne];
        [|rewrite !xorb_false_r; reflexivity].
      rewrite andb_true_r.
      destruct Hcase as [(H & Hbl & ->)|[H ->]].
      * rewrite Hbl. unfold occupied_at, kind_at. rewrite H.
        destruct k; (contradiction || reflexivity).
      * rewrite (Hb0 H). unfold occupied_at, kind_at. rewrite H.
        destruct k; (contradiction || reflexivity).
  - rewrite Eco. destruct c; cbn [set_color by_color fst snd].
    + eapply bit_spec_ext; [apply (c_black b Hc)|].
      intros i Hi. cbv beta. rewrite HO, HB by exact Hi. cbn [is_black].
      destruct (Z.eqb_spec i sq) as [->|Hne];
        [|rewrite !xorb_false_r; reflexivity].
      rewrite !andb_false_r.
      destruct Hold as [H|H].
      * rewrite H. apply andb_false_r.
      * rewrite (Hb0 H). apply andb_false_r.
    + eapply bit_spec_ext; [apply bit_spec_lxor; [apply (c_black b Hc)|exact Hs]|].
      intros i Hi. cbv beta. rewrite HO, HB by exact Hi. cbn [is_black].
      destruct (Z.eqb_spec i sq) as [->|Hne];
        [|rewrite !xorb_false_r; reflexivity].
      rewrite andb_true_r.
      destruct Hcase as [(H & Hbl & ->)|[H ->]].
      * rewrite Hbl. unfold occupied_at, kind_at. rewrite H.
        destruct k; (contradiction || reflexivity).
      * rewrite (Hb0 H). unfold occupied_at, kind_at. rewrite H.
        destruct k; (contradiction || reflexivity).
  - rewrite E90. eapply rotated_spec_lxor;
      [exact rotation_L90|exact Hs|apply Hc|exact HO].
  - rewrite E45r. eapply rotated_spec_lxor;
      [exact rotation_R45|exact Hs|apply Hc|exact HO].
  - rewrite E45l. eapply rotated_spec_lxor;
      [exact rotation_L45|exact Hs|apply Hc|exact HO].
  - rewrite Eh, (c_hash b Hc). unfold board_hash.
    rewrite (xor_terms_update (square_term b) (square_term b') all_squares sq
               NoDup_all_squares (proj2 (In_all_squares sq) Hs)).
    + unfold square_term. rewrite HP, Z.eqb_refl, PieceAt_kind by exact Hs.
      destruct Hcase as [(H & Hbl & ->)|[H ->]].
      * rewrite H, Hbl. cbn [piece_if].
        assert (E : (if is_black c then Black else White) = c) by (destruct c; reflexivity).
        rewrite E. destruct k; [contradiction|..]; cbn [piece_if pieceType color];
          xor_bits.
      * rewrite H. cbn [piece_if].
        destruct k; [contradiction|..]; cbn [piece_if pieceType color]; xor_bits.
    + intros i Hi Hne. unfold square_term.
      rewrite HP by (apply In_all_squares; exact Hi).
      destruct (Z.eqb_spec i sq); [contradiction|reflexivity].
Qed.

Lemma color_of_mask_black_at (b : Bitboard) (sq : Z) :
  0 <= sq < 64 ->
  color_of_mask b (BBSquares sq) = if black_at b sq then Black else White.
Proof.
  intros Hs. unfold color_of_mask, black_at. rewrite land_mask_test by exact Hs.
  reflexivity.
Qed.

Lemma lor_lxor_clear (x sq : Z) :
  0 <= sq < 64 -> Z.testbit x sq = false ->
  Z.lor x (BBSquares sq) = Z.lxor x (BBSquares sq).
Proof.
  intros Hs Hx. apply Z.bits_inj'. intros i Hi.
  rewrite Z.lor_spec, Z.lxor_spec.
  destruct (Z.ltb_spec i 64) as [Hlt|Hge].
  - rewrite testbit_BBSquares by lia.
    destruct (Z.eqb_spec i sq) as [->|_].
    + rewrite Hx. reflexivity.
    + rewrite orb_false_r, xorb_false_r. reflexivity.
  - rewrite (in_range_testbit_high (BBSquares sq)); [|apply BBSquares_in_range|lia].
    rewrite orb_false_r, xorb_false_r. reflexivity.
Qed.

Lemma PieceTypeAt_of_PieceAt_None (b : Bitboard) (sq : Z) :
  PieceAt b sq = None -> PieceTypeAt b sq = NoPiece.
Proof.
  unfold PieceAt. destruct (PieceTypeAt b sq); cbn; (reflexivity || discriminate).
Qed.

Lemma RemovePieceAt_state (sq : Z) (b : Bitboard) :
  state_part (RemovePieceAt sq b) = state_part b
  /\ kingSquares (RemovePieceAt sq b) = kingSquares b.
Proof.
  destruct (PieceTypes_eq_dec (PieceTypeAt b sq) NoPiece) as [E|E].
  - rewrite RemovePieceAt_empty by exact E. split; reflexivity.
  - rewrite (RemovePieceAt_fields sq b E). split; reflexivity.
Qed.

Lemma RemovePieceAt_keeps (sq : Z) (b : Bitboard) :
  consistent b -> 0 <= sq < 64 ->
  consistent (RemovePieceAt sq b)
  /\ forall i, 0 <= i < 64 ->
       PieceAt (RemovePieceAt sq b) i = if i =? sq then None else PieceAt b i.
Proof.
  intros Hc Hs.
  destruct (PieceTypes_eq_dec (PieceTypeAt b sq) NoPiece) as [E|E].
  - rewrite RemovePieceAt_empty by exact E. split; [exact Hc|].
    intros i Hi. destruct (Z.eqb_spec i sq) as [->|_]; [|reflexivity].
    rewrite PieceAt_kind, E by exact Hs. reflexivity.
  - apply (toggle_consistent b (RemovePieceAt sq b) sq (PieceTypeAt b sq)
             (color_of_mask b (BBSquares sq)) NoPiece Hc Hs E).
    + left. split; [reflexivity|]. split; [|reflexivity].
      rewrite color_of_mask_black_at by exact Hs.
      destruct (black_at b sq); reflexivity.
    + rewrite (RemovePieceAt_fields sq b E). reflexivity.
Qed.

Lemma SetPieceAt_state (sq : Z) (p : Piece) (b : Bitboard) :
  pieceType p <> NoPiece ->
  state_part (SetPieceAt sq p b) = state_part b
  /\ kingSquares (SetPieceAt sq p b)
     = if PieceTypes_eqb (pieceType p) King
       then set_color (kingSquares b) (color p) sq else kingSquares b.
Proof.
  intros Hp. rewrite (SetPieceAt_fields sq p b Hp).
  destruct (RemovePieceAt_state sq b) as [Hst Hks].
  split.
  - rewrite <- Hst. reflexivity.
  - cbn [kingSquares]. rewrite Hks. reflexivity.
Qed.

Lemma SetPieceAt_keeps (sq : Z) (p : Piece) (b : Bitboard) :
  consistent b -> 0 <= sq < 64 -> pieceType p <> NoPiece ->
  consistent (SetPieceAt sq p b)
  /\ forall i, 0 <= i < 64 ->
       PieceAt (SetPieceAt sq p b) i = if i =? sq then Some p else PieceAt b i.
Proof.
  intros Hc Hs Hp.
  destruct (RemovePieceAt_keeps sq b Hc Hs) as [Hc0 HP0].
  set (b0 := RemovePieceAt sq b) in *.
  assert (E0 : PieceTypeAt b0 sq = NoPiece).
  { apply PieceTypeAt_of_PieceAt_None. rewrite HP0 by exact Hs.
    rewrite Z.eqb_refl. reflexivity. }
  assert (Hclear : forall k0 x, bit_spec x (kind_at b0 k0) -> k0 <> NoPiece ->
             or_if (PieceTypes_eqb (pieceType p) k0) x (BBSquares sq)
             = xor_if (PieceTypes_eqb (pieceType p) k0) x (BBSquares sq)).
  { intros k0 x [_ Hx] Hk0. unfold or_if, xor_if.
    destruct (PieceTypes_eqb (pieceType p) k0); [|reflexivity].
    apply lor_lxor_clear; [exact Hs|].
    rewrite Hx by exact Hs. unfold kind_at. rewrite E0.
    destruct k0; (contradiction || reflexivity). }
  destruct (toggle_consistent b0 (SetPieceAt sq p b) sq (pieceType p) (color p)
              (pieceType p) Hc0 Hs Hp) as [Hc1 HP1].
  - right. split; [exact E0|reflexivity].
  - rewrite (SetPieceAt_fields sq p b Hp). fold b0.
    unfold board_part, toggled.
    cbn [pawns knights bishops rooks queens kings occupiedCo occupied occupiedL90
         occupiedL45 occupiedR45 pieces incrementalZobristHash].
    rewrite (Hclear Pawn _ (c_pawns b0 Hc0)) by discriminate.
    rewrite (Hclear Knight _ (c_knights b0 Hc0)) by discriminate.
    rewrite (Hclear Bishop _ (c_bishops b0 Hc0)) by discriminate.
    rewrite (Hclear Rook _ (c_rooks b0 Hc0)) by discriminate.
    rewrite (Hclear Queen _ (c_queens b0 Hc0)) by discriminate.
    rewrite (Hclear King _ (c_kings b0 Hc0)) by discriminate.
    reflexivity.
  - split; [exact Hc1|].
    intros i Hi. rewrite HP1, HP0 by exact Hi.
    destruct (Z.eqb_spec i sq) as [_|_]; [|reflexivity].
    destruct p as [k c]. cbn [pieceType color] in *.
    destruct k; (contradiction || reflexivity).
Qed.

Lemma forallb_all_squares (P : Z -> bool) :
  forallb P all_squares = true -> forall i, 0 <= i < 64 -> P i = true.
Proof.
  intros H i Hi. rewrite forallb_forall in H. apply H.
  apply In_all_squares. exact Hi.
Qed.

Lemma bit_spec_b_sound (x : Z) (P : Z -> bool) :
  bit_spec_b x P = true -> bit_spec x P.
Proof.
  unfold bit_spec_b. rewrite !andb_true_iff. intros [[H0 H1] H].
  split; [unfold in_range; lia|].
  intros i Hi. apply eqb_prop. exact (forallb_all_squares _ H i Hi).
Qed.

Lemma rotated_spec_b_sound (view : Z) (rot : Z -> Z) (b : Bitboard) :
  rotated_spec_b view rot b = true -> rotated_spec view rot b.
Proof.
  unfold rotated_spec_b. rewrite !andb_true_iff. intros [[H0 H1] H].
  split; [unfold in_range; lia|].
  intros i Hi. apply eqb_prop. exact (forallb_all_squares _ H i Hi).
Qed.

Lemma consistent_b_sound (b : Bitboard) : consistent_b b = true -> consistent b.
Proof.
  unfold consistent_b. rewrite !andb_true_iff.
  intros [[[[[[[[[[[[[H1 H2] H3] H4] H5] H6] H7] H8] H9] H10] H11] H12] H13] H14].
  constructor; try (apply bit_spec_b_sound; assumption);
    try (apply rotated_spec_b_sound; assumption).
  - apply Nat.eqb_eq. exact H1.
  - apply Z.eqb_eq. exact H14.
Qed.

Lemma Reset_consistent : exists b, Reset = Some b /\ consistent b.
Proof.
  eexists. split; [vm_compute; reflexivity|].
  apply consistent_b_sound. vm_compute. reflexivity.
Qed.

Lemma Clear_consistent : exists b, Clear = Some b /\ consistent b.
Proof.
  eexists. split; [vm_compute; reflexivity|].
  apply consistent_b_sound. vm_compute. reflexivity.
Qed.

(** *** The hash from scratch *)

Lemma xor_terms_filter (f : Z -> Z) (t : Z -> bool) (l : list Z) :
  xor_terms f (filter (fun i => t i = true) l)
  = xor_terms (fun i => if t i then f i else 0) l.
Proof.
  induction l as [|x l IH]; [reflexivity|].
  rewrite filter_cons. destruct (decide (t x = true)) as [E|E].
  - rewrite !xor_terms_cons, IH, E. reflexivity.
  - rewrite xor_terms_cons, IH. apply not_true_is_false in E. rewrite E.
    rewrite Z.lxor_0_l. reflexivity.
Qed.

Lemma xor_terms_lxor (f g : Z -> Z) (l : list Z) :
  Z.lxor (xor_terms f l) (xor_terms g l) = xor_terms (fun i => Z.lxor (f i) (g i)) l.
Proof.
  induction l as [|x l IH]; [reflexivity|].
  rewrite !xor_terms_cons, <- IH. xor_bits.
Qed.

(* X6 *)
Lemma all_kinds_complete (p : PieceTypes) : In p all_kinds.
Proof. destruct p; simpl; auto 10. Qed.

Lemma Uci_round_trip_check :
  forallb (fun f => forallb (fun t => forallb (fun p =>
    bool_decide (MoveFromUci (Uci (Some (NewMove f t p))) = Some (NewMove f t p)))
    all_kinds) all_squares) all_squares = true.
Proof. vm_compute. reflexivity. Qed.

Lemma st_RemovePieceAt sq b st : has_state st b -> has_state st (RemovePieceAt sq b).
Proof. unfold has_state. intros <-. apply RemovePieceAt_state. Qed.

Lemma SetPieceAt_state_part (sq : Z) (p : Piece) (b : Bitboard) :
  state_part (SetPieceAt sq p b) = state_part b.
Proof.
  destruct (RemovePieceAt_state sq b) as [<- _].
  unfold SetPieceAt. generalize (RemovePieceAt sq b) as b0. intros b0.
  destruct (pieceType p); destruct b0; reflexivity.
Qed.

Lemma st_SetPieceAt sq p b st : has_state st b -> has_state st (SetPieceAt sq p b).
Proof. unfold has_state. intros <-. apply SetPieceAt_state_part. Qed.

Lemma st_castling_rook_out m b st : has_state st b -> has_state st (castling_rook_out m b).
Proof.
  intros H. unfold castling_rook_out.
  repeat match goal with |- has_state _ (if ?c then _ else _) => destruct c end;
    try exact H; apply st_RemovePieceAt, st_SetPieceAt, H.
Qed.

Lemma st_castling_rook_back m b st : has_state st b -> has_state st (castling_rook_back m b).
Proof.
  intros H. unfold castling_rook_back.
  repeat match goal with |- has_state _ (if ?c then _ else _) => destruct c end;
    try exact H; apply st_SetPieceAt, st_RemovePieceAt, H.
Qed.

Section Setters.
Variables (ep cr : Z) (t : Colors) (fm hm : Z) (hms : list Z) (cps : list PieceTypes)
  (crs eps : list Z) (ms : list (option Move)) (tr : gmap Z Z) (b : Bitboard).
Hypothesis H : has_state (ep, cr, t, fm, hm, hms, cps, crs, eps, ms, tr) b.

Ltac setter := revert H; unfold has_state; destruct b; cbn; intros [= -> -> -> -> -> -> -> -> -> -> ->]; reflexivity.

Lemma st_set_epSquare v :
  has_state (v, cr, t, fm, hm, hms, cps, crs, eps, ms, tr) (set_epSquare v b).
Proof. setter. Qed.
Lemma st_set_castlingRights v :
  has_state (ep, v, t, fm, hm, hms, cps, crs, eps, ms, tr) (set_castlingRights v b).
Proof. setter. Qed.
Lemma st_set_turn v :
  has_state (ep, cr, v, fm, hm, hms, cps, crs, eps, ms, tr) (set_turn v b).
Proof. setter. Qed.
Lemma st_set_fullMoveNumber v :
  has_state (ep, cr, t, v, hm, hms, cps, crs, eps, ms, tr) (set_fullMoveNumber v b).
Proof. setter. Qed.
Lemma st_set_halfMoveClock v :
  has_state (ep, cr, t, fm, v, hms, cps, crs, eps, ms, tr) (set_halfMoveClock v b).
Proof. setter. Qed.
Lemma st_set_halfMoveClockStack v :
  has_state (ep, cr, t, fm, hm, v, cps, crs, eps, ms, tr) (set_halfMoveClockStack v b).
Proof. setter. Qed.
Lemma st_set_capturedPieceStack v :
  has_state (ep, cr, t, fm, hm, hms, v, crs, eps, ms, tr) (set_capturedPieceStack v b).
Proof. setter. Qed.
Lemma st_set_castlingRightStack v :
  has_state (ep, cr, t, fm, hm, hms, cps, v, eps, ms, tr) (set_castlingRightStack v b).
Proof. setter. Qed.
Lemma st_set_epSquareStack v :
  has_state (ep, cr, t, fm, hm, hms, cps, crs, v, ms, tr) (set_epSquareStack v b).
Proof. setter. Qed.
Lemma st_set_moveStack v :
  has_state (ep, cr, t, fm, hm, hms, cps, crs, eps, v, tr) (set_moveStack v b).
Proof. setter. Qed.
Lemma st_transpositions_add h d :
  has_state (ep, cr, t, fm, hm, hms, cps, crs, eps, ms, <[h := count_of tr h + d]> tr)
    (transpositions_add h d b).
Proof. setter. Qed.

Lemma st_fields :
  epSquare b = ep /\ castlingRights b = cr /\ turn b = t /\ fullMoveNumber b = fm
  /\ halfMoveClock b = hm /\ halfMoveClockStack b = hms /\ capturedPieceStack b = cps
  /\ castlingRightStack b = crs /\ epSquareStack b = eps /\ moveStack b = ms
  /\ transpositions b = tr.
Proof.
  revert H. unfold has_state, state_part. intros [= -> -> -> -> -> -> -> -> -> -> ->].
  repeat split.
Qed.
End Setters.

Lemma has_state_refl (b : Bitboard) :
  has_state (epSquare b, castlingRights b, turn b, fullMoveNumber b, halfMoveClock b,
             halfMoveClockStack b, capturedPieceStack b, castlingRightStack b,
             epSquareStack b, moveStack b, transpositions b) b.
Proof. reflexivity. Qed.

(** Stepping through the assignments of a routine. *)
Ltac read_state H :=
  let E := fresh "E" in
  pose proof (st_fields _ _ _ _ _ _ _ _ _ _ _ _ H) as E;
  let E1 := fresh "E" in let E2 := fresh "E" in let E3 := fresh "E" in
  let E4 := fresh "E" in let E5 := fresh "E" in let E6 := fresh "E" in
  let E7 := fresh "E" in let E8 := fresh "E" in let E9 := fresh "E" in
  let E10 := fresh "E" in let E11 := fresh "E" in
  destruct E as (E1 & E2 & E3 & E4 & E5 & E6 & E7 & E8 & E9 & E10 & E11);
  rewrite ?E1, ?E2, ?E3, ?E4, ?E5, ?E6, ?E7, ?E8, ?E9, ?E10, ?E11;
  clear E1 E2 E3 E4 E5 E6 E7 E8 E9 E10 E11.

Ltac state_of :=
  lazymatch goal with
  | |- has_state _ (RemovePieceAt _ _) => eapply st_RemovePieceAt
  | |- has_state _ (SetPieceAt _ _ _) => eapply st_SetPieceAt
  | |- has_state _ (castling_rook_out _ _) => eapply st_castling_rook_out
  | |- has_state _ (castling_rook_back _ _) => eapply st_castling_rook_back
  | |- has_state _ (set_epSquare _ _) => eapply st_set_epSquare
  | |- has_state _ (set_castlingRights _ _) => eapply st_set_castlingRights
  | |- has_state _ (set_turn _ _) => eapply st_set_turn
  | |- has_state _ (set_fullMoveNumber _ _) => eapply st_set_fullMoveNumber
  | |- has_state _ (set_halfMoveClock _ _) => eapply st_set_halfMoveClock
  | |- has_state _ (set_halfMoveClockStack _ _) => eapply st_set_halfMoveClockStack
  | |- has_state _ (set_capturedPieceStack _ _) => eapply st_set_capturedPieceStack
  | |- has_state _ (set_castlingRightStack _ _) => eapply st_set_castlingRightStack
  | |- has_state _ (set_epSquareStack _ _) => eapply st_set_epSquareStack
  | |- has_state _ (set_moveStack _ _) => eapply st_set_moveStack
  | |- has_state _ (transpositions_add _ _ _) => eapply st_transpositions_add
  end.

(** The state after a nest of tests whose branches leave it alone. *)
Ltac frame_state H :=
  lazymatch goal with
  | |- has_state _ (if ?c then _ else _) => destruct c; frame_state H
  | |- has_state _ (SetPieceAt _ _ _) => eapply st_SetPieceAt; frame_state H
  | |- has_state _ (RemovePieceAt _ _) => eapply st_RemovePieceAt; frame_state H
  | |- has_state _ (castling_rook_out _ _) => eapply st_castling_rook_out; frame_state H
  | |- has_state _ (castling_rook_back _ _) => eapply st_castling_rook_back; frame_state H
  | |- _ => exact H
  end.

Tactic Notation "step_let" ident(y) :=
  lazymatch goal with
  | |- ?P ?s (let x := ?v in @?F x) =>
      pose (y := v); change (P s (F y)); cbv beta
  end.

(** One assignment [b := op b]: the state of the new [b]. *)
Tactic Notation "step_state" hyp(H) ident(y) ident(H') :=
  read_state H;
  lazymatch goal with
  | |- ?P ?s (let x := ?v in @?F x) =>
      pose (y := v); change (P s (F y)); cbv beta;
      eassert (H' : has_state _ y);
      [ subst y; state_of; exact H | clearbody y ]
  end.

Lemma ZobristHash_frame (b b' : Bitboard) :
  board_part b' = board_part b -> epSquare b' = epSquare b ->
  castlingRights b' = castlingRights b -> turn b' = turn b ->
  ZobristHash b' = ZobristHash b.
Proof.
  unfold board_part. intros [= Ep _ _ _ _ _ Eco _ _ _ _ _ Eh] Ee Ec Et.
  unfold ZobristHash. rewrite Ep, Eco, Eh, Ee, Ec, Et. reflexivity.
Qed.

Lemma Push_state (move : option Move) (b : Bitboard) : pushed b move (Push move b).
Proof.
  pose proof (has_state_refl b) as H.
  cbv beta delta [Push].
  step_let x.
  assert (H0 : has_state (epSquare b, castlingRights b, turn b,
                          match turn b with Black => fullMoveNumber b + 1
                                       | White => fullMoveNumber b end,
                          halfMoveClock b, halfMoveClockStack b, capturedPieceStack b,
                          castlingRightStack b, epSquareStack b, moveStack b,
                          transpositions b) x).
  { subst x. destruct (turn b); [exact H|]. eapply st_set_fullMoveNumber, H. }
  assert (Ecap : forall sq, PieceTypeAt x sq = PieceTypeAt b sq).
  { intros sq. subst x. destruct (turn b); reflexivity. }
  clearbody x. clear H.
  step_let cap.
  assert (Ex0 : cap = match move with Some m => PieceTypeAt b (toSquare m) | None => NoPiece end).
  { subst cap. destruct move; [apply Ecap|reflexivity]. }
  clearbody cap. subst cap. clear Ecap.
  step_state H0 b1 H1. step_state H1 b2 H2. step_state H2 b3 H3. step_state H3 b4 H4.
  step_state H4 b5 H5.
  clear - H5.
  destruct move as [m|]; cbv iota.
  - step_let k. clearbody k.
    step_let b6.
    assert (H6 : exists hm, has_state
              (epSquare b, castlingRights b, turn b,
               match turn b with Black => fullMoveNumber b + 1 | White => fullMoveNumber b end,
               hm, halfMoveClock b :: halfMoveClockStack b,
               PieceTypeAt b (toSquare m) :: capturedPieceStack b,
               castlingRights b :: castlingRightStack b,
               epSquare b :: epSquareStack b, Some m :: moveStack b, transpositions b) b6).
    { subst b6.
      match goal with |- context [if ?c || ?d then _ else _] => destruct (c || d) end;
        eexists; eapply st_set_halfMoveClock, H5. }
    clearbody b6. clear H5. destruct H6 as [hm H6].
    step_let k'. clearbody k'.
    step_state H6 b7 H7. step_state H7 b8 H8.
    step_let b9.
    assert (H9 : exists ep, has_state
              (ep, castlingRights b, turn b,
               match turn b with Black => fullMoveNumber b + 1 | White => fullMoveNumber b end,
               hm, halfMoveClock b :: halfMoveClockStack b,
               PieceTypeAt b (toSquare m) :: capturedPieceStack b,
               castlingRights b :: castlingRightStack b,
               epSquare b :: epSquareStack b, Some m :: moveStack b, transpositions b) b9).
    { subst b9. cbv zeta.
      repeat match goal with
             | |- context [if ?c then _ else _] => destruct c
             | |- context [match turn ?y with White => _ | Black => _ end] => destruct (turn y)
             end;
        eexists;
        first [ exact H8
              | eapply st_RemovePieceAt, H8
              | eapply st_set_epSquare, H8
              | eapply st_set_epSquare, st_RemovePieceAt, H8 ]. }
    clearbody b9. clear H6 H7 H8. destruct H9 as [ep H9].
    step_state H9 b10 H10.
    step_let b11.
    assert (H11 : has_state
              (ep, revoke_castling m (castlingRights b), turn b,
               match turn b with Black => fullMoveNumber b + 1 | White => fullMoveNumber b end,
               hm, halfMoveClock b :: halfMoveClockStack b,
               PieceTypeAt b (toSquare m) :: capturedPieceStack b,
               castlingRights b :: castlingRightStack b,
               epSquare b :: epSquareStack b, Some m :: moveStack b, transpositions b) b11).
    { subst b11. frame_state H10. }
    clearbody b11.
    step_state H11 b12 H12. step_state H12 b13 H13.
    read_state H13. exists ep, hm.
    assert (E : ZobristHash (transpositions_add (ZobristHash b13) 1 b13) = ZobristHash b13).
    { apply ZobristHash_frame; reflexivity. }
    rewrite E. eapply st_transpositions_add, H13.
  - step_state H5 b6 H6. step_state H6 b7 H7. read_state H7.
    exists 0. eexists. eapply st_set_halfMoveClock. exact H7.
Qed.


Lemma count_of_insert_same (t : gmap Z Z) (h v : Z) : count_of (<[h := v]> t) h = v.
Proof. unfold count_of. rewrite lookup_insert_eq. reflexivity. Qed.


(** *** A consistent position is determined by its pieces *)

Lemma rotation_onto_spec (rot : Z -> Z) :
  rotation_onto rot = true ->
  forall j, 0 <= j < 64 -> exists i, 0 <= i < 64 /\ rot i = j.
Proof.
  unfold rotation_onto. rewrite forallb_forall. intros H j Hj.
  specialize (H j (proj2 (In_all_squares j) Hj)).
  apply existsb_exists in H as (i & Hi & E).
  exists i. split; [apply In_all_squares, Hi|lia].
Qed.

Lemma onto_L90 : rotation_onto SquaresL90 = true.
Proof. vm_compute. reflexivity. Qed.
Lemma onto_R45 : rotation_onto SquaresR45 = true.
Proof. vm_compute. reflexivity. Qed.
Lemma onto_L45 : rotation_onto SquaresL45 = true.
Proof. vm_compute. reflexivity. Qed.

Lemma rotated_spec_eq (x y : Z) (rot : Z -> Z) (b1 b2 : Bitboard) :
  rotation_onto rot = true ->
  rotated_spec x rot b1 -> rotated_spec y rot b2 ->
  (forall i, 0 <= i < 64 -> occupied_at b1 i = occupied_at b2 i) -> x = y.
Proof.
  intros Hrot [Hx Hbx] [Hy Hby] H. apply in_range_bits_eq; try assumption.
  intros j Hj. destruct (rotation_onto_spec rot Hrot j Hj) as (i & Hi & <-).
  rewrite Hbx, Hby, H by exact Hi. reflexivity.
Qed.

Lemma piece_if_kind (k k' : PieceTypes) (c c' : Colors) :
  piece_if k c = piece_if k' c' -> k = k'.
Proof. destruct k, k'; cbn; intros [=]; reflexivity. Qed.

Lemma PieceAt_PieceTypeAt (b1 b2 : Bitboard) (i : Z) :
  0 <= i < 64 -> PieceAt b1 i = PieceAt b2 i -> PieceTypeAt b1 i = PieceTypeAt b2 i.
Proof.
  intros Hi. rewrite !PieceAt_kind by exact Hi. apply piece_if_kind.
Qed.

Lemma PieceAt_black_at (b1 b2 : Bitboard) (i : Z) :
  consistent b1 -> consistent b2 -> 0 <= i < 64 ->
  PieceAt b1 i = PieceAt b2 i -> black_at b1 i = black_at b2 i.
Proof.
  intros H1 H2 Hi E.
  pose proof (PieceAt_PieceTypeAt b1 b2 i Hi E) as Ek.
  rewrite !PieceAt_kind in E by exact Hi. rewrite <- Ek in E.
  destruct (PieceTypeAt b1 i) eqn:K.
  - rewrite (consistent_black_occupied b1 i H1 Hi K).
    rewrite (consistent_black_occupied b2 i H2 Hi); [reflexivity|]. rewrite <- Ek. reflexivity.
  - cbn in E. destruct (black_at b1 i), (black_at b2 i); (reflexivity || discriminate).
  - cbn in E. destruct (black_at b1 i), (black_at b2 i); (reflexivity || discriminate).
  - cbn in E. destruct (black_at b1 i), (black_at b2 i); (reflexivity || discriminate).
  - cbn in E. destruct (black_at b1 i), (black_at b2 i); (reflexivity || discriminate).
  - cbn in E. destruct (black_at b1 i), (black_at b2 i); (reflexivity || discriminate).
  - cbn in E. destruct (black_at b1 i), (black_at b2 i); (reflexivity || discriminate).
Qed.

Lemma consistent_determined (b1 b2 : Bitboard) :
  consistent b1 -> consistent b2 ->
  (forall i, 0 <= i < 64 -> PieceAt b1 i = PieceAt b2 i) ->
  board_part b1 = board_part b2.
Proof.
  intros H1 H2 H.
  assert (HK : forall i, 0 <= i < 64 -> PieceTypeAt b1 i = PieceTypeAt b2 i).
  { intros i Hi. apply PieceAt_PieceTypeAt; [exact Hi|apply H, Hi]. }
  assert (Hk : forall k i, 0 <= i < 64 -> kind_at b1 k i = kind_at b2 k i).
  { intros k i Hi. unfold kind_at. rewrite HK by exact Hi. reflexivity. }
  assert (Ho : forall i, 0 <= i < 64 -> occupied_at b1 i = occupied_at b2 i).
  { intros i Hi. unfold occupied_at. rewrite Hk by exact Hi. reflexivity. }
  assert (Hb : forall i, 0 <= i < 64 -> black_at b1 i = black_at b2 i).
  { intros i Hi. apply PieceAt_black_at; try assumption. apply H, Hi. }
  assert (Eps : pieces b1 = pieces b2).
  { apply (List.nth_ext _ _ NoPiece NoPiece).
    - rewrite (c_length b1 H1), (c_length b2 H2). reflexivity.
    - intros n Hn. rewrite (c_length b1 H1) in Hn.
      specialize (HK (Z.of_nat n) ltac:(lia)). unfold PieceTypeAt in HK.
      rewrite Nat2Z.id in HK. exact HK. }
  assert (Ew : by_color (occupiedCo b1) White = by_color (occupiedCo b2) White).
  { eapply bit_spec_eq; [apply (c_white b1 H1)|apply (c_white b2 H2)|].
    intros i Hi. cbv beta. rewrite Ho, Hb by exact Hi. reflexivity. }
  assert (Eb : by_color (occupiedCo b1) Black = by_color (occupiedCo b2) Black).
  { eapply bit_spec_eq; [apply (c_black b1 H1)|apply (c_black b2 H2)|].
    intros i Hi. cbv beta. rewrite Ho, Hb by exact Hi. reflexivity. }
  unfold board_part.
  rewrite (bit_spec_eq _ _ _ _ (c_pawns b1 H1) (c_pawns b2 H2) (Hk Pawn)).
  rewrite (bit_spec_eq _ _ _ _ (c_knights b1 H1) (c_knights b2 H2) (Hk Knight)).
  rewrite (bit_spec_eq _ _ _ _ (c_bishops b1 H1) (c_bishops b2 H2) (Hk Bishop)).
  rewrite (bit_spec_eq _ _ _ _ (c_rooks b1 H1) (c_rooks b2 H2) (Hk Rook)).
  rewrite (bit_spec_eq _ _ _ _ (c_queens b1 H1) (c_queens b2 H2) (Hk Queen)).
  rewrite (bit_spec_eq _ _ _ _ (c_kings b1 H1) (c_kings b2 H2) (Hk King)).
  rewrite (bit_spec_eq _ _ _ _ (c_occupied b1 H1) (c_occupied b2 H2) Ho).
  rewrite (rotated_spec_eq _ _ _ _ _ onto_L90 (c_L90 b1 H1) (c_L90 b2 H2) Ho).
  rewrite (rotated_spec_eq _ _ _ _ _ onto_R45 (c_R45 b1 H1) (c_R45 b2 H2) Ho).
  rewrite (rotated_spec_eq _ _ _ _ _ onto_L45 (c_L45 b1 H1) (c_L45 b2 H2) Ho).
  rewrite Eps, (c_hash b1 H1), (c_hash b2 H2).
  assert (Eco : occupiedCo b1 = occupiedCo b2).
  { destruct (occupiedCo b1), (occupiedCo b2). cbn in Ew, Eb. subst. reflexivity. }
  rewrite Eco.
  assert (Eh : board_hash b1 = board_hash b2).
  { unfold board_hash. apply xor_terms_ext. intros i Hi. unfold square_term.
    rewrite H by (apply In_all_squares, Hi). reflexivity. }
  rewrite Eh. reflexivity.
Qed.

Lemma Bitboard_ext (b1 b2 : Bitboard) :
  board_part b1 = board_part b2 -> kingSquares b1 = kingSquares b2 ->
  state_part b1 = state_part b2 -> b1 = b2.
Proof.
  destruct b1, b2. unfold board_part, state_part. cbn.
  intros [= -> -> -> -> -> -> -> -> -> -> -> -> ->] -> [= -> -> -> -> -> -> -> -> -> -> ->].
  reflexivity.
Qed.

(** *** The view through the operations *)

Lemma PieceAt_board (b b' : Bitboard) (i : Z) :
  board_part b' = board_part b -> PieceAt b' i = PieceAt b i.
Proof.
  unfold board_part. intros [= _ _ _ _ _ _ Eco _ _ _ _ Eps _].
  unfold PieceAt, color_of_mask, PieceTypeAt. rewrite Eco, Eps. reflexivity.
Qed.

Lemma consistent_board (b b' : Bitboard) :
  board_part b' = board_part b -> consistent b -> consistent b'.
Proof.
  intros E H. pose proof E as E'. unfold board_part in E'.
  injection E' as Ep En Eb Er Eq Ek Eco Eo E90 E45l E45r Eps Eh.
  assert (HK : forall k i, kind_at b k i = kind_at b' k i).
  { intros k i. unfold kind_at, PieceTypeAt. rewrite Eps. reflexivity. }
  assert (HO : forall i, occupied_at b i = occupied_at b' i).
  { intros i. unfold occupied_at. rewrite HK. reflexivity. }
  assert (HB : forall i, black_at b i = black_at b' i).
  { intros i. unfold black_at. rewrite Eco. reflexivity. }
  constructor.
  - rewrite Eps. apply H.
  - rewrite Ep. eapply bit_spec_ext; [apply (c_pawns b H)|]. intros; apply HK.
  - rewrite En. eapply bit_spec_ext; [apply (c_knights b H)|]. intros; apply HK.
  - rewrite Eb. eapply bit_spec_ext; [apply (c_bishops b H)|]. intros; apply HK.
  - rewrite Er. eapply bit_spec_ext; [apply (c_rooks b H)|]. intros; apply HK.
  - rewrite Eq. eapply bit_spec_ext; [apply (c_queens b H)|]. intros; apply HK.
  - rewrite Ek. eapply bit_spec_ext; [apply (c_kings b H)|]. intros; apply HK.
  - rewrite Eo. eapply bit_spec_ext; [apply (c_occupied b H)|]. intros; apply HO.
  - rewrite Eco. eapply bit_spec_ext; [apply (c_white b H)|].
    intros i _. cbv beta. rewrite HO, HB. reflexivity.
  - rewrite Eco. eapply bit_spec_ext; [apply (c_black b H)|].
    intros i _. cbv beta. rewrite HO, HB. reflexivity.
  - rewrite E90. destruct (c_L90 b H) as [Hr Hb]. split; [exact Hr|].
    intros i Hi. rewrite <- HO. apply Hb, Hi.
  - rewrite E45r. destruct (c_R45 b H) as [Hr Hb]. split; [exact Hr|].
    intros i Hi. rewrite <- HO. apply Hb, Hi.
  - rewrite E45l. destruct (c_L45 b H) as [Hr Hb]. split; [exact Hr|].
    intros i Hi. rewrite <- HO. apply Hb, Hi.
  - rewrite Eh, (c_hash b H). unfold board_hash. apply xor_terms_ext.
    intros i _. unfold square_term. rewrite (PieceAt_board b b' i E). reflexivity.
Qed.

Lemma view_board (g : Z -> option Piece) (ks : Z * Z) (b b' : Bitboard) :
  board_part b' = board_part b -> kingSquares b' = kingSquares b ->
  view g ks b -> view g ks b'.
Proof.
  intros Eb Ek (Hc & Hp & Hk). split; [|split].
  - eapply consistent_board; eassumption.
  - intros i Hi. rewrite (PieceAt_board b b' i Eb). apply Hp, Hi.
  - rewrite Ek. exact Hk.
Qed.

Lemma view_refl (b : Bitboard) : consistent b -> view (PieceAt b) (kingSquares b) b.
Proof. intros H. split; [exact H|]. split; [reflexivity|reflexivity]. Qed.

Lemma view_ext (g g' : Z -> option Piece) (ks : Z * Z) (b : Bitboard) :
  view g ks b -> (forall i, 0 <= i < 64 -> g i = g' i) -> view g' ks b.
Proof.
  intros (Hc & Hp & Hk) H. split; [exact Hc|]. split; [|exact Hk].
  intros i Hi. rewrite Hp, H by exact Hi. reflexivity.
Qed.

Lemma view_RemovePieceAt g ks sq b :
  view g ks b -> 0 <= sq < 64 -> view (upd g sq None) ks (RemovePieceAt sq b).
Proof.
  intros (Hc & Hp & Hk) Hs.
  destruct (RemovePieceAt_keeps sq b Hc Hs) as [Hc' Hp'].
  split; [exact Hc'|]. split.
  - intros i Hi. rewrite Hp' by exact Hi. unfold upd.
    destruct (i =? sq); [reflexivity|apply Hp, Hi].
  - rewrite (proj2 (RemovePieceAt_state sq b)). exact Hk.
Qed.

Lemma view_SetPieceAt g ks sq p b :
  view g ks b -> 0 <= sq < 64 -> pieceType p <> NoPiece ->
  view (upd g sq (Some p))
       (if PieceTypes_eqb (pieceType p) King then set_color ks (color p) sq else ks)
       (SetPieceAt sq p b).
Proof.
  intros (Hc & Hp & Hk) Hs Hne.
  destruct (SetPieceAt_keeps sq p b Hc Hs Hne) as [Hc' Hp'].
  split; [exact Hc'|]. split.
  - intros i Hi. rewrite Hp' by exact Hi. unfold upd.
    destruct (i =? sq); [reflexivity|apply Hp, Hi].
  - rewrite (proj2 (SetPieceAt_state sq p b Hne)), Hk. reflexivity.
Qed.

Section ViewSetters.
Variables (g : Z -> option Piece) (ks : Z * Z) (b : Bitboard).
Hypothesis H : view g ks b.

Ltac vsetter := revert H; apply view_board; reflexivity.

Lemma view_set_epSquare v : view g ks (set_epSquare v b).
Proof. vsetter. Qed.
Lemma view_set_castlingRights v : view g ks (set_castlingRights v b).
Proof. vsetter. Qed.
Lemma view_set_turn v : view g ks (set_turn v b).
Proof. vsetter. Qed.
Lemma view_set_fullMoveNumber v : view g ks (set_fullMoveNumber v b).
Proof. vsetter. Qed.
Lemma view_set_halfMoveClock v : view g ks (set_halfMoveClock v b).
Proof. vsetter. Qed.
Lemma view_set_halfMoveClockStack v : view g ks (set_halfMoveClockStack v b).
Proof. vsetter. Qed.
Lemma view_set_capturedPieceStack v : view g ks (set_capturedPieceStack v b).
Proof. vsetter. Qed.
Lemma view_set_castlingRightStack v : view g ks (set_castlingRightStack v b).
Proof. vsetter. Qed.
Lemma view_set_epSquareStack v : view g ks (set_epSquareStack v b).
Proof. vsetter. Qed.
Lemma view_set_moveStack v : view g ks (set_moveStack v b).
Proof. vsetter. Qed.
Lemma view_transpositions_add h d : view g ks (transpositions_add h d b).
Proof. vsetter. Qed.

Lemma view_kind sq : 0 <= sq < 64 -> PieceTypeAt b sq = kind_of (g sq).
Proof.
  intros Hs. destruct H as (Hc & Hp & _). rewrite <- Hp by exact Hs.
  rewrite PieceAt_kind by exact Hs. destruct (PieceTypeAt b sq); reflexivity.
Qed.

Lemma view_empty sq :
  0 <= sq < 64 -> (Z.land (occupied b) (BBSquares sq) =? 0) = is_none (g sq).
Proof.
  intros Hs. destruct H as (Hc & Hp & _).
  pose proof (land_mask_test (occupied b) sq Hs) as E.
  destruct (c_occupied b Hc) as [[Hr0 _] Ho]. rewrite Ho in E by exact Hs.
  assert (Hn : 0 <= Z.land (occupied b) (BBSquares sq)).
  { apply Z.land_nonneg. left. exact Hr0. }
  rewrite <- Hp by exact Hs. rewrite PieceAt_kind by exact Hs.
  unfold occupied_at, kind_at in E.
  destruct (PieceTypeAt b sq); cbn in E |- *;
    destruct (Z.eqb_spec (Z.land (occupied b) (BBSquares sq)) 0);
    destruct (Z.ltb_spec 0 (Z.land (occupied b) (BBSquares sq)));
    (reflexivity || discriminate || lia).
Qed.
End ViewSetters.

(** *** [Push] on the view *)

Lemma view_SetPieceAt_other g ks sq p b :
  view g ks b -> 0 <= sq < 64 -> pieceType p <> NoPiece -> pieceType p <> King ->
  view (upd g sq (Some p)) ks (SetPieceAt sq p b).
Proof.
  intros H Hs Hn Hk. pose proof (view_SetPieceAt g ks sq p b H Hs Hn) as H'.
  destruct (PieceTypes_eqb (pieceType p) King) eqn:E; [|exact H'].
  apply PieceTypes_eqb_eq in E. contradiction.
Qed.

Lemma view_castling_rook_out g ks m b :
  view g ks b -> view (rook_out m g) ks (castling_rook_out m b).
Proof.
  intros H. unfold rook_out, castling_rook_out.
  destruct ((fromSquare m =? E1) && (toSquare m =? G1)).
  { apply view_RemovePieceAt; [|unfold H1; lia].
    apply view_SetPieceAt_other; [exact H|unfold F1; lia|discriminate|discriminate]. }
  destruct ((fromSquare m =? E1) && (toSquare m =? C1)).
  { apply view_RemovePieceAt; [|unfold A1; lia].
    apply view_SetPieceAt_other; [exact H|unfold D1; lia|discriminate|discriminate]. }
  destruct ((fromSquare m =? E8) && (toSquare m =? G8)).
  { apply view_RemovePieceAt; [|unfold H8; lia].
    apply view_SetPieceAt_other; [exact H|unfold F8; lia|discriminate|discriminate]. }
  destruct ((fromSquare m =? E8) && (toSquare m =? C8)).
  { apply view_RemovePieceAt; [|unfold A8; lia].
    apply view_SetPieceAt_other; [exact H|unfold D8; lia|discriminate|discriminate]. }
  exact H.
Qed.

Lemma view_castling_rook_back g ks m b :
  view g ks b -> view (rook_back m g) ks (castling_rook_back m b).
Proof.
  intros H. unfold rook_back, castling_rook_back.
  destruct ((fromSquare m =? E1) && (toSquare m =? G1)).
  { apply view_SetPieceAt_other; [|unfold H1; lia|discriminate|discriminate].
    apply view_RemovePieceAt; [exact H|unfold F1; lia]. }
  destruct ((fromSquare m =? E1) && (toSquare m =? C1)).
  { apply view_SetPieceAt_other; [|unfold A1; lia|discriminate|discriminate].
    apply view_RemovePieceAt; [exact H|unfold D1; lia]. }
  destruct ((fromSquare m =? E8) && (toSquare m =? G8)).
  { apply view_SetPieceAt_other; [|unfold H8; lia|discriminate|discriminate].
    apply view_RemovePieceAt; [exact H|unfold F8; lia]. }
  destruct ((fromSquare m =? E8) && (toSquare m =? C8)).
  { apply view_SetPieceAt_other; [|unfold A8; lia|discriminate|discriminate].
    apply view_RemovePieceAt; [exact H|unfold D8; lia]. }
  exact H.
Qed.

Ltac view_of :=
  lazymatch goal with
  | |- view _ _ (set_epSquare _ _) => eapply view_set_epSquare
  | |- view _ _ (set_castlingRights _ _) => eapply view_set_castlingRights
  | |- view _ _ (set_turn _ _) => eapply view_set_turn
  | |- view _ _ (set_fullMoveNumber _ _) => eapply view_set_fullMoveNumber
  | |- view _ _ (set_halfMoveClock _ _) => eapply view_set_halfMoveClock
  | |- view _ _ (set_halfMoveClockStack _ _) => eapply view_set_halfMoveClockStack
  | |- view _ _ (set_capturedPieceStack _ _) => eapply view_set_capturedPieceStack
  | |- view _ _ (set_castlingRightStack _ _) => eapply view_set_castlingRightStack
  | |- view _ _ (set_epSquareStack _ _) => eapply view_set_epSquareStack
  | |- view _ _ (set_moveStack _ _) => eapply view_set_moveStack
  | |- view _ _ (transpositions_add _ _ _) => eapply view_transpositions_add
  end.

(** One assignment of a field that is not part of the board. *)
Tactic Notation "step_both" hyp(Hs) hyp(Hv) ident(y) ident(Hs') ident(Hv') :=
  read_state Hs;
  lazymatch goal with
  | |- ?P ?s (let x := ?v in @?F x) =>
      pose (y := v); change (P s (F y)); cbv beta;
      eassert (Hs' : has_state _ y);
      [ subst y; state_of; exact Hs
      | eassert (Hv' : view _ _ y);
        [ subst y; view_of; exact Hv | clearbody y ] ]
  end.

Section PushView.
Variables (b : Bitboard) (m : Move).
Let k' := moved_kind m (PieceTypeAt b (fromSquare m)).
Hypothesis Hc : consistent b.
Hypothesis Hfrom : 0 <= fromSquare m < 64.
Hypothesis Hto : 0 <= toSquare m < 64.
Hypothesis Hkind : k' <> NoPiece.
Hypothesis Hvictim :
  PieceTypes_eqb k' Pawn = true ->
  (abs_diff (toSquare m) (fromSquare m) =? 7)
  || (abs_diff (toSquare m) (fromSquare m) =? 9) = true ->
  0 <= ep_victim (turn b) (toSquare m) < 64.

Lemma Push_view :
  view (Push_board (turn b) m (PieceAt b))
       (if PieceTypes_eqb k' King
        then set_color (kingSquares b) (turn b) (toSquare m) else kingSquares b)
       (Push (Some m) b).
Proof.
  pose proof (has_state_refl b) as Hs.
  pose proof (view_refl b Hc) as Hv.
  set (g := PieceAt b) in *. set (ks := kingSquares b) in *.
  assert (Ek : PieceTypeAt b (fromSquare m) = kind_of (g (fromSquare m))).
  { apply (view_kind g ks b Hv), Hfrom. }
  cbv beta delta [Push].
  step_let b0.
  assert (Hs0 : has_state (epSquare b, castlingRights b, turn b,
                          match turn b with Black => fullMoveNumber b + 1
                                       | White => fullMoveNumber b end,
                          halfMoveClock b, halfMoveClockStack b, capturedPieceStack b,
                          castlingRightStack b, epSquareStack b, moveStack b,
                          transpositions b) b0).
  { subst b0. destruct (turn b); [exact Hs|]. eapply st_set_fullMoveNumber, Hs. }
  assert (Hv0 : view g ks b0).
  { subst b0. destruct (turn b); [exact Hv|]. eapply view_set_fullMoveNumber, Hv. }
  clearbody b0. clear Hs.
  step_let cap. clearbody cap.
  step_both Hs0 Hv0 b1 Hs1 Hv1. step_both Hs1 Hv1 b2 Hs2 Hv2.
  step_both Hs2 Hv2 b3 Hs3 Hv3. step_both Hs3 Hv3 b4 Hs4 Hv4.
  step_both Hs4 Hv4 b5 Hs5 Hv5.
  clear Hs0 Hs1 Hs2 Hs3 Hs4 Hv0 Hv1 Hv2 Hv3 Hv4.
  cbv iota.
  rewrite (view_kind g ks b5 Hv5 _ Hfrom), <- Ek.
  step_let k. subst k.
  step_let b6.
  assert (Hs6 : exists hm, has_state
            (epSquare b, castlingRights b, turn b,
             match turn b with Black => fullMoveNumber b + 1 | White => fullMoveNumber b end,
             hm, halfMoveClock b :: halfMoveClockStack b,
             cap :: capturedPieceStack b,
             castlingRights b :: castlingRightStack b,
             epSquare b :: epSquareStack b, Some m :: moveStack b, transpositions b) b6).
  { subst b6.
    match goal with |- context [if ?c || ?d then _ else _] => destruct (c || d) end;
      eexists; eapply st_set_halfMoveClock, Hs5. }
  assert (Hv6 : view g ks b6).
  { subst b6.
    match goal with |- context [if ?c || ?d then _ else _] => destruct (c || d) end;
      eapply view_set_halfMoveClock, Hv5. }
  clearbody b6. clear Hs5 Hv5. destruct Hs6 as [hm Hs6].
  step_let kk. fold (moved_kind m (PieceTypeAt b (fromSquare m))) in kk.
  fold k' in kk. subst kk.
  read_state Hs6.
  step_let b7.
  assert (Hs7 : has_state
            (epSquare b, castlingRights b, turn b,
             match turn b with Black => fullMoveNumber b + 1 | White => fullMoveNumber b end,
             hm, halfMoveClock b :: halfMoveClockStack b,
             cap :: capturedPieceStack b,
             castlingRights b :: castlingRightStack b,
             epSquare b :: epSquareStack b, Some m :: moveStack b, transpositions b) b7).
  { subst b7. eapply st_RemovePieceAt, Hs6. }
  assert (Hv7 : view (upd g (fromSquare m) None) ks b7).
  { subst b7. apply view_RemovePieceAt; [exact Hv6|exact Hfrom]. }
  clearbody b7. clear Hs6 Hv6.
  set (g1 := upd g (fromSquare m) None) in *.
  step_both Hs7 Hv7 b8 Hs8 Hv8. clear Hs7 Hv7.
  read_state Hs8. rewrite (view_empty g1 ks b8 Hv8 _ Hto).
  step_let b9.
  set (g2 := if PieceTypes_eqb k' Pawn then
               if ((abs_diff (toSquare m) (fromSquare m) =? 7)
                   || (abs_diff (toSquare m) (fromSquare m) =? 9))
                  && is_none (g1 (toSquare m))
               then upd g1 (ep_victim (turn b) (toSquare m)) None
               else g1
             else g1).
  assert (Hs9 : exists ep, has_state
            (ep, castlingRights b, turn b,
             match turn b with Black => fullMoveNumber b + 1 | White => fullMoveNumber b end,
             hm, halfMoveClock b :: halfMoveClockStack b,
             cap :: capturedPieceStack b,
             castlingRights b :: castlingRightStack b,
             epSquare b :: epSquareStack b, Some m :: moveStack b, transpositions b) b9).
  { subst b9. cbv zeta.
    repeat match goal with
           | |- context [if ?c then _ else _] => destruct c
           | |- context [match turn ?y with White => _ | Black => _ end] => destruct (turn y)
           end;
      eexists;
      first [ exact Hs8
            | eapply st_RemovePieceAt, Hs8
            | eapply st_set_epSquare, Hs8
            | eapply st_set_epSquare, st_RemovePieceAt, Hs8 ]. }
  assert (Hv9 : view g2 ks b9).
  { subst b9 g2. destruct (PieceTypes_eqb k' Pawn) eqn:EP; [|exact Hv8].
    cbv zeta. fold (abs_diff (toSquare m) (fromSquare m)).
    destruct ((abs_diff (toSquare m) (fromSquare m) =? 7)
              || (abs_diff (toSquare m) (fromSquare m) =? 9)) eqn:ED; cbn [andb].
    - specialize (Hvictim eq_refl eq_refl).
      destruct (is_none (g1 (toSquare m))).
      + assert (Hr : view (upd g1 (ep_victim (turn b) (toSquare m)) None) ks
                       match turn b with
                       | White => RemovePieceAt (toSquare m - 8) b8
                       | Black => RemovePieceAt (toSquare m + 8) b8
                       end).
        { unfold ep_victim in *. destruct (turn b);
            (apply view_RemovePieceAt; [exact Hv8|exact Hvictim]). }
        destruct (abs_diff (toSquare m) (fromSquare m) =? 16); [|exact Hr].
        match goal with
        | |- view _ _ (match turn ?y with White => _ | Black => _ end) =>
            destruct (turn y)
        end; eapply view_set_epSquare, Hr.
      + destruct (abs_diff (toSquare m) (fromSquare m) =? 16); [|exact Hv8].
        destruct (turn b8); eapply view_set_epSquare, Hv8.
    - destruct (abs_diff (toSquare m) (fromSquare m) =? 16); [|exact Hv8].
      destruct (turn b8); eapply view_set_epSquare, Hv8. }
  clearbody b9. clear Hs8 Hv8. destruct Hs9 as [ep Hs9].
  step_both Hs9 Hv9 b10 Hs10 Hv10. clear Hs9 Hv9.
  step_let b11.
  assert (Hs11 : has_state
            (ep, revoke_castling m (castlingRights b), turn b,
             match turn b with Black => fullMoveNumber b + 1 | White => fullMoveNumber b end,
             hm, halfMoveClock b :: halfMoveClockStack b,
             cap :: capturedPieceStack b,
             castlingRights b :: castlingRightStack b,
             epSquare b :: epSquareStack b, Some m :: moveStack b, transpositions b) b11).
  { subst b11. frame_state Hs10. }
  assert (Hv11 : view (if PieceTypes_eqb k' King then rook_out m g2 else g2) ks b11).
  { subst b11. destruct (PieceTypes_eqb k' King); [|exact Hv10].
    apply view_castling_rook_out, Hv10. }
  clearbody b11. clear Hs10 Hv10.
  read_state Hs11.
  step_let b12.
  assert (Hs12 : has_state
            (ep, revoke_castling m (castlingRights b), turn b,
             match turn b with Black => fullMoveNumber b + 1 | White => fullMoveNumber b end,
             hm, halfMoveClock b :: halfMoveClockStack b,
             cap :: capturedPieceStack b,
             castlingRights b :: castlingRightStack b,
             epSquare b :: epSquareStack b, Some m :: moveStack b, transpositions b) b12).
  { subst b12. eapply st_SetPieceAt, Hs11. }
  assert (Hv12 : view (Push_board (turn b) m g)
                   (if PieceTypes_eqb k' King
                    then set_color ks (turn b) (toSquare m) else ks) b12).
  { subst b12. unfold Push_board. rewrite <- Ek. fold k'. cbv zeta.
    exact (view_SetPieceAt _ ks (toSquare m) (NewPiece k' (turn b)) b11 Hv11 Hto Hkind). }
  clearbody b12. clear Hs11 Hv11.
  step_both Hs12 Hv12 b13 Hs13 Hv13.
  view_of. exact Hv13.
Qed.
End PushView.

Section PopView.
Variables (x : Bitboard) (m : Move) (g : Z -> option Piece) (ks : Z * Z).
Variables (ep cr : Z) (t : Colors) (fm hm hm0 : Z) (hms : list Z)
  (cap : PieceTypes) (cps : list PieceTypes) (cr0 : Z) (crs : list Z)
  (ep0 : Z) (eps : list Z) (ms : list (option Move)) (tr : gmap Z Z).
Let piece :=
  if negb (PieceTypes_eqb (promotion m) NoPiece) then Pawn
  else kind_of (g (toSquare m)).
Hypothesis Hv : view g ks x.
Hypothesis Hs : has_state (ep, cr, t, fm, hm, hm0 :: hms, cap :: cps, cr0 :: crs,
                           ep0 :: eps, Some m :: ms, tr) x.
Hypothesis Hfrom : 0 <= fromSquare m < 64.
Hypothesis Hto : 0 <= toSquare m < 64.
Hypothesis Hpiece : piece <> NoPiece.
Hypothesis Hvictim :
  (0 <? piece_index cap) = false ->
  PieceTypes_eqb piece Pawn
  && ((abs_diff (fromSquare m) (toSquare m) =? 7)
      || (abs_diff (fromSquare m) (toSquare m) =? 9)) = true ->
  0 <= match t with White => toSquare m + 8 | Black => toSquare m - 8 end < 64.

Lemma Pop_view :
  Pop_gives m (Pop_board t m cap g) (Pop_kings t m cap g ks)
    (ep0, cr0, other t,
     match t with White => fm - 1 | Black => fm end,
     hm0, hms, cps, crs, eps, ms,
     <[ZobristHash x := count_of tr (ZobristHash x) + -1]> tr)
    (Pop x).
Proof.
  cbv beta delta [Pop]. read_state Hs. cbv iota.
  step_let b0.
  assert (Eh : ZobristHash b0 = ZobristHash x).
  { subst b0. apply ZobristHash_frame; reflexivity. }
  assert (Hs0 : has_state (ep, cr, t, fm, hm, hm0 :: hms, cap :: cps, cr0 :: crs,
                           ep0 :: eps, ms, tr) b0).
  { subst b0. eapply st_set_moveStack, Hs. }
  assert (Hv0 : view g ks b0).
  { subst b0. eapply view_set_moveStack, Hv. }
  clearbody b0. rewrite Eh.
  set (tr' := <[ZobristHash x := count_of tr (ZobristHash x) + -1]> tr).
  step_both Hs0 Hv0 b1 Hs1 Hv1. fold tr' in Hs1.
  read_state Hs1.
  step_let b2.
  assert (Hs2 : has_state (ep, cr, t, match t with White => fm - 1 | Black => fm end,
                           hm, hm0 :: hms, cap :: cps, cr0 :: crs,
                           ep0 :: eps, ms, tr') b2).
  { subst b2. destruct t; [eapply st_set_fullMoveNumber, Hs1|exact Hs1]. }
  assert (Hv2 : view g ks b2).
  { subst b2. destruct t; [eapply view_set_fullMoveNumber, Hv1|exact Hv1]. }
  clearbody b2. clear Hs0 Hv0 Hs1 Hv1 Eh.
  set (fm' := match t with White => fm - 1 | Black => fm end) in *.
  step_let b3.
  assert (Hs3 : has_state (ep, cr, t, fm', hm0, hms, cap :: cps, cr0 :: crs,
                           ep0 :: eps, ms, tr') b3).
  { subst b3. eapply st_set_halfMoveClockStack, st_set_halfMoveClock, Hs2. }
  assert (Hv3 : view g ks b3).
  { subst b3. eapply view_set_halfMoveClockStack, view_set_halfMoveClock, Hv2. }
  clearbody b3. clear Hs2 Hv2.
  step_let b4.
  assert (Hs4 : has_state (ep, cr0, t, fm', hm0, hms, cap :: cps, crs,
                           ep0 :: eps, ms, tr') b4).
  { subst b4. eapply st_set_castlingRightStack, st_set_castlingRights, Hs3. }
  assert (Hv4 : view g ks b4).
  { subst b4. eapply view_set_castlingRightStack, view_set_castlingRights, Hv3. }
  clearbody b4. clear Hs3 Hv3.
  step_let b5.
  assert (Hs5 : has_state (ep0, cr0, t, fm', hm0, hms, cap :: cps, crs,
                           eps, ms, tr') b5).
  { subst b5. eapply st_set_epSquareStack, st_set_epSquare, Hs4. }
  assert (Hv5 : view g ks b5).
  { subst b5. eapply view_set_epSquareStack, view_set_epSquare, Hv4. }
  clearbody b5. clear Hs4 Hv4.
  step_both Hs5 Hv5 b6 Hs6 Hv6. clear Hs5 Hv5.
  read_state Hs6.
  step_let capturedPieceColor. subst capturedPieceColor.
  rewrite (view_kind g ks b6 Hv6 _ Hto).
  step_let p0. subst p0.
  step_let p1. fold piece in p1. subst p1.
  set (ks1 := if PieceTypes_eqb piece King
              then set_color ks (other t) (fromSquare m) else ks).
  set (g1 := upd g (fromSquare m) (Some (NewPiece piece (other t)))).
  step_let b7.
  assert (Hs7 : has_state (ep0, cr0, t, fm', hm0, hms, cps, crs, eps, ms, tr') b7).
  { subst b7. eapply st_SetPieceAt, Hs6. }
  assert (Hv7 : view g1 ks1 b7).
  { subst b7. exact (view_SetPieceAt g ks _ (NewPiece piece (other t)) b6 Hv6 Hfrom Hpiece). }
  clearbody b7. clear Hs6 Hv6.
  read_state Hs7.
  set (g2 :=
    if 0 <? piece_index cap then upd g1 (toSquare m) (Some (NewPiece cap t))
    else
      if PieceTypes_eqb piece Pawn
         && ((abs_diff (fromSquare m) (toSquare m) =? 7)
             || (abs_diff (fromSquare m) (toSquare m) =? 9))
      then
        match t with
        | White => upd (upd g1 (toSquare m) None) (toSquare m + 8)
                     (Some (NewPiece Pawn White))
        | Black => upd (upd g1 (toSquare m) None) (toSquare m - 8)
                     (Some (NewPiece Pawn Black))
        end
      else upd g1 (toSquare m) None).
  set (ks2 := if (0 <? piece_index cap) && PieceTypes_eqb cap King
              then set_color ks1 t (toSquare m) else ks1).
  step_let b8.
  assert (Hs8 : has_state (ep0, cr0, t, fm', hm0, hms, cps, crs, eps, ms, tr') b8).
  { subst b8. cbv zeta.
    repeat match goal with
           | |- has_state _ (if ?c then _ else _) => destruct c
           | |- has_state _ (match turn ?y with White => _ | Black => _ end) =>
               destruct (turn y)
           end; frame_state Hs7. }
  assert (Hv8 : view g2 ks2 b8).
  { subst b8 g2 ks2. destruct (0 <? piece_index cap) eqn:Ecap; cbn [andb].
    - apply view_SetPieceAt; [exact Hv7|exact Hto|].
      cbn [pieceType]. intros ->. discriminate.
    - cbv zeta. fold (abs_diff (fromSquare m) (toSquare m)).
      assert (Hr : view (upd g1 (toSquare m) None) ks1 (RemovePieceAt (toSquare m) b7)).
      { apply view_RemovePieceAt; [exact Hv7|exact Hto]. }
      destruct (PieceTypes_eqb piece Pawn
                && ((abs_diff (fromSquare m) (toSquare m) =? 7)
                    || (abs_diff (fromSquare m) (toSquare m) =? 9))) eqn:Eep;
        [|exact Hr].
      specialize (Hvictim eq_refl eq_refl).
      assert (Et : turn (RemovePieceAt (toSquare m) b7) = t).
      { pose proof (st_RemovePieceAt (toSquare m) _ _ Hs7) as Hx.
        pose proof (st_fields _ _ _ _ _ _ _ _ _ _ _ _ Hx) as (_ & _ & E & _). exact E. }
      rewrite Et. destruct t.
      + apply view_SetPieceAt_other; [exact Hr|exact Hvictim|discriminate|discriminate].
      + apply view_SetPieceAt_other; [exact Hr|exact Hvictim|discriminate|discriminate]. }
  clearbody b8. clear Hs7 Hv7.
  step_let b9.
  assert (Hs9 : has_state (ep0, cr0, t, fm', hm0, hms, cps, crs, eps, ms, tr') b9).
  { subst b9. frame_state Hs8. }
  assert (Hv9 : view (if PieceTypes_eqb piece King then rook_back m g2 else g2) ks2 b9).
  { subst b9. destruct (PieceTypes_eqb piece King); [|exact Hv8].
    apply view_castling_rook_back, Hv8. }
  clearbody b9. clear Hs8 Hv8.
  read_state Hs9.
  exists (set_turn (other t) b9). split; [reflexivity|]. split.
  - eapply view_set_turn. exact Hv9.
  - eapply st_set_turn, Hs9.
Qed.
End PopView.

Lemma other_other (c : Colors) : other (other c) = c.
Proof. destruct c; reflexivity. Qed.

Lemma abs_diff_sym (a b : Z) : abs_diff a b = abs_diff b a.
Proof.
  unfold abs_diff. destruct (Z.ltb_spec (a - b) 0), (Z.ltb_spec (b - a) 0); lia.
Qed.

Section Undo.
Variables (g : Z -> option Piece) (t : Colors) (m : Move).
Local Abbreviation f := (fromSquare m).
Local Abbreviation to := (toSquare m).
Variables (k cap : PieceTypes).
Hypothesis Hft : f <> to.
Hypothesis Hk : k <> NoPiece.
Hypothesis Gf : g f = Some (NewPiece k t).
Hypothesis Gt : (g to = None /\ cap = NoPiece)
                \/ (g to = Some (NewPiece cap (other t)) /\ cap <> NoPiece).
Hypothesis Hpromo : promotion m <> NoPiece -> k = Pawn /\ promotion m <> King.
Hypothesis Hep :
  k = Pawn -> abs_diff to f = 7 \/ abs_diff to f = 9 -> g to = None ->
  g (ep_victim t to) = Some (NewPiece Pawn (other t)).
Hypothesis Hcastle : k = King -> castling_shape f to g.

Lemma kind_of_from : kind_of (g f) = k.
Proof. rewrite Gf. reflexivity. Qed.

Lemma kind_of_to : kind_of (g to) = cap.
Proof. destruct Gt as [[-> ->]|[-> _]]; reflexivity. Qed.

Lemma moved_kind_ok : moved_kind m k <> NoPiece.
Proof.
  unfold moved_kind. destruct (PieceTypes_eqb (promotion m) NoPiece) eqn:E; cbn [negb].
  - exact Hk.
  - intros E'. rewrite E' in E. discriminate.
Qed.

Lemma Push_board_to : Push_board t m g to = Some (NewPiece (moved_kind m k) t).
Proof.
  unfold Push_board. rewrite kind_of_from.
  unfold upd at 1. rewrite Z.eqb_refl. reflexivity.
Qed.

Lemma popped_piece :
  (if negb (PieceTypes_eqb (promotion m) NoPiece) then Pawn
   else kind_of (Push_board t m g to)) = k.
Proof.
  rewrite Push_board_to. cbn [kind_of pieceType]. unfold moved_kind.
  destruct (PieceTypes_eqb (promotion m) NoPiece) eqn:E; cbn [negb]; [reflexivity|].
  symmetry. apply Hpromo. intros E'. rewrite E' in E. discriminate.
Qed.

Ltac eqb_cases :=
  repeat match goal with
         | |- context [?a =? ?b] => destruct (Z.eqb_spec a b)
         end.

Lemma Pop_Push_board (i : Z) :
  Pop_board (other t) m cap (Push_board t m g) i = g i.
Proof.
  unfold Pop_board. rewrite popped_piece. cbv zeta.
  rewrite other_other, (abs_diff_sym f to).
  assert (Hcap : (0 <? piece_index cap) = negb (PieceTypes_eqb cap NoPiece)).
  { destruct cap; reflexivity. }
  rewrite Hcap. clear Hcap.
  unfold Push_board. rewrite kind_of_from. cbv zeta.
  assert (G1to : upd g f None to = g to).
  { unfold upd. destruct (Z.eqb_spec to f); [congruence|reflexivity]. }
  rewrite G1to.
  set (k' := moved_kind m k).
  destruct (PieceTypes_eq_dec k King) as [EK|NK].
  - (* the king moves: no promotion *)
    assert (Ep : promotion m = NoPiece).
    { destruct (PieceTypes_eq_dec (promotion m) NoPiece) as [E|E]; [exact E|].
      destruct (Hpromo E) as [E' _]. congruence. }
    assert (Ek' : k' = King).
    { unfold k', moved_kind. rewrite Ep, EK. reflexivity. }
    rewrite Ek', EK. cbn [PieceTypes_eqb piece_index Z.eqb Pos.eqb andb].
    specialize (Hcastle EK). destruct Hcastle as (C1' & C2' & C3' & C4').
    subst k.
    unfold rook_out, rook_back.
    destruct Gt as [[Gn ->]|[Gs Hc]].
    + cbn [PieceTypes_eqb piece_index Z.eqb negb].
      destruct (Z.eqb_spec f E1) as [Ef|Ef]; destruct (Z.eqb_spec to G1) as [Eg|Eg];
        cbn [andb].
      { destruct (C1' Ef Eg) as [X Y]. unfold upd. unfold E1, G1, F1, H1 in *.
        eqb_cases; try lia; subst; congruence. }
      all: destruct (Z.eqb_spec to C1) as [Ec|Ec]; cbn [andb].
      all: try (destruct (C2' Ef Ec) as [X Y]; unfold upd; unfold E1, C1, D1, A1 in *;
                eqb_cases; try lia; subst; congruence).
      all: destruct (Z.eqb_spec f E8) as [Ef8|Ef8]; cbn [andb].
      all: destruct (Z.eqb_spec to G8) as [Eg8|Eg8]; cbn [andb].
      all: try (destruct (C3' Ef8 Eg8) as [X Y]; unfold upd; unfold E8, G8, F8, H8 in *;
                eqb_cases; try lia; subst; congruence).
      all: destruct (Z.eqb_spec to C8) as [Ec8|Ec8]; cbn [andb].
      all: try (destruct (C4' Ef8 Ec8) as [X Y]; unfold upd; unfold E8, C8, D8, A8 in *;
                eqb_cases; try lia; subst; congruence).
      all: unfold upd; eqb_cases; try lia; subst; congruence.
    + assert (Hc' : negb (PieceTypes_eqb cap NoPiece) = true).
      { destruct cap; (reflexivity || contradiction). }
      rewrite Hc'.
      destruct (Z.eqb_spec f E1) as [Ef|Ef]; destruct (Z.eqb_spec to G1) as [Eg|Eg];
        cbn [andb].
      { destruct (C1' Ef Eg) as [X Y]. unfold upd. unfold E1, G1, F1, H1 in *.
        eqb_cases; try lia; subst; congruence. }
      all: destruct (Z.eqb_spec to C1) as [Ec|Ec]; cbn [andb].
      all: try (destruct (C2' Ef Ec) as [X Y]; unfold upd; unfold E1, C1, D1, A1 in *;
                eqb_cases; try lia; subst; congruence).
      all: destruct (Z.eqb_spec f E8) as [Ef8|Ef8]; cbn [andb].
      all: destruct (Z.eqb_spec to G8) as [Eg8|Eg8]; cbn [andb].
      all: try (destruct (C3' Ef8 Eg8) as [X Y]; unfold upd; unfold E8, G8, F8, H8 in *;
                eqb_cases; try lia; subst; congruence).
      all: destruct (Z.eqb_spec to C8) as [Ec8|Ec8]; cbn [andb].
      all: try (destruct (C4' Ef8 Ec8) as [X Y]; unfold upd; unfold E8, C8, D8, A8 in *;
                eqb_cases; try lia; subst; congruence).
      all: unfold upd; eqb_cases; try lia; subst; congruence.
  - (* another piece moves *)
    assert (NK' : PieceTypes_eqb k' King = false).
    { unfold k', moved_kind.
      destruct (PieceTypes_eqb (promotion m) NoPiece) eqn:E; cbn [negb].
      - destruct k; (reflexivity || contradiction).
      - destruct (Hpromo ltac:(intros E'; rewrite E' in E; discriminate)) as [_ E'].
        destruct (promotion m); (reflexivity || contradiction). }
    assert (NKb : PieceTypes_eqb k King = false).
    { destruct k; (reflexivity || contradiction). }
    rewrite NK', NKb.
    destruct Gt as [[Gn ->]|[Gs Hc]].
    + rewrite Gn. cbn [is_none PieceTypes_eqb piece_index Z.eqb negb andb].
      rewrite andb_true_r.
      destruct (PieceTypes_eqb k Pawn) eqn:EP; cbn [andb].
      * apply PieceTypes_eqb_eq in EP.
        destruct ((abs_diff to f =? 7) || (abs_diff to f =? 9)) eqn:ED.
        -- assert (Hd : abs_diff to f = 7 \/ abs_diff to f = 9).
           { apply orb_true_iff in ED as [E|E]; apply Z.eqb_eq in E; auto. }
           specialize (Hep EP Hd Gn).
           assert (Hv : ep_victim t to <> f /\ ep_victim t to <> to).
           { unfold ep_victim, abs_diff in *.
             destruct t; destruct (Z.ltb_spec (to - f) 0); lia. }
           destruct Hv as [Hvf Hvt].
           destruct (PieceTypes_eqb k' Pawn); destruct t; cbn [other ep_victim] in *;
             unfold upd; eqb_cases; try lia; subst; congruence.
        -- destruct (PieceTypes_eqb k' Pawn); unfold upd; eqb_cases; subst; congruence.
      * assert (EP' : PieceTypes_eqb k' Pawn = false).
        { unfold k', moved_kind.
          destruct (PieceTypes_eqb (promotion m) NoPiece) eqn:E; cbn [negb]; [exact EP|].
          destruct (Hpromo ltac:(intros E'; rewrite E' in E; discriminate)) as [E' _].
          rewrite E' in EP. discriminate. }
        rewrite EP'. unfold upd; eqb_cases; subst; congruence.
    + assert (Hc' : negb (PieceTypes_eqb cap NoPiece) = true).
      { destruct cap; (reflexivity || contradiction). }
      rewrite Hc', Gs. cbn [is_none]. rewrite andb_false_r.
      destruct (PieceTypes_eqb k' Pawn); unfold upd; eqb_cases; subst; congruence.
Qed.

Lemma Pop_Push_kings (ks : Z * Z) :
  (k = King -> by_color ks t = f) ->
  (cap = King -> by_color ks (other t) = to) ->
  Pop_kings (other t) m cap (Push_board t m g)
    (if PieceTypes_eqb (moved_kind m k) King then set_color ks t to else ks)
  = ks.
Proof.
  intros Hkf Hkt. unfold Pop_kings. rewrite popped_piece, other_other.
  assert (E : PieceTypes_eqb (moved_kind m k) King = PieceTypes_eqb k King).
  { unfold moved_kind.
    destruct (PieceTypes_eqb (promotion m) NoPiece) eqn:E; cbn [negb]; [reflexivity|].
    destruct (Hpromo ltac:(intros E'; rewrite E' in E; discriminate)) as [-> E'].
    destruct (promotion m); (reflexivity || contradiction). }
  rewrite E.
  assert (Hcap : (0 <? piece_index cap) && PieceTypes_eqb cap King = PieceTypes_eqb cap King).
  { destruct cap; reflexivity. }
  rewrite Hcap.
  destruct (PieceTypes_eqb k King) eqn:EK; destruct (PieceTypes_eqb cap King) eqn:EC.
  - apply PieceTypes_eqb_eq in EK, EC. specialize (Hkf EK). specialize (Hkt EC).
    destruct ks as [w bl], t; cbn in *; subst; reflexivity.
  - apply PieceTypes_eqb_eq in EK. specialize (Hkf EK).
    destruct ks as [w bl], t; cbn in *; subst; reflexivity.
  - apply PieceTypes_eqb_eq in EC. specialize (Hkt EC).
    destruct ks as [w bl], t; cbn in *; subst; reflexivity.
  - reflexivity.
Qed.
End Undo.

Lemma in_board_spec (sq : Z) : in_board sq = true <-> 0 <= sq < 64.
Proof. unfold in_board. rewrite andb_true_iff, Z.leb_le, Z.ltb_lt. tauto. Qed.

Lemma holds_spec (b : Bitboard) (sq : Z) (k : PieceTypes) (c : Colors) :
  holds b sq k c = true <-> PieceAt b sq = Some (NewPiece k c).
Proof.
  unfold holds. destruct (PieceAt b sq) as [[k0 c0]|]; cbn [pieceType color].
  - rewrite andb_true_iff, PieceTypes_eqb_eq, bool_decide_eq_true. split.
    + intros [-> ->]. reflexivity.
    + intros [= -> ->]. split; reflexivity.
  - split; discriminate.
Qed.

Lemma vacant_spec (b : Bitboard) (sq : Z) : vacant b sq = true <-> PieceAt b sq = None.
Proof.
  unfold vacant. destruct (PieceAt b sq); cbn; split; (reflexivity || discriminate).
Qed.

Lemma PieceAt_Some_kind (b : Bitboard) (sq : Z) (p : Piece) :
  PieceAt b sq = Some p -> pieceType p <> NoPiece /\ PieceTypeAt b sq = pieceType p.
Proof.
  unfold PieceAt. destruct (PieceTypeAt b sq); cbn; intros [= <-]; cbn;
    split; (discriminate || reflexivity).
Qed.

Lemma castling_rook_ready_spec (b : Bitboard) (m : Move) :
  castling_rook_ready b m = true ->
  castling_shape (fromSquare m) (toSquare m) (PieceAt b).
Proof.
  unfold castling_rook_ready, castling_shape. intros H.
  split; [|split; [|split]]; intros Ef Et; rewrite Ef, Et in H; cbn in H;
    apply andb_true_iff in H as [H1 H2];
    (split; [apply vacant_spec, H1|apply holds_spec, H2]).
Qed.





Lemma In_all_ascii (c : ascii) : In c all_ascii.
Proof.
  unfold all_ascii. rewrite <- (ascii_nat_embedding c).
  apply in_map, in_seq. pose proof (nat_ascii_bounded c). lia.
Qed.

Lemma PieceFromSymbol_letter_check :
  forallb (fun c =>
             match PieceFromSymbol (String c EmptyString) with
             | Some p => negb (PieceTypes_eqb (pieceType p) NoPiece)
             | None => true
             end) all_ascii = true.
Proof. vm_compute. reflexivity. Qed.

Lemma PieceFromSymbol_letter (c : ascii) (p : Piece) :
  PieceFromSymbol (String c EmptyString) = Some p -> pieceType p <> NoPiece.
Proof.
  intros E. pose proof PieceFromSymbol_letter_check as H.
  rewrite forallb_forall in H. specialize (H c (In_all_ascii c)).
  rewrite E in H. intros E'. rewrite E' in H. discriminate.
Qed.

Lemma Squares180_in_board (i : nat) (sq : Z) :
  Squares180 !! i = Some sq -> 0 <= sq < 64.
Proof.
  intros E. apply list_elem_of_lookup_2 in E.
  assert (H : forallb in_board Squares180 = true) by (vm_compute; reflexivity).
  rewrite forallb_forall in H. apply in_board_spec, H, list_elem_of_In, E.
Qed.

Lemma stacks_empty_state (b b' : Bitboard) :
  state_part b' = state_part b -> stacks_empty b -> stacks_empty b'.
Proof.
  unfold state_part, stacks_empty. intros [= _ _ _ _ _ -> -> -> -> -> _]. tauto.
Qed.

Lemma place_pieces_keeps (board : list ascii) (i : nat) (b b' : Bitboard) :
  consistent b -> stacks_empty b -> place_pieces board i b = Some b' ->
  consistent b' /\ stacks_empty b'.
Proof.
  revert i b. induction board as [|c rest IH]; intros i b Hc Hs.
  - intros [= <-]. split; assumption.
  - cbn [place_pieces]. destruct (is_run_digit c); [apply IH; assumption|].
    destruct (is_piece_letter c); [|apply IH; assumption].
    destruct (PieceFromSymbol (String c EmptyString)) as [p|] eqn:Ep; [|discriminate].
    cbn [mbind option_bind].
    destruct (Squares180 !! i) as [sq|] eqn:Es; [|discriminate].
    cbn [mbind option_bind]. apply IH.
    + apply SetPieceAt_keeps; [exact Hc|eapply Squares180_in_board, Es|].
      eapply PieceFromSymbol_letter, Ep.
    + eapply stacks_empty_state; [apply SetPieceAt_state_part|exact Hs].
Qed.

Section Frame.
Variable b : Bitboard.
Hypothesis Hc : consistent b.
Hypothesis Hs : stacks_empty b.

Lemma settled_turn v : consistent (set_turn v b) /\ stacks_empty (set_turn v b).
Proof. split; [revert Hc; apply consistent_board; reflexivity|exact Hs]. Qed.
Lemma settled_castlingRights v :
  consistent (set_castlingRights v b) /\ stacks_empty (set_castlingRights v b).
Proof. split; [revert Hc; apply consistent_board; reflexivity|exact Hs]. Qed.
Lemma settled_epSquare v :
  consistent (set_epSquare v b) /\ stacks_empty (set_epSquare v b).
Proof. split; [revert Hc; apply consistent_board; reflexivity|exact Hs]. Qed.
Lemma settled_halfMoveClock v :
  consistent (set_halfMoveClock v b) /\ stacks_empty (set_halfMoveClock v b).
Proof. split; [revert Hc; apply consistent_board; reflexivity|exact Hs]. Qed.
Lemma settled_fullMoveNumber v :
  consistent (set_fullMoveNumber v b) /\ stacks_empty (set_fullMoveNumber v b).
Proof. split; [revert Hc; apply consistent_board; reflexivity|exact Hs]. Qed.

Lemma settled_fresh :
  consistent (set_transpositions {[ ZobristHash b := 1 ]} b)
  /\ fresh (set_transpositions {[ ZobristHash b := 1 ]} b).
Proof.
  split; [revert Hc; apply consistent_board; reflexivity|].
  destruct Hs as (H1 & H2 & H3 & H4 & H5).
  unfold fresh. repeat (split; [assumption|]). reflexivity.
Qed.
End Frame.

Tactic Notation "step_in" ident(y) :=
  lazymatch goal with
  | |- ?P (let x := ?v in @?F x) => pose (y := v); change (P (F y)); cbv beta
  end.

Ltac settle H :=
  lazymatch goal with
  | |- _ /\ _ (if ?c then _ else _) => destruct c; settle H
  | |- _ /\ _ (set_turn _ _) => apply settled_turn; apply H
  | |- _ /\ _ (set_castlingRights _ _) => apply settled_castlingRights; apply H
  | |- _ /\ _ (set_epSquare _ _) => apply settled_epSquare; apply H
  | |- _ /\ _ (set_halfMoveClock _ _) => apply settled_halfMoveClock; apply H
  | |- _ /\ _ (set_fullMoveNumber _ _) => apply settled_fullMoveNumber; apply H
  | |- _ => exact H
  end.

Tactic Notation "step_settled" hyp(H) ident(y) ident(H') :=
  lazymatch goal with
  | |- ?P (let x := ?v in @?F x) =>
      pose (y := v); change (P (F y)); cbv beta;
      assert (H' : consistent y /\ stacks_empty y);
      [ subst y; settle H | clearbody y ]
  end.

Lemma Clear_fresh : exists b, Clear = Some b /\ consistent b /\ stacks_empty b.
Proof.
  eexists. split; [vm_compute; reflexivity|]. split.
  - apply consistent_b_sound. vm_compute. reflexivity.
  - repeat split.
Qed.

(** * Further properties *)

(** ** bit.go *)

(** X1.  [popCount] of a [uint64] is the number of its set bits, a number
    between 0 and 64. *)
Theorem popCount_is_cardinality (b : Z) :
  in_range b ->
  popCount b = Z.of_nat (length (set_bits b)) /\ 0 <= popCount b <= 64.
Proof.
  intros Hb. rewrite (popCount_counts_set_bits b Hb). split; [reflexivity|].
  unfold set_bits. pose proof (length_filter (fun i => Z.testbit b i = true) all_squares) as H.
  assert (E : length all_squares = 64%nat) by reflexivity.
  rewrite E in H. lia.
Qed.

Lemma popCount_is_cardinality_witness :
  in_range 37
  /\ popCount 37 = Z.of_nat (length (set_bits 37)) /\ 0 <= popCount 37 <= 64.
Proof.
  assert (H : in_range 37) by (unfold in_range; lia).
  split; [exact H|]. apply (popCount_is_cardinality 37 H).
Defined.

(** X2.  [bitScan(b, n)] answers the lowest set bit of [b] at or above
    [n], or -1 when there is none, exactly when [n] is between 0 and the
    number of binary digits of [b]; for every other [n] the slice bound is
    out of range and the call panics. *)
Theorem bitScan_finds_lowest_set_bit (b n : Z) :
  0 <= b ->
  (0 <= n <= len (Sprintf_b b) ->
   exists r, bitScan b n = Some r /\ lowest_set_bit_from b n r)
  /\ (n < 0 \/ len (Sprintf_b b) < n -> bitScan b n = None).
Proof.
  intros Hb. split.
  - intros Hn. apply bitScan_in_range; assumption.
  - apply bitScan_out_of_range.
Qed.

Lemma bitScan_finds_lowest_set_bit_witness :
  0 <= 12
  /\ (0 <= 1 <= len (Sprintf_b 12) ->
      exists r, bitScan 12 1 = Some r /\ lowest_set_bit_from 12 1 r)
  /\ (1 < 0 \/ len (Sprintf_b 12) < 1 -> bitScan 12 1 = None).
Proof.
  assert (H : 0 <= 12) by lia.
  split; [exact H|]. apply (bitScan_finds_lowest_set_bit 12 1 H).
Defined.

(** X3.  The loop [sq := bitScan(m, 0); for sq != -1 { ...; sq =
    bitScan(m, sq+1) }] that the package uses to walk a bitboard never
    panics on a [uint64] and visits exactly the squares whose bit is set,
    lowest first: a start index [sq + 1] never exceeds the number of
    digits, because bit [sq] is set. *)
Theorem bitScan_loop_visits_set_bits (m : Z) :
  in_range m ->
  exists l,
    scan_squares m = Some l
    /\ l = filter (fun i => Z.testbit m i = true) (seqZ 0 64)
    /\ forall i, In i l <-> 0 <= i < 64 /\ Z.testbit m i = true.
Proof.
  intros Hm. exists (set_bits m). split; [apply scan_squares_set_bits, Hm|].
  split; [reflexivity|].
  intros i. unfold set_bits. rewrite <- list_elem_of_In, list_elem_of_filter.
  rewrite list_elem_of_In, In_all_squares. tauto.
Qed.

Lemma bitScan_loop_visits_set_bits_witness :
  in_range 37
  /\ exists l,
       scan_squares 37 = Some l
       /\ l = filter (fun i => Z.testbit 37 i = true) (seqZ 0 64)
       /\ forall i, In i l <-> 0 <= i < 64 /\ Z.testbit 37 i = true.
Proof.
  assert (H : in_range 37) by (unfold in_range; lia).
  split; [exact H|]. apply (bitScan_loop_visits_set_bits 37 H).
Defined.

(** ** move.go and piece.go *)

(** X4.  [MoveFromUci] reads back what [Uci] writes: the null move, and
    every move between squares of the board, with or without a promotion
    piece. *)
Theorem MoveFromUci_reads_Uci (move : option Move) :
  (forall m, move = Some m ->
     0 <= fromSquare m < 64 /\ 0 <= toSquare m < 64) ->
  MoveFromUci (Uci move) = move.
Proof.
  destruct move as [[f t p]|]; [|reflexivity].
  intros H. destruct (H _ eq_refl) as [Hf Ht]. cbn [fromSquare toSquare] in *.
  pose proof Uci_round_trip_check as C.
  rewrite forallb_forall in C. specialize (C f (proj2 (In_all_squares f) Hf)).
  rewrite forallb_forall in C. specialize (C t (proj2 (In_all_squares t) Ht)).
  rewrite forallb_forall in C. specialize (C p (all_kinds_complete p)).
  apply bool_decide_eq_true in C. exact C.
Qed.

Lemma MoveFromUci_reads_Uci_witness :
  (forall m, Some (NewMove 52 60 Queen) = Some m ->
     0 <= fromSquare m < 64 /\ 0 <= toSquare m < 64)
  /\ MoveFromUci (Uci (Some (NewMove 52 60 Queen))) = Some (NewMove 52 60 Queen).
Proof.
  assert (H : forall m, Some (NewMove 52 60 Queen) = Some m ->
                0 <= fromSquare m < 64 /\ 0 <= toSquare m < 64).
  { intros m E. injection E as <-. cbn [fromSquare toSquare]. lia. }
  split; [exact H|]. apply (MoveFromUci_reads_Uci (Some (NewMove 52 60 Queen)) H).
Defined.

(** X5.  [PieceFromSymbol] reads back the symbol [String] writes for every
    piece of a real kind: lower case for Black, upper case for White. *)
Theorem PieceFromSymbol_reads_String (p : Piece) :
  pieceType p <> NoPiece -> PieceFromSymbol (Piece_String p) = Some p.
Proof.
  destruct p as [[] []]; intros H; try contradiction; reflexivity.
Qed.

Lemma PieceFromSymbol_reads_String_witness :
  pieceType (NewPiece Knight White) <> NoPiece
  /\ PieceFromSymbol (Piece_String (NewPiece Knight White)) = Some (NewPiece Knight White).
Proof.
  assert (H : pieceType (NewPiece Knight White) <> NoPiece) by (cbn; discriminate).
  split; [exact H|]. apply (PieceFromSymbol_reads_String (NewPiece Knight White) H).
Defined.


(** ** bitboard.go : the board *)

(** X7.  On a consistent position [RemovePieceAt] empties the square and
    nothing else: the position stays consistent (piece bitboards,
    occupancies, rotated occupancies, piece cache and incremental hash
    agree), every other square keeps its piece, and the state apart from
    the board and the king squares are untouched. *)
Theorem RemovePieceAt_empties_the_square (sq : Z) (b : Bitboard) :
  consistent b -> 0 <= sq < 64 ->
  consistent (RemovePieceAt sq b)
  /\ (forall i, 0 <= i < 64 ->
        PieceAt (RemovePieceAt sq b) i = if i =? sq then None else PieceAt b i)
  /\ state_part (RemovePieceAt sq b) = state_part b
  /\ kingSquares (RemovePieceAt sq b) = kingSquares b.
Proof.
  intros Hc Hs. destruct (RemovePieceAt_keeps sq b Hc Hs) as [H1 H2].
  destruct (RemovePieceAt_state sq b) as [H3 H4].
  exact (conj H1 (conj H2 (conj H3 H4))).
Qed.

Lemma RemovePieceAt_empties_the_square_witness :
  consistent start_position /\ 0 <= 4 < 64
  /\ consistent (RemovePieceAt 4 start_position)
  /\ (forall i, 0 <= i < 64 ->
        PieceAt (RemovePieceAt 4 start_position) i
        = if i =? 4 then None else PieceAt start_position i)
  /\ state_part (RemovePieceAt 4 start_position) = state_part start_position
  /\ kingSquares (RemovePieceAt 4 start_position) = kingSquares start_position.
Proof.
  assert (Hc : consistent start_position).
  { apply consistent_b_sound. vm_compute. reflexivity. }
  assert (Hs : 0 <= 4 < 64) by lia.
  split; [exact Hc|]. split; [exact Hs|].
  apply (RemovePieceAt_empties_the_square 4 start_position Hc Hs).
Defined.

(** X8.  On a consistent position [SetPieceAt] puts the piece on the
    square, replacing what stood there, and nothing else: the position
    stays consistent, every other square keeps its piece, the state apart
    from the board is untouched, and the king square of the colour is set
    when the piece is a king. *)
Theorem SetPieceAt_places_the_piece (sq : Z) (p : Piece) (b : Bitboard) :
  consistent b -> 0 <= sq < 64 -> pieceType p <> NoPiece ->
  consistent (SetPieceAt sq p b)
  /\ (forall i, 0 <= i < 64 ->
        PieceAt (SetPieceAt sq p b) i = if i =? sq then Some p else PieceAt b i)
  /\ state_part (SetPieceAt sq p b) = state_part b
  /\ kingSquares (SetPieceAt sq p b)
     = if PieceTypes_eqb (pieceType p) King
       then set_color (kingSquares b) (color p) sq else kingSquares b.
Proof.
  intros Hc Hs Hp. destruct (SetPieceAt_keeps sq p b Hc Hs Hp) as [H1 H2].
  destruct (SetPieceAt_state sq p b Hp) as [H3 H4].
  exact (conj H1 (conj H2 (conj H3 H4))).
Qed.

Lemma SetPieceAt_places_the_piece_witness :
  consistent start_position /\ 0 <= 28 < 64
  /\ pieceType (NewPiece Queen Black) <> NoPiece
  /\ consistent (SetPieceAt 28 (NewPiece Queen Black) start_position)
  /\ (forall i, 0 <= i < 64 ->
        PieceAt (SetPieceAt 28 (NewPiece Queen Black) start_position) i
        = if i =? 28 then Some (NewPiece Queen Black) else PieceAt start_position i)
  /\ state_part (SetPieceAt 28 (NewPiece Queen Black) start_position)
     = state_part start_position
  /\ kingSquares (SetPieceAt 28 (NewPiece Queen Black) start_position)
     = if PieceTypes_eqb (pieceType (NewPiece Queen Black)) King
       then set_color (kingSquares start_position) (color (NewPiece Queen Black)) 28
       else kingSquares start_position.
Proof.
  assert (Hc : consistent start_position).
  { apply consistent_b_sound. vm_compute. reflexivity. }
  assert (Hs : 0 <= 28 < 64) by lia.
  assert (Hp : pieceType (NewPiece Queen Black) <> NoPiece) by (cbn; discriminate).
  split; [exact Hc|]. split; [exact Hs|]. split; [exact Hp|].
  apply (SetPieceAt_places_the_piece 28 (NewPiece Queen Black) start_position Hc Hs Hp).
Defined.

(** X9.  [Reset] and [Clear] do not panic and leave consistent positions;
    after [Clear] no square holds a piece. *)
Theorem Reset_and_Clear_consistent :
  exists b0 b1,
    Reset = Some b0 /\ Clear = Some b1 /\ consistent b0 /\ consistent b1
    /\ forall i, 0 <= i < 64 -> PieceAt b1 i = None.
Proof.
  destruct Reset_consistent as (b0 & E0 & H0).
  destruct Clear_fresh as (b1 & E1 & H1 & _).
  exists b0, b1. repeat (split; [assumption|]).
  intros i Hi. apply In_all_squares in Hi. revert i Hi.
  apply List.Forall_forall.
  assert (E : Some b1 = Clear) by (symmetry; exact E1).
  vm_compute in E. injection E as ->.
  let l := eval vm_compute in all_squares in change all_squares with l.
  repeat constructor.
Qed.

(** X10.  On a consistent position the board hash computed from scratch by
    [BoardZobristHash], walking the two occupancies, is the incremental
    hash that [SetPieceAt] and [RemovePieceAt] maintain, and the walk does
    not panic. *)
Theorem BoardZobristHash_is_incremental_hash (b : Bitboard) :
  consistent b ->
  BoardZobristHash PolyglotRandomArray b = Some (incrementalZobristHash b).
Proof.
  intros Hc. unfold BoardZobristHash.
  destruct (c_black b Hc) as [Rb Hb]. destruct (c_white b Hc) as [Rw Hw].
  rewrite (scan_squares_set_bits _ Rb), (scan_squares_set_bits _ Rw).
  cbn [mbind option_bind]. f_equal.
  rewrite (c_hash b Hc). unfold board_hash.
  set (fb := fun square =>
     PolyglotRandomArray (64 * ((piece_index (PieceTypeAt b square) - 1) * 2)
                          + 8 * rankIndex square + fileIndex square)).
  set (fw := fun square =>
     PolyglotRandomArray (64 * ((piece_index (PieceTypeAt b square) - 1) * 2 + 1)
                          + 8 * rankIndex square + fileIndex square)).
  change (fold_left (fun h i => Z.lxor h (fw i)) (set_bits (by_color (occupiedCo b) White))
            (fold_left (fun h i => Z.lxor h (fb i)) (set_bits (by_color (occupiedCo b) Black)) 0)
          = xor_terms (square_term b) all_squares).
  rewrite xor_terms_from. fold (xor_terms fb (set_bits (by_color (occupiedCo b) Black))).
  unfold set_bits. rewrite !xor_terms_filter, xor_terms_lxor.
  apply xor_terms_ext. intros i Hi. apply In_all_squares in Hi.
  rewrite Hb, Hw by exact Hi. unfold square_term. rewrite PieceAt_kind by exact Hi.
  unfold occupied_at, kind_at, fb, fw.
  destruct (PieceTypeAt b i), (black_at b i);
    cbv [PieceTypes_eqb piece_index Z.eqb Pos.eqb negb andb piece_if pieceType color
         zobrist_term];
    rewrite ?Z.lxor_0_r, ?Z.lxor_0_l; reflexivity.
Qed.

Lemma BoardZobristHash_is_incremental_hash_witness :
  consistent start_position
  /\ BoardZobristHash PolyglotRandomArray start_position
     = Some (incrementalZobristHash start_position).
Proof.
  assert (Hc : consistent start_position).
  { apply consistent_b_sound. vm_compute. reflexivity. }
  split; [exact Hc|]. apply (BoardZobristHash_is_incremental_hash start_position Hc).
Defined.

(** ** bitboard.go : move generation *)

(** X11.  On every position whose occupancy masks are [uint64] values the
    generation of pseudo-legal moves does not panic, and
    [PseudoLegalMoveCount] is the number of generated moves when White is
    to move and that number less the single pawn pushes when Black is to
    move. *)
Theorem PseudoLegalMoveCount_counts_generated (b : Bitboard) :
  in_range (by_color (occupiedCo b) White) ->
  in_range (by_color (occupiedCo b) Black) ->
  exists ms,
    all_pseudo_legal b = Some ms
    /\ PseudoLegalMoveCount b
       = Some (Z.of_nat (length ms)
               - match turn b with
                 | White => 0
                 | Black => popCount (black_single_pushes b)
                 end).
Proof. exact (PseudoLegalMoveCount_and_generated b). Qed.

Lemma PseudoLegalMoveCount_counts_generated_witness :
  in_range (by_color (occupiedCo start_position) White)
  /\ in_range (by_color (occupiedCo start_position) Black)
  /\ exists ms,
       all_pseudo_legal start_position = Some ms
       /\ PseudoLegalMoveCount start_position
          = Some (Z.of_nat (length ms)
                  - match turn start_position with
                    | White => 0
                    | Black => popCount (black_single_pushes start_position)
                    end).
Proof.
  assert (HW : in_range (by_color (occupiedCo start_position) White)).
  { vm_compute. split; [discriminate|reflexivity]. }
  assert (HB : in_range (by_color (occupiedCo start_position) Black)).
  { vm_compute. split; [discriminate|reflexivity]. }
  split; [exact HW|]. split; [exact HB|].
  apply (PseudoLegalMoveCount_counts_generated start_position HW HB).
Defined.



(** ** bitboard.go : making and unmaking moves *)

(** X13.  A null move and its [Pop]: the pair does not panic, gives back
    the null move, and leaves every field as it was except the table of
    counts, where the count of the position with the turn passed is one
    less than before: [Push(nil)] returns before it counts, [Pop] counts
    down all the same. *)
Theorem Push_null_Pop_restores (b : Bitboard) :
  Pop (Push None b)
  = Some (set_transpositions
            (<[ZobristHash (Push None b) :=
                 count_of (transpositions b) (ZobristHash (Push None b)) - 1]>
               (transpositions b)) b,
          None).
Proof.
  destruct b as [p n bi r q k oc o o90 o45l o45r ks ps ep cr t fm hm
                 s1 s2 s3 s4 s5 h tr].
  destruct t; fields; repeat f_equal; lia.
Qed.





(** X16.  [Pop] takes back what [Push] did.  On a consistent position, for
    a move that is [undoable] (its squares differ and are on the board; the
    source holds a piece of the side to move and the destination none of
    its own; a promotion is of a pawn and not to a king; a king that moves
    or is taken stands where the king squares say; a pawn that moves
    diagonally to an empty square has an enemy pawn behind the
    destination; a king that goes from e1 or e8 two files aside has its
    rook on the corner and an empty square beside it), [Pop] after [Push]
    gives back the move and the position, field by field, with the count
    of the position reached as it was.  [IsIntoCheck], which is this pair
    around a test, therefore leaves the position alone. *)
Theorem Pop_Push_restores (b : Bitboard) (m : Move) :
  consistent b -> undoable b m = true ->
  Pop (Push (Some m) b)
  = Some (set_transpositions (counts_after b (Some m)) b, Some m)
  /\ IsIntoCheck (Some m) b
     = Some (WasIntoCheck (Push (Some m) b),
             set_transpositions (counts_after b (Some m)) b).
Proof.
  intros Hc0 Hu0.
  assert (Hpair : Pop (Push (Some m) b)
                  = Some (set_transpositions (counts_after b (Some m)) b, Some m)).
  { revert Hc0 Hu0.
    intros Hc Hu. unfold undoable in Hu. cbv zeta in Hu. unfold counts_after.
    apply andb_true_iff in Hu as [Hu Hcastle]. apply andb_true_iff in Hu as [Hu Hep].
    apply andb_true_iff in Hu as [Hu Hvr]. apply andb_true_iff in Hu as [Hu Hkt].
    apply andb_true_iff in Hu as [Hu Hkf]. apply andb_true_iff in Hu as [Hu Hpromo].
    apply andb_true_iff in Hu as [Hu Hcap]. apply andb_true_iff in Hu as [Hu Hown].
    apply andb_true_iff in Hu as [Hu Hne]. apply andb_true_iff in Hu as [Hu Hto].
    apply in_board_spec in Hu, Hto. rename Hu into Hfrom.
    apply negb_true_iff, Z.eqb_neq in Hne.
    apply holds_spec in Hown.
    set (k := PieceTypeAt b (fromSquare m)) in *.
    set (cap := PieceTypeAt b (toSquare m)) in *.
    set (t := turn b) in *.
    assert (Hk : k <> NoPiece).
    { apply (PieceAt_Some_kind b _ _ Hown). }
    assert (Gt : (PieceAt b (toSquare m) = None /\ cap = NoPiece)
                 \/ (PieceAt b (toSquare m) = Some (NewPiece cap (other t))
                     /\ cap <> NoPiece)).
    { apply orb_true_iff in Hcap as [Hv|Hh].
      - left. apply vacant_spec in Hv. split; [exact Hv|].
        unfold cap. rewrite (view_kind _ _ b (view_refl b Hc) _ Hto), Hv. reflexivity.
      - right. apply holds_spec in Hh. split; [exact Hh|].
        apply (PieceAt_Some_kind b _ _ Hh). }
    assert (Hpromo' : promotion m <> NoPiece -> k = Pawn /\ promotion m <> King).
    { intros Hp. apply orb_true_iff in Hpromo as [E|E].
      - apply PieceTypes_eqb_eq in E. contradiction.
      - apply andb_true_iff in E as [E1 E2]. apply PieceTypes_eqb_eq in E1.
        split; [exact E1|]. intros E. rewrite E in E2. discriminate. }
    assert (Hvr' : PieceTypes_eqb k Pawn = true ->
                   (abs_diff (toSquare m) (fromSquare m) =? 7)
                   || (abs_diff (toSquare m) (fromSquare m) =? 9) = true ->
                   0 <= ep_victim t (toSquare m) < 64).
    { intros E1 E2. rewrite E1, E2 in Hvr. cbn in Hvr. apply in_board_spec, Hvr. }
    assert (Hep' : k = Pawn ->
                   abs_diff (toSquare m) (fromSquare m) = 7
                   \/ abs_diff (toSquare m) (fromSquare m) = 9 ->
                   PieceAt b (toSquare m) = None ->
                   PieceAt b (ep_victim t (toSquare m)) = Some (NewPiece Pawn (other t))).
    { intros E1 E2 E3. apply holds_spec.
      assert (E2' : (abs_diff (toSquare m) (fromSquare m) =? 7)
                    || (abs_diff (toSquare m) (fromSquare m) =? 9) = true).
      { apply orb_true_iff. destruct E2 as [E|E]; [left|right]; apply Z.eqb_eq, E. }
      apply vacant_spec in E3. rewrite E1, E2', E3 in Hep. cbn in Hep. exact Hep. }
    assert (Hcastle' : k = King -> castling_shape (fromSquare m) (toSquare m) (PieceAt b)).
    { intros E. rewrite E in Hcastle. cbn in Hcastle.
      apply castling_rook_ready_spec, Hcastle. }
    assert (Hkf' : k = King -> by_color (kingSquares b) t = fromSquare m).
    { intros E. rewrite E in Hkf. cbn in Hkf. apply Z.eqb_eq, Hkf. }
    assert (Hkt' : cap = King -> by_color (kingSquares b) (other t) = toSquare m).
    { intros E. rewrite E in Hkt. cbn in Hkt. apply Z.eqb_eq, Hkt. }
    clear Hcastle Hep Hvr Hkt Hkf Hpromo Hcap.
    pose proof (moved_kind_ok m k Hk) as Hk'.
    assert (Epawn : PieceTypes_eqb (moved_kind m k) Pawn = true -> PieceTypes_eqb k Pawn = true).
    { unfold moved_kind. destruct (PieceTypes_eqb (promotion m) NoPiece) eqn:E; cbn [negb].
      - tauto.
      - intros _. apply PieceTypes_eqb_eq, Hpromo'. intros E'. rewrite E' in E. discriminate. }
    (* the position after the move *)
    pose proof (Push_view b m Hc Hfrom Hto Hk' (fun E => Hvr' (Epawn E))) as Hv.
    pose proof (Push_state (Some m) b) as (ep & hm & Hs).
    set (x := Push (Some m) b) in *. clearbody x.
    fold k t in Hv. fold t cap in Hs.
    (* and after taking it back *)
    pose proof (popped_piece (PieceAt b) t m k Hown Hpromo') as Hpp.
    assert (Hpiece : (if negb (PieceTypes_eqb (promotion m) NoPiece) then Pawn
                      else kind_of (Push_board t m (PieceAt b) (toSquare m))) <> NoPiece).
    { rewrite Hpp. exact Hk. }
    assert (Hvp : (0 <? piece_index cap) = false ->
                  PieceTypes_eqb
                    (if negb (PieceTypes_eqb (promotion m) NoPiece) then Pawn
                     else kind_of (Push_board t m (PieceAt b) (toSquare m))) Pawn
                  && ((abs_diff (fromSquare m) (toSquare m) =? 7)
                      || (abs_diff (fromSquare m) (toSquare m) =? 9)) = true ->
                  0 <= match other t with
                       | White => toSquare m + 8
                       | Black => toSquare m - 8
                       end < 64).
    { intros _. rewrite Hpp, (abs_diff_sym (fromSquare m)). intros E.
      apply andb_true_iff in E as [E1 E2]. specialize (Hvr' E1 E2).
      unfold ep_victim in Hvr'. destruct t; exact Hvr'. }
    destruct (Pop_view x m _ _ _ _ _ _ _ _ _ _ _ _ _ _ _ _ _ Hv Hs Hfrom Hto Hpiece Hvp)
      as (x' & -> & Hv' & Hs').
    f_equal. f_equal.
    destruct Hv' as (Hc' & Hp' & Hk'').
    apply Bitboard_ext.
    - transitivity (board_part b); [|reflexivity].
      apply consistent_determined; [exact Hc'|exact Hc|].
      intros i Hi. rewrite Hp' by exact Hi.
      apply (Pop_Push_board (PieceAt b) t m k cap Hne Hk Hown Gt Hpromo' Hep' Hcastle').
    - rewrite Hk''.
      apply (Pop_Push_kings (PieceAt b) t m k cap Hk Hown Gt Hpromo' Hep' Hcastle' _ Hkf' Hkt').
    - unfold has_state in Hs'. rewrite Hs'. unfold state_part.
      cbn [epSquare castlingRights turn fullMoveNumber halfMoveClock halfMoveClockStack
           capturedPieceStack castlingRightStack epSquareStack moveStack transpositions
           set_transpositions].
      rewrite other_other, count_of_insert_same, insert_insert_eq.
      replace (count_of (transpositions b) (ZobristHash x) + 1 + -1)
        with (count_of (transpositions b) (ZobristHash x) + 0) by lia.
      fold t. destruct t; cbn [other]; rewrite ?Z.add_simpl_r; reflexivity.
  }
  split; [exact Hpair|].
  unfold IsIntoCheck. cbv zeta. rewrite Hpair. reflexivity.
Qed.

Lemma Pop_Push_restores_witness :
  consistent start_position /\ undoable start_position (NewMove 12 28 NoPiece) = true
  /\ Pop (Push (Some (NewMove 12 28 NoPiece)) start_position)
     = Some (set_transpositions
               (counts_after start_position (Some (NewMove 12 28 NoPiece)))
               start_position,
             Some (NewMove 12 28 NoPiece))
  /\ IsIntoCheck (Some (NewMove 12 28 NoPiece)) start_position
     = Some (WasIntoCheck (Push (Some (NewMove 12 28 NoPiece)) start_position),
             set_transpositions
               (counts_after start_position (Some (NewMove 12 28 NoPiece)))
               start_position).
Proof.
  assert (Hc : consistent start_position).
  { apply consistent_b_sound. vm_compute. reflexivity. }
  assert (Hu : undoable start_position (NewMove 12 28 NoPiece) = true).
  { vm_compute. reflexivity. }
  split; [exact Hc|]. split; [exact Hu|].
  apply (Pop_Push_restores start_position (NewMove 12 28 NoPiece) Hc Hu).
Defined.

(** ** bitboard.go : positions from a FEN *)

(** X17.  A [SetFen] that returns no error leaves a consistent position,
    whatever the input: the pieces were placed one by one with
    [SetPieceAt] on a cleared board; the stacks are empty and the table
    counts the position once. *)
Theorem SetFen_success_is_consistent (matches : string -> bool) (fen : string) (b b' : Bitboard) :
  SetFen matches fen b = Some (b', None) -> consistent b' /\ fresh b'.
Proof.
  revert b'. change (SetFen_ok (SetFen matches fen b)).
  assert (Herr : forall (x : Bitboard) (e : string), SetFen_ok (Some (x, Some e))).
  { intros x e b' [=]. }
  cbv beta delta [SetFen].
  destruct (Fields fen) as [|p0 [|p1 [|p2 [|p3 [|p4 [|p5 [|x l]]]]]]];
    try apply Herr.
  step_in rows.
  destruct (negb _); [apply Herr|].
  destruct (check_rows _); try apply Herr.
  do 4 (match goal with
        | |- SetFen_ok (if ?c then _ else _) => destruct c
        end; [apply Herr|]).
  destruct (Atoi p4) as [hm|]; [|apply Herr].
  destruct (hm <? 0); [apply Herr|].
  destruct (Atoi p5) as [fm|]; [|apply Herr].
  destruct (fm <? 0); [apply Herr|].
  destruct Clear_fresh as (b0 & -> & Hc0 & Hs0).
  cbv beta iota delta [mbind option_bind].
  destruct (place_pieces _ _ _) as [b1|] eqn:Ep; [|intros b' [=]].
  pose proof (place_pieces_keeps _ _ _ _ Hc0 Hs0 Ep) as H1.
  step_settled H1 b2 H2. step_settled H2 b3 H3. step_settled H3 b4 H4.
  step_settled H4 b5 H5. step_settled H5 b6 H6. step_settled H6 b7 H7.
  step_settled H7 b8 H8. step_settled H8 b9 H9. step_settled H9 b10 H10.
  intros b' [= <-]. apply settled_fresh; apply H10.
Qed.

Lemma SetFen_success_is_consistent_witness :
  SetFen (fun _ => true) start_fen blank_position = Some (start_fen_position, None)
  /\ consistent start_fen_position /\ fresh start_fen_position.
Proof.
  assert (H : SetFen (fun _ => true) start_fen blank_position
              = Some (start_fen_position, None)).
  { vm_compute. reflexivity. }
  split; [exact H|].
  apply (SetFen_success_is_consistent (fun _ => true) start_fen blank_position
           start_fen_position H).
Defined.

Lemma squares_in_app (s1 s2 : list ascii) :
  squares_in (s1 ++ s2) = (squares_in s1 + squares_in s2)%nat.
Proof.
  induction s1 as [|c s1 IH]; [reflexivity|].
  cbn [app squares_in fold_right] in *. fold (squares_in (s1 ++ s2)).
  fold (squares_in s1). rewrite IH. lia.
Qed.

Lemma piece_letter_check :
  forallb (fun c => negb (is_piece_letter c)
                    || match PieceFromSymbol (String c EmptyString) with
                       | Some _ => true
                       | None => false
                       end) all_ascii = true.
Proof. vm_compute. reflexivity. Qed.

Lemma piece_letter_symbol (c : ascii) :
  is_piece_letter c = true ->
  exists p, PieceFromSymbol (String c EmptyString) = Some p.
Proof.
  intros E. pose proof piece_letter_check as H.
  rewrite forallb_forall in H. specialize (H c (In_all_ascii c)).
  rewrite E in H. cbn [negb orb] in H.
  destruct (PieceFromSymbol (String c EmptyString)) as [p|]; [|discriminate].
  exists p. reflexivity.
Qed.

Lemma place_pieces_total (s : list ascii) (i : nat) (b : Bitboard) :
  (i + squares_in s <= 64)%nat -> exists b', place_pieces s i b = Some b'.
Proof.
  revert i b. induction s as [|c s IH]; intros i b H.
  - exists b. reflexivity.
  - cbn [place_pieces]. cbn [squares_in fold_right] in H. fold (squares_in s) in H.
    unfold squares_of_char in H.
    destruct (is_run_digit c).
    + apply IH. lia.
    + destruct (is_piece_letter c) eqn:El.
      * destruct (piece_letter_symbol c El) as [p ->]. cbn [mbind option_bind].
        destruct (Squares180 !! i) as [sq|] eqn:Es.
        -- cbn [mbind option_bind]. apply IH. lia.
        -- apply lookup_ge_None in Es.
           assert (E : length Squares180 = 64%nat) by reflexivity. lia.
      * apply IH. lia.
Qed.

Lemma check_row_squares (row : list ascii) (fieldSum : Z) (prev : bool) :
  check_row row fieldSum prev = RowOk ->
  fieldSum + Z.of_nat (squares_in row) = 8.
Proof.
  revert fieldSum prev. induction row as [|c row IH]; intros fieldSum prev.
  - cbn [check_row squares_in fold_right].
    destruct (Z.eqb_spec fieldSum 8); cbn [negb]; [lia|discriminate].
  - cbn [check_row squares_in fold_right]. fold (squares_in row).
    unfold squares_of_char. destruct (is_run_digit c) eqn:Ed.
    + destruct prev; [discriminate|]. intros H. apply IH in H.
      unfold is_run_digit in Ed. cbv zeta in Ed.
      apply andb_true_iff in Ed as [E1 E2].
      apply Nat.leb_le in E1, E2. lia.
    + destruct (is_piece_letter c); [|discriminate].
      intros H. apply IH in H. lia.
Qed.

Lemma check_rows_squares (rows : list string) :
  check_rows rows = RowOk ->
  squares_in_rows rows = (8 * length rows)%nat.
Proof.
  induction rows as [|row rows IH]; [reflexivity|].
  cbn [check_rows squares_in_rows fold_right length]. fold (squares_in_rows rows).
  destruct (check_row (list_ascii_of_string row) 0 false) eqn:E; try discriminate.
  intros H. rewrite (IH H). apply check_row_squares in E. lia.
Qed.

Lemma split_on_squares (sep : ascii -> bool) (s cur : list ascii) :
  (forall c, sep c = true -> squares_of_char c = 0%nat) ->
  squares_in_rows (split_on sep s cur) = (squares_in (rev cur) + squares_in s)%nat.
Proof.
  intros Hsep. revert cur. induction s as [|c s IH]; intros cur.
  - cbn [split_on squares_in_rows fold_right squares_in].
    rewrite list_ascii_of_string_of_list_ascii. fold (squares_in (rev cur)). lia.
  - cbn [split_on]. destruct (sep c) eqn:E.
    + cbn [squares_in_rows fold_right]. fold (squares_in_rows (split_on sep s [])).
      rewrite IH, list_ascii_of_string_of_list_ascii.
      cbn [rev squares_in fold_right]. fold (squares_in s).
      rewrite (Hsep c E). lia.
    + rewrite IH. cbn [rev]. rewrite squares_in_app.
      cbn [squares_in fold_right]. fold (squares_in s). lia.
Qed.

Lemma slash_is_no_square (c : ascii) :
  Ascii.eqb "/" c = true -> squares_of_char c = 0%nat.
Proof. intros E. apply Ascii.eqb_eq in E. subst c. reflexivity. Qed.

(** X18.  [SetFen] never panics: every input is answered with an error or
    with nil.  The board field that passed the validation (eight rows of
    eight squares each) never takes the placing loop past the last of the
    64 entries of [Squares180]. *)
Theorem SetFen_never_panics (matches : string -> bool) (fen : string) (b : Bitboard) :
  exists b' e, SetFen matches fen b = Some (b', e).
Proof.
  cbv beta delta [SetFen].
  destruct (Fields fen) as [|p0 [|p1 [|p2 [|p3 [|p4 [|p5 [|x l]]]]]]];
    try (do 2 eexists; reflexivity).
  cbv zeta.
  destruct (Nat.eqb_spec (length (Split p0 "/")) 8) as [Hlen|Hlen]; cbn [negb];
    [|do 2 eexists; reflexivity].
  destruct (check_rows (Split p0 "/")) eqn:Hrows; try (do 2 eexists; reflexivity).
  do 4 (match goal with
        | |- exists _ _, (if ?c then _ else _) = _ => destruct c
        end; [do 2 eexists; reflexivity|]).
  destruct (Atoi p4) as [hm|]; [|do 2 eexists; reflexivity].
  destruct (hm <? 0); [do 2 eexists; reflexivity|].
  destruct (Atoi p5) as [fm|]; [|do 2 eexists; reflexivity].
  destruct (fm <? 0); [do 2 eexists; reflexivity|].
  destruct Clear_fresh as (b0 & -> & _).
  cbn [mbind option_bind].
  destruct (place_pieces_total (list_ascii_of_string p0) 0 b0) as [b1 ->].
  - apply check_rows_squares in Hrows. unfold Split in Hrows, Hlen.
    rewrite split_on_squares in Hrows by exact slash_is_no_square.
    cbn [rev squares_in fold_right] in Hrows. lia.
  - cbn [mbind option_bind]. do 2 eexists. reflexivity.
Qed.


(** ** bitboard.go : the end of the game *)



(** X20.  When the seventy-five-move rule ends the game the fifty-move
    claim is open: [IsSeventyfiveMoves] true makes [CanClaimFiftyMoves] and
    [CanClaimDraw] true, with the same position left behind. *)
Theorem IsSeventyfiveMoves_can_be_claimed (b b1 : Bitboard) :
  IsSeventyfiveMoves b = Some (true, b1) ->
  150 <= halfMoveClock b
  /\ CanClaimFiftyMoves b = Some (true, b1)
  /\ CanClaimDraw b = Some (true, b1).
Proof.
  unfold IsSeventyfiveMoves, CanClaimDraw, CanClaimFiftyMoves.
  destruct (Z.leb_spec 150 (halfMoveClock b)) as [H|H]; [|discriminate].
  destruct (Z.leb_spec 100 (halfMoveClock b)) as [H'|H']; [|lia].
  destruct (has_legal_move b) as [[[] b']|]; cbn [mbind option_bind];
    try discriminate.
  intros [= <-]. split; [exact H|]. split; reflexivity.
Qed.

Lemma IsSeventyfiveMoves_can_be_claimed_witness :
  IsSeventyfiveMoves long_shuffle = Some (true, after_legal_moves long_shuffle)
  /\ 150 <= halfMoveClock long_shuffle
  /\ CanClaimFiftyMoves long_shuffle = Some (true, after_legal_moves long_shuffle)
  /\ CanClaimDraw long_shuffle = Some (true, after_legal_moves long_shuffle).
Proof.
  assert (H : IsSeventyfiveMoves long_shuffle
              = Some (true, after_legal_moves long_shuffle)).
  { vm_compute. reflexivity. }
  split; [exact H|].
  apply (IsSeventyfiveMoves_can_be_claimed long_shuffle (after_legal_moves long_shuffle) H).
Defined.

(** X21.  A fivefold repetition is a threefold one: when
    [IsFivefoldRepitition] answers true, at least 16 moves are on the
    stack, the position has been counted five times, and
    [CanClaimThreefoldRepitition] answers true at once, without trying a
    move. *)
Theorem IsFivefoldRepitition_can_be_claimed (b b1 : Bitboard) :
  IsFivefoldRepitition b = Some (true, b1) ->
  (16 <= length (moveStack b))%nat
  /\ 5 <= count_of (transpositions b) (ZobristHash b)
  /\ CanClaimThreefoldRepitition b = Some (true, b).
Proof.
  unfold IsFivefoldRepitition. cbv zeta.
  destruct (Z.ltb_spec (Z.of_nat (length (moveStack b))) 16) as [H|H];
    [discriminate|].
  destruct (Z.ltb_spec (count_of (transpositions b) (ZobristHash b)) 5) as [H'|H'];
    [discriminate|].
  intros _. split; [lia|]. split; [exact H'|].
  unfold CanClaimThreefoldRepitition.
  destruct (Z.leb_spec 3 (count_of (transpositions b) (ZobristHash b))); [reflexivity|lia].
Qed.

Lemma IsFivefoldRepitition_can_be_claimed_witness :
  IsFivefoldRepitition (position_after two_knight_dances)
  = Some (true, after_fivefold_test (position_after two_knight_dances))
  /\ (16 <= length (moveStack (position_after two_knight_dances)))%nat
  /\ 5 <= count_of (transpositions (position_after two_knight_dances))
            (ZobristHash (position_after two_knight_dances))
  /\ CanClaimThreefoldRepitition (position_after two_knight_dances)
     = Some (true, position_after two_knight_dances).
Proof.
  assert (H : IsFivefoldRepitition (position_after two_knight_dances)
              = Some (true, after_fivefold_test (position_after two_knight_dances))).
  { vm_compute. reflexivity. }
  split; [exact H|].
  apply (IsFivefoldRepitition_can_be_claimed (position_after two_knight_dances)
           (after_fivefold_test (position_after two_knight_dances)) H).
Defined.

(** ** bitboard.go : the counters after a move *)

(** One assignment to a field outside the board: the state and the piece
    cache of the new [b]. *)
Tactic Notation "step_setter" hyp(H) hyp(Hp) ident(y) ident(H') ident(Hp') :=
  read_state H;
  lazymatch goal with
  | |- ?P ?s (let x := ?v in @?F x) =>
      pose (y := v); change (P s (F y)); cbv beta;
      eassert (H' : has_state _ y); [ subst y; state_of; exact H |];
      lazymatch type of Hp with
      | _ = ?r => assert (Hp' : pieces y = r); [ subst y; exact Hp |]
      end;
      clearbody y
  end.





(** ** bitboard.go : a position read over another *)

(** X23.  A [SetFen] that returns no error overwrites the whole position:
    the position it leaves depends on the FEN alone, not on the position
    it was called on. *)
Theorem SetFen_overwrites (matches : string -> bool) (fen : string)
    (b b' b1 : Bitboard) :
  SetFen matches fen b = Some (b1, None) ->
  SetFen matches fen b' = Some (b1, None).
Proof.
  cbv beta delta [SetFen].
  destruct (Fields fen) as [|p0 [|p1 [|p2 [|p3 [|p4 [|p5 [|x l]]]]]]];
    try discriminate.
  cbv zeta.
  destruct (negb (length (Split p0 "/") =? 8)%nat); [discriminate|].
  destruct (check_rows (Split p0 "/")); try discriminate.
  do 4 (match goal with
        | |- (if ?c then _ else _) = _ -> _ => destruct c
        end; [discriminate|]).
  destruct (Atoi p4) as [hm|]; [|discriminate].
  destruct (hm <? 0); [discriminate|].
  destruct (Atoi p5) as [fm|]; [|discriminate].
  destruct (fm <? 0); [discriminate|].
  intros H. exact H.
Qed.

Lemma SetFen_overwrites_witness :
  SetFen (fun _ => true) start_fen blank_position = Some (start_fen_position, None)
  /\ SetFen (fun _ => true) start_fen start_position = Some (start_fen_position, None).
Proof.
  assert (H : SetFen (fun _ => true) start_fen blank_position
              = Some (start_fen_position, None)).
  { vm_compute. reflexivity. }
  split; [exact H|].
  apply (SetFen_overwrites (fun _ => true) start_fen blank_position start_position
           start_fen_position H).
Defined.
